(** * Change-proposal pipeline of the cross-directory agent

    A shallow embedding of [backend/config.py], [backend/agent.py],
    [backend/database.py] and the ticket routes of [backend/routes.py].

    Python [str] values are modelled as [string]; every character stands for
    one code point below 256.  The target project tree is a finite map from
    canonical absolute paths to nodes, the SQLite tables are lists of rows in
    insertion order, and the methods of [UIAgent] and the Flask routes are
    computations in a state-and-exception monad over the whole [World]. *)

From Stdlib Require Import String Ascii ZArith List Lia Bool Sorted.
From stdpp Require Import gmap strings list pretty.
Import ListNotations.
Open Scope string_scope.
Open Scope list_scope.
Open Scope Z_scope.

#[local] Arguments String.append : simpl nomatch.

(** ** Text primitives of Python's [str] *)

Module Text.

Definition nl_char : ascii := ascii_of_nat 10.
Definition nl : string := String nl_char EmptyString.
Definition dquote : string := String (ascii_of_nat 34) EmptyString.

(** [c in s] for one character *)
Fixpoint has_char (c : ascii) (s : string) : bool :=
  match s with
  | EmptyString => false
  | String a s' => Ascii.eqb a c || has_char c s'
  end.

(** [str.isspace] on one code point below 256. *)
Definition is_space (c : ascii) : bool :=
  let n := nat_of_ascii c in
  ((9 <=? n) && (n <=? 13) || (28 <=? n) && (n <=? 32)
   || (n =? 133) || (n =? 160))%nat.

Definition is_empty (s : string) : bool :=
  match s with EmptyString => true | String _ _ => false end.

(** [bool(s)] *)
Definition truthy (s : string) : bool := negb (is_empty s).

Fixpoint lstrip (s : string) : string :=
  match s with
  | String c s' => if is_space c then lstrip s' else s
  | EmptyString => EmptyString
  end.

Fixpoint rstrip (s : string) : string :=
  match s with
  | String c s' =>
      let r := rstrip s' in
      if is_space c && is_empty r then EmptyString else String c r
  | EmptyString => EmptyString
  end.

(** [s.strip()] *)
Definition strip (s : string) : string := rstrip (lstrip s).

(** [s.startswith(p)] *)
Definition startswith (p s : string) : bool := String.prefix p s.

(** [sub in s] *)
Fixpoint contains (sub s : string) : bool :=
  String.prefix sub s
  || match s with
     | String _ s' => contains sub s'
     | EmptyString => false
     end.

(** [s[n:]] and [s[:n]] for [n >= 0] *)
Fixpoint drop (n : nat) (s : string) : string :=
  match n, s with
  | S k, String _ s' => drop k s'
  | _, _ => s
  end.

Fixpoint take (n : nat) (s : string) : string :=
  match n, s with
  | S k, String c s' => String c (take k s')
  | _, _ => EmptyString
  end.

Definition push_char (c : ascii) (ps : list string) : list string :=
  match ps with
  | p :: ps' => String c p :: ps'
  | [] => [String c EmptyString]
  end.

(** [s.split(sep)] for a non-empty [sep]: occurrences are found from the
    left and do not overlap.  [skip] counts the characters of a separator
    that has just been matched and is still being consumed. *)
Fixpoint split_go (sep : string) (skip : nat) (s : string) : list string :=
  match s with
  | EmptyString => [EmptyString]
  | String c s' =>
      match skip with
      | S k => split_go sep k s'
      | O =>
          if String.prefix sep s
          then EmptyString :: split_go sep (String.length sep - 1) s'
          else push_char c (split_go sep 0 s')
      end
  end.

Definition split (sep s : string) : list string := split_go sep 0 s.

(** [s.split(sep, 1)] *)
Fixpoint split1 (sep s : string) : list string :=
  match s with
  | EmptyString => [EmptyString]
  | String c s' =>
      if String.prefix sep s
      then [EmptyString; drop (String.length sep) s]
      else push_char c (split1 sep s')
  end.

(** [sep.join(xs)] *)
Fixpoint join (sep : string) (xs : list string) : string :=
  match xs with
  | [] => EmptyString
  | [x] => x
  | x :: rest => x +:+ sep +:+ join sep rest
  end.

(** [xs[-1]] of a list that [split] returned (never empty) *)
Definition last_piece (xs : list string) : string := List.last xs EmptyString.

(** [s.rfind(".")], as an offset from the start *)
Fixpoint rfind_dot (s : string) : option nat :=
  match s with
  | EmptyString => None
  | String c s' =>
      match rfind_dot s' with
      | Some i => Some (S i)
      | None => if Ascii.eqb c "." then Some O else None
      end
  end.

(** Size in bytes of the UTF-8 encoding of a text of code points below 256 *)
Fixpoint utf8_size (s : string) : Z :=
  match s with
  | EmptyString => 0
  | String c s' => (if (nat_of_ascii c <? 128)%nat then 1 else 2) + utf8_size s'
  end.

(** [x in xs] for a list of strings *)
Definition mem (x : string) (xs : list string) : bool :=
  existsb (String.eqb x) xs.

End Text.

(** ** Pure paths ([pathlib.PurePosixPath]) *)

Module PurePath.

Inductive Root := NoRoot | Slash | DoubleSlash.

Record Path := mkPath { root : Root; parts : list string }.

Definition root_eqb (a b : Root) : bool :=
  match a, b with
  | NoRoot, NoRoot | Slash, Slash | DoubleSlash, DoubleSlash => true
  | _, _ => false
  end.

(** Components of a path string: empty and ["."] components are dropped,
    [".."] components are kept. *)
Definition components (s : string) : list string :=
  filter (fun p => negb (Text.is_empty p) && negb (String.eqb p "."))
         (Text.split "/" s).

(** The root of a path string: exactly two leading slashes are kept apart. *)
Definition parse_root (s : string) : Root :=
  if Text.startswith "///" s then Slash
  else if Text.startswith "//" s then DoubleSlash
  else if Text.startswith "/" s then Slash
  else NoRoot.

(** [Path(s)] *)
Definition parse (s : string) : Path := mkPath (parse_root s) (components s).

Definition is_absolute (p : Path) : bool := negb (root_eqb (root p) NoRoot).

(** [a / b] *)
Definition joinpath (a b : Path) : Path :=
  if is_absolute b then b else mkPath (root a) (parts a ++ parts b).

(** [a / s] for a string [s] *)
Definition div (a : Path) (s : string) : Path := joinpath a (parse s).

Definition root_str (r : Root) : string :=
  match r with NoRoot => "" | Slash => "/" | DoubleSlash => "//" end.

(** [str(p)] *)
Definition to_str (p : Path) : string :=
  match root p, parts p with
  | NoRoot, [] => "."
  | r, ps => root_str r +:+ Text.join "/" ps
  end.

(** [p.name] *)
Definition name (p : Path) : string := List.last (parts p) "".

(** [p.suffix]: from the last dot of the name, unless that dot is the first
    or the last character. *)
Definition suffix (p : Path) : string :=
  let n := name p in
  match Text.rfind_dot n with
  | Some i =>
      if ((0 <? i) && (i <? String.length n - 1))%nat then Text.drop i n else ""
  | None => ""
  end.

Fixpoint is_prefix (xs ys : list string) : bool :=
  match xs, ys with
  | [], _ => true
  | x :: xs', y :: ys' => String.eqb x y && is_prefix xs' ys'
  | _ :: _, [] => false
  end.

(** [p.relative_to(base)]: a comparison of the parts as written; [None] is
    the [ValueError]. *)
Definition relative_to (p base : Path) : option Path :=
  if root_eqb (root p) (root base) && is_prefix (parts base) (parts p)
  then Some (mkPath NoRoot (List.skipn (length (parts base)) (parts p)))
  else None.

(** [p.absolute()]: the working directory, whose components are [cwd], is
    put in front of a relative path; nothing is normalised. *)
Definition absolute (cwd : list string) (p : Path) : Path :=
  if is_absolute p then p else mkPath Slash (cwd ++ parts p).

End PurePath.


(** ** The target file tree and the system calls made on it *)

Module FS.

Import Text PurePath.

Inductive Node :=
| File (content : string)
| Dir (st_size : Z)
| Symlink (target : string).

(** Keys are canonical absolute paths (no [".."], no link on the way); the
    root directory [[]] always exists. *)
Abbreviation Tree := (gmap (list string) Node).

Definition root_dir : Node := Dir 4096.

Definition node_at (t : Tree) (p : list string) : option Node :=
  match p with
  | [] => Some root_dir
  | _ => t !! p
  end.

Inductive Located :=
| Found (p : list string) (n : Node)   (* the path names an existing node *)
| Absent (p : list string)             (* only the last component is missing *)
| Broken (errno : Z).                  (* ENOENT 2, ENOTDIR 20, ELOOP 40 *)

(** Path resolution of the kernel: components are followed from [cur];
    [".."] goes to the parent directory of where the walk stands, a link
    is replaced by its target.  At most [links] links are followed. *)
Fixpoint walk (links : nat) (t : Tree) (cur rest : list string)
  {struct links} : Located :=
  (fix go (cur rest : list string) {struct rest} : Located :=
     match rest with
     | [] =>
         match node_at t cur with
         | Some n => Found cur n
         | None => Broken 2
         end
     | name :: rest' =>
         match node_at t cur with
         | Some (Dir _) =>
             if String.eqb name ".." then go (removelast cur) rest'
             else
               match t !! (cur ++ [name]) with
               | None =>
                   match rest' with
                   | [] => Absent (cur ++ [name])
                   | _ :: _ => Broken 2
                   end
               | Some (Symlink target) =>
                   match links with
                   | O => Broken 40
                   | S l =>
                       walk l t
                         (if startswith "/" target then [] else cur)
                         (components target ++ rest')
                   end
               | Some _ => go (cur ++ [name]) rest'
               end
         | _ => Broken 20
         end
     end) cur rest.

Definition max_links : nat := 40.

(** What the kernel sees of a path: a relative one starts at the working
    directory. *)
Definition os_parts (cwd : list string) (p : Path) : list string :=
  if is_absolute p then parts p else cwd ++ parts p.

Definition locate (cwd : list string) (t : Tree) (p : Path) : Located :=
  walk max_links t [] (os_parts cwd p).

(** [p.exists()] *)
Definition exists_ (cwd : list string) (t : Tree) (p : Path) : bool :=
  match locate cwd t p with
  | Found _ _ => true
  | _ => false
  end.

Definition node_size (n : Node) : Z :=
  match n with
  | File c => utf8_size c
  | Dir z => z
  | Symlink _ => 0
  end.

(** [p.stat().st_size], called only on a path that exists *)
Definition st_size_of (cwd : list string) (t : Tree) (p : Path) : Z :=
  match locate cwd t p with
  | Found _ n => node_size n
  | _ => 0
  end.

(** [p.is_file()] *)
Definition is_file (cwd : list string) (t : Tree) (p : Path) : bool :=
  match locate cwd t p with
  | Found _ (File _) => true
  | _ => false
  end.

(** [str(e)] of the [OSError] raised on [p] *)
Definition strerror (errno : Z) : string :=
  if errno =? 2 then "[Errno 2] No such file or directory: "
  else if errno =? 20 then "[Errno 20] Not a directory: "
  else if errno =? 21 then "[Errno 21] Is a directory: "
  else "[Errno 40] Too many levels of symbolic links: ".

Definition os_error (errno : Z) (p : Path) : string :=
  strerror errno +:+ "'" +:+ to_str p +:+ "'".

(** [p.read_text(encoding='utf-8')]: the content, or the message of the
    exception *)
Definition read_text (cwd : list string) (t : Tree) (p : Path) : string + string :=
  match locate cwd t p with
  | Found _ (File c) => inr c
  | Found _ _ => inl (os_error 21 p)
  | Absent _ => inl (os_error 2 p)
  | Broken e => inl (os_error e p)
  end.

(** [p.write_text(s, encoding='utf-8')]: the new tree, or the message of
    the exception.  An existing regular file is replaced, a missing last
    component is created. *)
Definition write_text (cwd : list string) (t : Tree) (p : Path) (s : string)
  : string + Tree :=
  match locate cwd t p with
  | Found q (File _) => inr (<[q := File s]> t)
  | Found _ _ => inl (os_error 21 p)
  | Absent q => inr (<[q := File s]> t)
  | Broken e => inl (os_error e p)
  end.

(** [p.resolve()]: the canonical location a path stands for *)
Definition realpath (cwd : list string) (t : Tree) (p : Path) : option (list string) :=
  match locate cwd t p with
  | Found q _ => Some q
  | Absent q => Some q
  | Broken _ => None
  end.

(** What a walk gives once the regular file at [q] holds [s]: the same
    place, with the new content when the place is [q]. *)
Definition refill (q : list string) (s : string) (r : Located) : Located :=
  match r with
  | Found p n => if decide (p = q) then Found p (File s) else Found p n
  | _ => r
  end.

End FS.

(** ** Rows of the SQLite tables and the state of the whole system *)

Inductive ChangeStatus := Pending | Accepted | Rejected.

Definition status_str (s : ChangeStatus) : string :=
  match s with
  | Pending => "pending"
  | Accepted => "accepted"
  | Rejected => "rejected"
  end.

Definition is_pending (s : ChangeStatus) : bool :=
  match s with Pending => true | _ => false end.

(** A row of [proposed_changes] *)
Record ProposedChange := mkChange {
  pc_id : Z;
  pc_ticket_id : option Z;
  pc_file_path : string;
  pc_original_content : string;
  pc_proposed_content : string;
  pc_change_description : string;
  pc_status : ChangeStatus;
  pc_created_at : Z;
  pc_resolved_at : option Z
}.

Inductive TicketStatus := Open | InProgress | Resolved | Closed.

(** A row of [tickets] *)
Record Ticket := mkTicket {
  t_id : Z;
  t_title : string;
  t_description : option string;
  t_category : string;
  t_status : TicketStatus;
  t_priority : string;
  t_project_id : option Z;
  t_ai_suggestion : option string;
  t_ai_suggestion_status : option ChangeStatus;
  t_ai_files_analyzed : option (list string);
  t_updated_at : Z
}.

(** A row of [projects] *)
Record Project := mkProject {
  pr_id : Z;
  pr_title : string;
  pr_frontend_url : option string;
  pr_backend_url : option string
}.

(** A row of [changes_history] *)
Record ChangeRecord := mkRecord {
  cr_project_id : option Z;
  cr_ticket_id : option Z;
  cr_files_affected : list string;
  cr_change_type : string;
  cr_change_summary : string;
  cr_ai_response : option string
}.

(** A row of [ai_context] *)
Record ContextRow := mkContext {
  cx_context_type : string;
  cx_title : option string;
  cx_content : string;
  cx_tags : list string
}.

(** One entry of [conversation_history] *)
Record Message := mkMessage { role : string; content : string }.

(** One call of [client.messages.create] *)
Record Request := mkRequest {
  req_max_tokens : Z;
  req_system : string;
  req_messages : list Message
}.

Record Db := mkDb {
  changes : list ProposedChange;
  tickets : list Ticket;
  projects : list Project;
  history : list ChangeRecord;
  context : list ContextRow
}.

Record World := mkWorld {
  w_fs : FS.Tree;                             (* the file tree *)
  w_written : list (PurePath.Path * string);  (* every write_text so far *)
  w_db : Db;
  w_conversation : list Message;              (* agent.conversation_history *)
  w_calls : nat;                              (* generation calls made so far *)
  w_now : Z                                   (* the clock *)
}.

Definition set_fs (t : FS.Tree) (w : World) : World :=
  mkWorld t (w_written w) (w_db w) (w_conversation w) (w_calls w) (w_now w).
Definition set_written (l : list (PurePath.Path * string)) (w : World) : World :=
  mkWorld (w_fs w) l (w_db w) (w_conversation w) (w_calls w) (w_now w).
Definition set_db (d : Db) (w : World) : World :=
  mkWorld (w_fs w) (w_written w) d (w_conversation w) (w_calls w) (w_now w).
Definition set_conversation (c : list Message) (w : World) : World :=
  mkWorld (w_fs w) (w_written w) (w_db w) c (w_calls w) (w_now w).
Definition set_calls (n : nat) (w : World) : World :=
  mkWorld (w_fs w) (w_written w) (w_db w) (w_conversation w) n (w_now w).

Definition set_changes (l : list ProposedChange) (d : Db) : Db :=
  mkDb l (tickets d) (projects d) (history d) (context d).
Definition set_tickets (l : list Ticket) (d : Db) : Db :=
  mkDb (changes d) l (projects d) (history d) (context d).
Definition set_history (l : list ChangeRecord) (d : Db) : Db :=
  mkDb (changes d) (tickets d) (projects d) l (context d).
Definition set_context (l : list ContextRow) (d : Db) : Db :=
  mkDb (changes d) (tickets d) (projects d) (history d) l.

(** ** Computations: state passing with Python exceptions *)

(** An exception is kept as its [str(e)], the only thing the code reads. *)
Inductive outcome (A : Type) :=
| Ret (a : A)
| Raise (msg : string).
Arguments Ret {A} a.
Arguments Raise {A} msg.

Definition M (A : Type) : Type := World -> outcome A * World.

Definition ret {A} (a : A) : M A := fun w => (Ret a, w).

Definition raise {A} (msg : string) : M A := fun w => (Raise msg, w).

Definition bind {A B} (m : M A) (k : A -> M B) : M B :=
  fun w =>
    match m w with
    | (Ret a, w') => k a w'
    | (Raise msg, w') => (Raise msg, w')
    end.

(** [try: body  except Exception as e: handler(str(e))]; what the body did
    to the state before it raised stays done. *)
Definition try_except {A} (body : M A) (handler : string -> M A) : M A :=
  fun w =>
    match body w with
    | (Ret a, w') => (Ret a, w')
    | (Raise msg, w') => handler msg w'
    end.

Definition get_world : M World := fun w => (Ret w, w).

Definition modify (f : World -> World) : M unit := fun w => (Ret tt, f w).

Definition lift_result {A} (r : string + A) : M A :=
  match r with
  | inr a => ret a
  | inl msg => raise msg
  end.

Declare Scope py_scope.
Delimit Scope py_scope with py.
Notation "x <- c1 ;; c2" := (bind c1 (fun x => c2))
  (at level 100, c1 at next level, right associativity) : py_scope.
Notation "c1 ;; c2" := (bind c1 (fun _ => c2))
  (at level 100, right associativity) : py_scope.
Open Scope py_scope.


(** ** [backend/database.py] *)

Module Database.

Definition Z_opt_eqb (a : option Z) (b : Z) : bool :=
  match a with
  | Some x => x =? b
  | None => false
  end.

(** The rowid SQLite gives to the next row of a table that never loses a
    row: one more than the largest id in it. *)
Definition next_id (ids : list Z) : Z := 1 + fold_right Z.max 0 ids.

Definition create_proposed_change (file_path original_content proposed_content
    change_description : string) (ticket_id : option Z) : M Z :=
  fun w =>
    let d := w_db w in
    let change_id := next_id (map pc_id (changes d)) in
    let row := mkChange change_id ticket_id file_path original_content
                 proposed_content change_description Pending (w_now w) None in
    (Ret change_id,
     set_db (set_changes (changes d ++ [row]) d) w).

Definition get_proposed_change (change_id : Z) (w : World)
  : option ProposedChange :=
  List.find (fun c => pc_id c =? change_id) (changes (w_db w)).

(** [ORDER BY created_at DESC], ties left in table order *)
Fixpoint insert_desc (c : ProposedChange) (l : list ProposedChange)
  : list ProposedChange :=
  match l with
  | [] => [c]
  | x :: l' =>
      if pc_created_at x <? pc_created_at c then c :: l
      else x :: insert_desc c l'
  end.

Definition order_by_created_desc (l : list ProposedChange)
  : list ProposedChange :=
  fold_right insert_desc [] l.

Definition get_proposed_changes_for_ticket (ticket_id : Z) (w : World)
  : list ProposedChange :=
  order_by_created_desc
    (List.filter (fun c => Z_opt_eqb (pc_ticket_id c) ticket_id)
       (changes (w_db w))).

Definition get_pending_proposed_changes (w : World) : list ProposedChange :=
  order_by_created_desc
    (List.filter (fun c => is_pending (pc_status c)) (changes (w_db w))).

Definition with_status (status : ChangeStatus) (now : Z) (c : ProposedChange)
  : ProposedChange :=
  mkChange (pc_id c) (pc_ticket_id c) (pc_file_path c) (pc_original_content c)
    (pc_proposed_content c) (pc_change_description c) status
    (pc_created_at c) (Some now).

Definition update_proposed_change_status (change_id : Z)
    (status : ChangeStatus) : M bool :=
  fun w =>
    let d := w_db w in
    let rows :=
      map (fun c =>
             if pc_id c =? change_id then with_status status (w_now w) c else c)
          (changes d) in
    (Ret (existsb (fun c => pc_id c =? change_id) (changes d)),
     set_db (set_changes rows d) w).

Definition get_project_by_id (project_id : Z) (w : World) : option Project :=
  List.find (fun p => pr_id p =? project_id) (projects (w_db w)).

Definition get_ticket_by_id (ticket_id : Z) (w : World) : option Ticket :=
  List.find (fun t => t_id t =? ticket_id) (tickets (w_db w)).

Definition update_tickets (ticket_id : Z) (f : Ticket -> Ticket) : M bool :=
  fun w =>
    let d := w_db w in
    (Ret (existsb (fun t => t_id t =? ticket_id) (tickets d)),
     set_db
       (set_tickets
          (map (fun t => if t_id t =? ticket_id then f t else t) (tickets d)) d)
       w).

Definition update_ticket_ai_suggestion (ticket_id : Z) (suggestion : string)
    (files_analyzed : list string) : M bool :=
  fun w =>
    update_tickets ticket_id
      (fun t =>
         mkTicket (t_id t) (t_title t) (t_description t) (t_category t)
           (t_status t) (t_priority t) (t_project_id t) (Some suggestion)
           (Some Pending) (Some files_analyzed) (w_now w))
      w.

Definition update_ticket_ai_status (ticket_id : Z) (status : ChangeStatus)
  : M bool :=
  fun w =>
    match status with
    | Accepted =>
        update_tickets ticket_id
          (fun t =>
             mkTicket (t_id t) (t_title t) (t_description t) (t_category t)
               Resolved (t_priority t) (t_project_id t) (t_ai_suggestion t)
               (Some status) (t_ai_files_analyzed t) (w_now w))
          w
    | _ =>
        update_tickets ticket_id
          (fun t =>
             mkTicket (t_id t) (t_title t) (t_description t) (t_category t)
               (t_status t) (t_priority t) (t_project_id t) (t_ai_suggestion t)
               (Some status) (t_ai_files_analyzed t) (w_now w))
          w
    end.

Definition record_change (project_id : option Z) (files_affected : list string)
    (change_type change_summary : string) (ai_response : option string)
    (ticket_id : option Z) : M unit :=
  modify (fun w =>
    let d := w_db w in
    set_db
      (set_history
         (history d ++
          [mkRecord project_id ticket_id files_affected change_type
             change_summary ai_response]) d)
      w).

Definition save_ai_context (content context_type : string)
    (title : option string) (tags : list string) : M unit :=
  modify (fun w =>
    let d := w_db w in
    set_db (set_context (context d ++ [mkContext context_type title content tags]) d) w).

End Database.

(** ** A small target project, used to run the code on concrete inputs *)

Definition shop : PurePath.Path := PurePath.parse "/srv/shop".
Definition home : list string := ["srv"; "agent"].

Definition tree0 : FS.Tree :=
  list_to_map
    [ (["srv"], FS.Dir 4096);
      (["srv"; "shop"], FS.Dir 4096);
      (["srv"; "shop"; "app.py"], FS.File "print(1)");
      (["srv"; "shop"; "README.md"], FS.File "# Shop");
      (["srv"; "shop"; "docs.md"], FS.Dir 4096);
      (["srv"; "shop"; "ln.txt"], FS.Symlink "../keys/id.txt");
      (["srv"; "keys"], FS.Dir 4096);
      (["srv"; "keys"; "id.txt"], FS.File "secret") ].

Definition ticket0 : Ticket :=
  mkTicket 1 "Fix login" None "bug" Open "high" None None None None 0.

Definition db0 : Db := mkDb [] [ticket0] [] [] [].

Definition world0 : World := mkWorld tree0 [] db0 [] 0 100.

(** A pending change of ticket 1 to [app.py], and the state holding it *)
Definition change7 : ProposedChange :=
  mkChange 7 (Some 1) "app.py" "print(1)" "print(2)" "Fix login: greet" Pending
    50 None.

Definition db1 : Db := mkDb [change7] [ticket0] [] [] [].

Definition world1 : World := mkWorld tree0 [] db1 [] 0 100.

(** A second pending change of ticket 1, made later, to [docs.md], which
    is a directory *)
Definition change8 : ProposedChange :=
  mkChange 8 (Some 1) "docs.md" "" "# Docs" "Fix login: document" Pending 60
    None.

Definition world2 : World :=
  mkWorld tree0 [] (mkDb [change7; change8] [ticket0] [] [] []) [] 0 100.

(** A generation service for the examples: the first call selects two
    files, one of which does not exist, the second call answers with a plan
    that names [app.py] twice, later calls give the new content of a file.
    [claude_fails_after n] raises from call [n] on. *)
Definition selection0 : string :=
  "[" +:+ Text.dquote +:+ "app.py" +:+ Text.dquote +:+ ", " +:+ Text.dquote
  +:+ "ghost.py" +:+ Text.dquote +:+ "]".

Definition plan0 : string :=
  Text.join Text.nl
    ["The login check compares the wrong field.";
     "FILES_TO_MODIFY:";
     "- app.py: compare the password hash";
     "- app.py: log failed attempts"].

Definition claude0 (n : nat) (r : Request) : outcome string :=
  match n with
  | O => Ret selection0
  | S O => Ret plan0
  | _ => Ret "print(2)"
  end.

Definition claude_fails_after (k : nat) (n : nat) (r : Request)
  : outcome string :=
  if (n <? k)%nat then claude0 n r else Raise "Connection error.".

(** The same, for an exception whose [str(e)] is empty *)
Definition claude_fails_silently_after (k : nat) (n : nat) (r : Request)
  : outcome string :=
  if (n <? k)%nat then claude0 n r else Raise "".

(** [json.loads] on an array of strings without escapes *)
Inductive JsonState := JStart | JItem (first : bool) | JString | JAfter | JDone.

Fixpoint json_go (st : JsonState) (cur : string) (acc : list string)
    (s : string) : option (list string) :=
  match s with
  | EmptyString => match st with JDone => Some acc | _ => None end
  | String c s' =>
      match st with
      | JStart =>
          if Ascii.eqb c "[" then json_go (JItem true) cur acc s'
          else if Text.is_space c then json_go JStart cur acc s'
          else None
      | JItem first =>
          if Text.is_space c then json_go st cur acc s'
          else if Ascii.eqb c (ascii_of_nat 34) then json_go JString "" acc s'
          else if Ascii.eqb c "]" && first then json_go JDone cur acc s'
          else None
      | JString =>
          if Ascii.eqb c (ascii_of_nat 34) then json_go JAfter "" (acc ++ [cur]) s'
          else if Ascii.eqb c (ascii_of_nat 92) then None
          else json_go JString (cur +:+ String c EmptyString) acc s'
      | JAfter =>
          if Text.is_space c then json_go JAfter cur acc s'
          else if Ascii.eqb c "," then json_go (JItem false) cur acc s'
          else if Ascii.eqb c "]" then json_go JDone cur acc s'
          else None
      | JDone => if Text.is_space c then json_go JDone cur acc s' else None
      end
  end.

Definition json0 (s : string) : option (list string) := json_go JStart "" [] s.

(** The entries below [/srv/shop] *)
Definition rglob0 (t : FS.Tree) (p : PurePath.Path) : list PurePath.Path :=
  [PurePath.div shop "app.py"; PurePath.div shop "README.md";
   PurePath.div shop "docs.md"; PurePath.div shop "ln.txt"].

Definition context0 (w : World) (project_id : option Z) : outcome string :=
  Ret "[Target API context unavailable: No project backend URL configured]".

Definition chat0 (message : string) : M string := ret "ok".

(** The same state after [app.py] has been removed from the tree *)
Definition world1_gone : World :=
  mkWorld (delete ["srv"; "shop"; "app.py"] tree0) [] db1 [] 0 100.

(** The change of [world1] after it has been rejected *)
Definition change7_rejected : ProposedChange :=
  mkChange 7 (Some 1) "app.py" "print(1)" "print(2)" "Fix login: greet"
    Rejected 50 (Some 90).

Definition world1_rejected : World :=
  mkWorld tree0 [] (mkDb [change7_rejected] [ticket0] [] [] []) [] 0 100.

(** A pending change of another ticket, and a state with the changes of
    both tickets *)
Definition change9 : ProposedChange :=
  mkChange 9 (Some 2) "README.md" "# Shop" "# The shop" "Docs: title" Pending
    70 None.

Definition world3 : World :=
  mkWorld tree0 [] (mkDb [change7; change9] [ticket0] [] [] []) [] 0 100.



(** The entries of [/srv/shop] as [iterdir] gives them, and their times *)
Definition iterdir0 (t : FS.Tree) (p : PurePath.Path) : list PurePath.Path :=
  [PurePath.div shop "app.py"; PurePath.div shop "README.md";
   PurePath.div shop "docs.md"].

Definition mtime0 (t : FS.Tree) (p : PurePath.Path) : Z := 1700000000.

(** ** [backend/config.py] and [backend/agent.py] *)

Inductive ReadResult :=
| ReadError (msg : string)
| ReadOk (path content : string) (size : Z) (extension : string).

Inductive ProposeResult :=
| ProposeError (msg : string)
| Proposed (change_id : Z) (file_path original_content proposed_content
            description : string).

Inductive ApplyResult :=
| ApplyError (msg : string)
| Applied (change_id : Z) (file_path : string).

Inductive RejectResult :=
| RejectError (msg : string)
| RejectedOk (change_id : Z).

Inductive TaskResult :=
| TaskError (msg : string)
| TaskSuccess (files_analyzed : list string) (total_files total_chars : Z)
              (response : string).

Record FileRef := mkFileRef { fr_path : string; fr_name : string; fr_size : Z }.

(** [ALLOWED_EXTENSIONS] *)
Definition ALLOWED_EXTENSIONS : list string :=
  [".md"; ".txt"; ".json"; ".yaml"; ".yml"; ".py"; ".config"; ".html"; ".css";
   ".js"; ".jsx"; ".ts"; ".tsx"].

(** [MAX_FILE_SIZE] *)
Definition MAX_FILE_SIZE : Z := 100 * 1024.

(** [SYSTEM_PROMPT] *)
Definition SYSTEM_PROMPT : string :=
  Text.join Text.nl
    ["You are an expert Python code and documentation agent. Your job is to:";
     "";
     "1. Read file contents from a separate project directory";
     "2. Analyze and improve the content";
     "3. Return ONLY the improved file content (never return file paths)";
     "";
     "Important constraints:";
     "- You NEVER have direct filesystem access";
     "- You NEVER know the original file paths";
     "- You ONLY return the modified content";
     "- The controller script handles all filesystem operations";
     "- Keep improvements professional and well-documented";
     ""].

(** A Python [dict] with string keys: insertion order, a value set again
    keeps its place. *)
Fixpoint dict_set {V} (k : string) (v : V) (d : list (string * V))
  : list (string * V) :=
  match d with
  | [] => [(k, v)]
  | (k', v') :: d' =>
      if String.eqb k' k then (k, v) :: d' else (k', v') :: dict_set k v d'
  end.

(** [re.search(r'\[.*?\]', s, re.DOTALL)]: from the first opening bracket
    to the first closing bracket after it. *)
Fixpoint upto_close (s : string) : option string :=
  match s with
  | EmptyString => None
  | String c s' =>
      if Ascii.eqb c "]" then Some "]"
      else option_map (String c) (upto_close s')
  end.

Fixpoint search_array (s : string) : option string :=
  match s with
  | EmptyString => None
  | String c s' =>
      if Ascii.eqb c "[" then option_map (String c) (upto_close s')
      else search_array s'
  end.

Section Agent.

Import Text PurePath FS Database.

Set Default Proof Using "Type".

(** [TARGET_PROJECT_DIR], and the components of the working directory of
    the process *)
Variable TARGET_PROJECT_DIR : Path.
Variable cwd : list string.

(** The generation service: what the [n]-th call of
    [client.messages.create(...).content[0].text] evaluates to. *)
Variable claude : nat -> Request -> outcome string.

(** [json.loads] on the text of an array of strings; [None] is its
    exception. *)
Variable json_loads : string -> option (list string).

(** [Path.rglob("*")]: every entry below a directory, in the order the
    operating system lists them. *)
Variable rglob : Tree -> Path -> list Path.

(** What [UIAgent.get_target_api_context] gives: it asks the target
    project's own service over HTTP and changes nothing here. *)
Variable target_api_context : World -> option Z -> outcome string.

(** [UIAgent.chat] *)
Variable chat : string -> M string.

Definition get_target_api_context (project_id : option Z) : M string :=
  fun w => (target_api_context w project_id, w).

(** *** [config.validate_target_path] *)

Definition validate_target_path (t : Tree) (file_path : Path) : bool :=
  let abs_path := absolute cwd file_path in
  match relative_to abs_path TARGET_PROJECT_DIR with
  | None => false
  | Some _ =>
      if negb (exists_ cwd t abs_path) then false
      else if negb (mem (suffix abs_path) ALLOWED_EXTENSIONS) then false
      else if st_size_of cwd t abs_path >? MAX_FILE_SIZE then false
      else true
  end.

(** *** Primitives with an effect *)

Definition write_text_m (p : Path) (s : string) : M unit :=
  fun w =>
    match write_text cwd (w_fs w) p s with
    | inr t' => (Ret tt, set_written (w_written w ++ [(p, s)]) (set_fs t' w))
    | inl msg => (Raise msg, w)
    end.

Definition read_text_m (p : Path) : M string :=
  fun w => lift_result (read_text cwd (w_fs w) p) w.

Definition messages_create (max_tokens : Z) (system : string)
    (messages : list Message) : M string :=
  fun w =>
    (claude (w_calls w) (mkRequest max_tokens system messages),
     set_calls (S (w_calls w)) w).

Definition history_append (m : Message) : M unit :=
  modify (fun w => set_conversation (w_conversation w ++ [m]) w).

Definition str_len (s : string) : Z := Z.of_nat (String.length s).

(** *** [UIAgent.read_file] *)

Definition read_file (file_path : string) : M ReadResult :=
  try_except
    (w <- get_world;;
     let target_file := div TARGET_PROJECT_DIR file_path in
     if negb (validate_target_path (w_fs w) target_file)
     then ret (ReadError "File access denied - safety check failed")
     else if negb (exists_ cwd (w_fs w) target_file)
     then ret (ReadError ("File not found: " +:+ file_path))
     else
       content <- read_text_m target_file;;
       ret (ReadOk file_path content (str_len content) (suffix target_file)))
    (fun msg => ret (ReadError msg)).

(** *** [UIAgent.propose_file_change] *)

Definition propose_prompt (instruction original_content : string) : string :=
  "Please modify this file according to the instruction." +:+ nl +:+
  "Return ONLY the complete modified file content, no explanations or markdown code blocks."
  +:+ nl +:+ nl +:+
  "Instruction: " +:+ instruction +:+ nl +:+ nl +:+
  "Current file content:" +:+ nl +:+ original_content.

Definition propose_file_change (file_path instruction : string)
    (ticket_id : option Z) : M ProposeResult :=
  try_except
    (file_data <- read_file file_path;;
     match file_data with
     | ReadError msg => ret (ProposeError msg)
     | ReadOk _ original_content _ _ =>
         proposed_content <-
           messages_create 4096
             "You are a code assistant. Return only the modified file content, nothing else."
             [mkMessage "user" (propose_prompt instruction original_content)];;
         change_id <-
           create_proposed_change file_path original_content proposed_content
             instruction ticket_id;;
         ret (Proposed change_id file_path original_content proposed_content
                instruction)
     end)
    (fun msg => ret (ProposeError msg)).

(** *** [UIAgent.apply_proposed_change] *)

Definition apply_proposed_change (change_id : Z) : M ApplyResult :=
  try_except
    (w <- get_world;;
     match get_proposed_change change_id w with
     | None => ret (ApplyError "Proposed change not found")
     | Some change =>
         if negb (is_pending (pc_status change))
         then ret (ApplyError ("Change already " +:+ status_str (pc_status change)))
         else
           let target_file := div TARGET_PROJECT_DIR (pc_file_path change) in
           if negb (validate_target_path (w_fs w) target_file)
           then ret (ApplyError "Safety check failed on write")
           else
             write_text_m target_file (pc_proposed_content change);;
             update_proposed_change_status change_id Accepted;;
             record_change None [pc_file_path change] "modify"
               (take 200 (pc_change_description change))
               (Some (take 500 (pc_proposed_content change)))
               (pc_ticket_id change);;
             ret (Applied change_id (pc_file_path change))
     end)
    (fun msg => ret (ApplyError msg)).

(** *** [UIAgent.reject_proposed_change] *)

Definition reject_proposed_change (change_id : Z) : M RejectResult :=
  try_except
    (w <- get_world;;
     match get_proposed_change change_id w with
     | None => ret (RejectError "Proposed change not found")
     | Some change =>
         if negb (is_pending (pc_status change))
         then ret (RejectError ("Change already " +:+ status_str (pc_status change)))
         else
           update_proposed_change_status change_id Rejected;;
           ret (RejectedOk change_id)
     end)
    (fun msg => ret (RejectError msg)).

(** *** [UIAgent.get_all_files_recursive] *)

Definition hidden_or_skipped (rel_path : string) : bool :=
  existsb (startswith ".") (split "/" rel_path)
  || existsb (fun skip => contains skip rel_path)
       ["node_modules"; "__pycache__"; "venv"; ".git"].

(** The loop over [rglob("*")]; a [ValueError] of [relative_to] ends it with
    the files gathered so far. *)
Fixpoint scan_items (t : Tree) (items : list Path) (files : list FileRef)
  : list FileRef :=
  match items with
  | [] => files
  | item :: rest =>
      if is_file cwd t item && mem (suffix item) ALLOWED_EXTENSIONS
      then
        match relative_to item TARGET_PROJECT_DIR with
        | None => files
        | Some rel =>
            let rel_path := to_str rel in
            if hidden_or_skipped rel_path then scan_items t rest files
            else
              scan_items t rest
                (files ++ [mkFileRef rel_path (name item) (st_size_of cwd t item)])
        end
      else scan_items t rest files
  end.

Definition get_all_files_recursive (directory : string) (t : Tree)
  : list FileRef :=
  let target_dir := div TARGET_PROJECT_DIR directory in
  if negb (exists_ cwd t target_dir) then []
  else scan_items t (rglob t target_dir) [].

(** *** [UIAgent.identify_relevant_files] *)

Definition identify_prompt (task file_list : string) : string :=
  "Given this task: " +:+ dquote +:+ task +:+ dquote +:+ nl +:+ nl +:+
  "Here are the available files in the project:" +:+ nl +:+
  file_list +:+ nl +:+ nl +:+
  "Which files are most relevant to complete this task? Return ONLY a JSON array of file paths, nothing else."
  +:+ nl +:+
  "Example: [" +:+ dquote +:+ "src/index.js" +:+ dquote +:+ ", " +:+ dquote
  +:+ "config.json" +:+ dquote +:+ "]" +:+ nl +:+ nl +:+
  "Be selective - only include files that are directly relevant to the task.".

Definition file_list_line (f : FileRef) : string :=
  "- " +:+ fr_path f +:+ " (" +:+ pretty (fr_size f) +:+ " bytes)".

Definition identify_relevant_files (task : string) : M (list string) :=
  try_except
    (w <- get_world;;
     let all_files := get_all_files_recursive "." (w_fs w) in
     match all_files with
     | [] => ret []
     | _ :: _ =>
         let file_list := join nl (map file_list_line all_files) in
         response <-
           messages_create 1024
             "You are a helpful assistant that identifies relevant files for a task. Return only valid JSON arrays."
             [mkMessage "user" (identify_prompt task file_list)];;
         match search_array (strip response) with
         | Some json_match =>
             match json_loads json_match with
             | Some relevant_files => ret relevant_files
             | None => raise "json.JSONDecodeError"
             end
         | None => ret []
         end
     end)
    (fun _ => ret []).

(** *** [UIAgent.process_task_two_step] *)

(** The loop that reads the relevant files into [file_contents] *)
Fixpoint read_relevant (relevant_files : list string)
    (file_contents : list (string * string)) (total_size : Z)
  : M (list (string * string) * Z) :=
  match relevant_files with
  | [] => ret (file_contents, total_size)
  | file_path :: rest =>
      file_data <- read_file file_path;;
      match file_data with
      | ReadOk _ content _ _ =>
          read_relevant rest (dict_set file_path content file_contents)
            (total_size + str_len content)
      | ReadError _ => read_relevant rest file_contents total_size
      end
  end.

Definition content_block (file_contents : list (string * string)) : string :=
  join (nl +:+ nl)
    (map (fun pc => "=== " +:+ fst pc +:+ " ===" +:+ nl +:+ snd pc) file_contents).

Definition process_task_two_step (task : string) (project_id : option Z)
  : M TaskResult :=
  try_except
    (api_context <- get_target_api_context project_id;;
     relevant_files <- identify_relevant_files task;;
     match relevant_files with
     | [] => ret (TaskError "No relevant files found for this task")
     | _ :: _ =>
         read <- read_relevant relevant_files [] 0;;
         let file_contents := fst read in
         let total_size := snd read in
         match file_contents with
         | [] => ret (TaskError "Could not read any of the relevant files")
         | _ :: _ =>
             let full_context :=
               "Task: " +:+ task +:+ nl +:+ nl +:+ api_context +:+ nl +:+ nl +:+
               "Relevant files:" +:+ nl +:+ nl +:+ content_block file_contents in
             history_append (mkMessage "user" full_context);;
             w <- get_world;;
             assistant_response <-
               messages_create 4096 SYSTEM_PROMPT (w_conversation w);;
             history_append (mkMessage "assistant" assistant_response);;
             record_change None (map fst file_contents) "analyze"
               (take 200 task) (Some (take 1000 assistant_response)) None;;
             save_ai_context assistant_response "finding"
               (Some ("Analysis: " +:+ take 50 task +:+ "..."))
               ["auto-generated"; "task-analysis"];;
             ret (TaskSuccess (map fst file_contents)
                    (Z.of_nat (length file_contents)) total_size
                    assistant_response)
         end
     end)
    (fun msg => ret (TaskError msg)).

(** ** [backend/routes.py]: the ticket routes *)

Inductive ResolveResponse :=
| ResolveError (http_status : Z) (msg : string)
| ResolveOk (suggestion : string) (files_analyzed : list string)
            (proposed_changes : list (string * Z)).

Inductive ActionResponse :=
| ActionError (http_status : Z) (msg : string)
| ActionAccepted (applied_changes : list string)
| ActionRejected
| ActionProbed (response : string).

(** [result.get('error')], [result.get('response', '')] and
    [result.get('files_analyzed', [])] *)
Definition result_error (r : TaskResult) : option string :=
  match r with TaskError msg => Some msg | TaskSuccess _ _ _ _ => None end.

Definition result_response (r : TaskResult) : string :=
  match r with TaskError _ => "" | TaskSuccess _ _ _ resp => resp end.

Definition result_files_analyzed (r : TaskResult) : list string :=
  match r with TaskError _ => [] | TaskSuccess fa _ _ _ => fa end.

Definition opt_truthy (o : option string) : bool :=
  match o with Some s => truthy s | None => false end.

(** [project.get(key, default)] of a nullable column, inside an f-string *)
Definition py_str_opt (o : option string) : string :=
  match o with Some s => s | None => "None" end.

Definition MARKER : string := "FILES_TO_MODIFY:".

Definition task_of_ticket (project_info : string) (ticket : Ticket) : string :=
  join nl
    ["Analyze and resolve this ticket:";
     project_info;
     "Title: " +:+ t_title ticket;
     "Category: " +:+ t_category ticket;
     "Priority: " +:+ t_priority ticket;
     "Description: " +:+
       (if opt_truthy (t_description ticket)
        then py_str_opt (t_description ticket)
        else "No description provided");
     "";
     "Please:";
     "1. Identify the relevant files in the codebase";
     "2. Analyze the issue (use the API blueprint info if relevant)";
     "3. Provide a detailed resolution or implementation plan";
     "4. If it's a bug, explain the root cause and fix";
     "5. If it's a feature/task, provide implementation steps";
     "6. Reference specific API endpoints if the issue involves the API";
     "7. IMPORTANT: At the end, list the files that need to be modified in this format:";
     "   FILES_TO_MODIFY:";
     "   - path/to/file1.py: description of changes needed";
     "   - path/to/file2.js: description of changes needed"].

Definition project_info_of (project : Project) : string :=
  nl +:+ "Project: " +:+ pr_title project +:+ nl +:+
  "Frontend URL: " +:+ py_str_opt (pr_frontend_url project) +:+ nl +:+
  "Backend URL: " +:+ py_str_opt (pr_backend_url project) +:+ nl.

(** The lines after the last marker *)
Definition directive_lines (ai_response : string) : list string :=
  split nl (strip (last_piece (split MARKER ai_response))).

(** What one line of the block stands for: the path and the instruction,
    or nothing when the line is not of the shape "- path: text". *)
Definition directive_of_line (title line : string) : option (string * string) :=
  let line := strip line in
  if startswith "- " line && contains ":" line
  then
    let parts := split1 ":" (drop 2 line) in
    let file_path := strip (nth 0 parts "") in
    let instruction :=
      if (1 <? length parts)%nat then strip (nth 1 parts "")
      else "Apply fix for: " +:+ title in
    Some (file_path, instruction)
  else None.

(** The directives of a response, in the order of their lines *)
Definition extract_file_directives (title ai_response : string)
  : list (string * string) :=
  if contains MARKER ai_response
  then omap (directive_of_line title) (directive_lines ai_response)
  else [].

(** The loop over the lines of the block *)
Fixpoint propose_lines (ticket : Ticket) (files_analyzed : list string)
    (lines : list string) (proposed_changes : list (string * Z))
  : M (list (string * Z)) :=
  match lines with
  | [] => ret proposed_changes
  | line :: rest =>
      match directive_of_line (t_title ticket) line with
      | Some (file_path, instruction) =>
          if mem file_path files_analyzed
          then
            change_result <-
              propose_file_change file_path
                (t_title ticket +:+ ": " +:+ instruction) (Some (t_id ticket));;
            match change_result with
            | Proposed change_id _ _ _ _ =>
                propose_lines ticket files_analyzed rest
                  (proposed_changes ++ [(file_path, change_id)])
            | ProposeError _ =>
                propose_lines ticket files_analyzed rest proposed_changes
            end
          else propose_lines ticket files_analyzed rest proposed_changes
      | None => propose_lines ticket files_analyzed rest proposed_changes
      end
  end.

(** The project lines of the task, empty without a project *)
Definition ticket_project_info (w : World) (ticket : Ticket) : string :=
  match t_project_id ticket with
  | Some pid =>
      match get_project_by_id pid w with
      | Some project => project_info_of project
      | None => ""
      end
  | None => ""
  end.

(** [POST /api/tickets/<id>/ai-resolve] *)
Definition api_ticket_ai_resolve (ticket_id : Z) : M ResolveResponse :=
  w <- get_world;;
  match get_ticket_by_id ticket_id w with
  | None => ret (ResolveError 404 "Ticket not found")
  | Some ticket =>
      let project_id := t_project_id ticket in
      let project_info := ticket_project_info w ticket in
      let task := task_of_ticket project_info ticket in
      result <- process_task_two_step task project_id;;
      if opt_truthy (result_error result)
      then ret (ResolveError 400 (py_str_opt (result_error result)))
      else
        let ai_response := result_response result in
        let files_analyzed := result_files_analyzed result in
        update_ticket_ai_suggestion ticket_id ai_response files_analyzed;;
        proposed_changes <-
          (if contains MARKER ai_response
           then propose_lines ticket files_analyzed (directive_lines ai_response) []
           else ret []);;
        ret (ResolveOk ai_response files_analyzed proposed_changes)
  end.

(** The loop of the accept action over the rows read at its start *)
Fixpoint accept_changes (pending_changes : list ProposedChange)
    (applied_changes : list string) : M (list string) :=
  match pending_changes with
  | [] => ret applied_changes
  | change :: rest =>
      if is_pending (pc_status change)
      then
        result <- apply_proposed_change (pc_id change);;
        match result with
        | Applied _ _ =>
            accept_changes rest (applied_changes ++ [pc_file_path change])
        | ApplyError _ => accept_changes rest applied_changes
        end
      else accept_changes rest applied_changes
  end.

Fixpoint reject_changes (pending_changes : list ProposedChange) : M unit :=
  match pending_changes with
  | [] => ret tt
  | change :: rest =>
      if is_pending (pc_status change)
      then reject_proposed_change (pc_id change);; reject_changes rest
      else reject_changes rest
  end.

(** [POST /api/tickets/<id>/ai-action] *)
Definition api_ticket_ai_action (ticket_id : Z) (action message : string)
  : M ActionResponse :=
  let action := strip action in
  if negb (mem action ["accept"; "reject"; "probe"])
  then ret (ActionError 400 "Invalid action. Use: accept, reject, or probe")
  else
    w <- get_world;;
    match get_ticket_by_id ticket_id w with
    | None => ret (ActionError 404 "Ticket not found")
    | Some ticket =>
        if String.eqb action "accept" then
          let pending_changes := get_proposed_changes_for_ticket ticket_id w in
          applied_changes <- accept_changes pending_changes [];;
          update_ticket_ai_status ticket_id Accepted;;
          ret (ActionAccepted applied_changes)
        else if String.eqb action "reject" then
          let pending_changes := get_proposed_changes_for_ticket ticket_id w in
          reject_changes pending_changes;;
          update_ticket_ai_status ticket_id Rejected;;
          ret ActionRejected
        else
          let message := strip message in
          if is_empty message
          then ret (ActionError 400 "Message required for probe action")
          else
            let context :=
              join nl
                ["Continuing analysis of ticket #" +:+ pretty ticket_id +:+ ":";
                 "Title: " +:+ t_title ticket;
                 "Category: " +:+ t_category ticket;
                 "Previous AI suggestion: " +:+ py_str_opt (t_ai_suggestion ticket);
                 "";
                 "User's follow-up question: " +:+ message] in
            response <- chat context;;
            ret (ActionProbed response)
    end.


(** *** States and predicates used to state the properties *)

Definition target_of (change : ProposedChange) : Path :=
  div TARGET_PROJECT_DIR (pc_file_path change).

(** The state in which [apply_proposed_change] leaves the system once the
    write of [change] has produced the tree [t']: the write is noted, the
    row is accepted, the history has one more record. *)
Definition accepted_world (change : ProposedChange) (t' : Tree) (w : World)
  : World :=
  let w1 :=
    set_written (w_written w ++ [(target_of change, pc_proposed_content change)])
      (set_fs t' w) in
  let w2 := snd (update_proposed_change_status (pc_id change) Accepted w1) in
  snd (record_change None [pc_file_path change] "modify"
         (take 200 (pc_change_description change))
         (Some (take 500 (pc_proposed_content change)))
         (pc_ticket_id change) w2).

(** The wording of the specification for "inside TargetRoot": the
    canonical location of the path lies strictly below the canonical
    location of the target directory. *)
Definition strict_descendant (q base : list string) : bool :=
  is_prefix base q && (length base <? length q)%nat.

Definition resolves_inside_target (t : Tree) (p : Path) : bool :=
  match realpath cwd t (absolute cwd p), realpath cwd t TARGET_PROJECT_DIR with
  | Some q, Some base => strict_descendant q base
  | _, _ => false
  end.

(** Whether the row with this id is accepted in state [w] *)
Definition accepted_in (w : World) (change_id : Z) : bool :=
  match get_proposed_change change_id w with
  | Some row =>
      match pc_status row with
      | Accepted => true
      | _ => false
      end
  | None => false
  end.


(** What [write_text] was called with when [change] was applied *)
Definition write_of (change : ProposedChange) : Path * string :=
  (target_of change, pc_proposed_content change).

(** Whether [read_file] gives the content of a path in state [w] *)
Definition readable (w : World) (file_path : string) : bool :=
  match fst (read_file file_path w) with
  | Ret (ReadOk _ _ _ _) => true
  | _ => false
  end.

(** The keys of a [dict] filled in this order: each path once, at the place
    of its first occurrence *)
Definition add_key (k : string) (ks : list string) : list string :=
  if mem k ks then ks else ks ++ [k].

Definition keys_in_order (l : list string) : list string :=
  fold_left (fun ks k => add_key k ks) l [].

(** The task that [api_ticket_ai_resolve] builds for a ticket *)
Definition ticket_task (w : World) (ticket : Ticket) : string :=
  task_of_ticket (ticket_project_info w ticket) ticket.

(** The request of the third step of [process_task_two_step] *)
Definition analysis_request (task api_context : string)
    (file_contents : list (string * string)) (w : World) : Request :=
  mkRequest 4096 SYSTEM_PROMPT
    (w_conversation w ++
     [mkMessage "user"
        ("Task: " +:+ task +:+ nl +:+ nl +:+ api_context +:+ nl +:+ nl +:+
         "Relevant files:" +:+ nl +:+ nl +:+ content_block file_contents)]).


Definition generation_fails (task : string) (project_id : option Z)
    (w : World) (msg : string) : Prop :=
  exists api_context selected w1 file_contents total_size,
    target_api_context w project_id = Ret api_context
    /\ identify_relevant_files task w = (Ret selected, w1)
    /\ selected <> []
    /\ read_relevant selected [] 0 w1 = (Ret (file_contents, total_size), w1)
    /\ file_contents <> []
    /\ claude (w_calls w1) (analysis_request task api_context file_contents w1)
       = Raise msg.

(** What a step may not touch: the files and the rows of the tables that
    carry tickets and proposed changes *)
Definition keeps_files_and_rows (w w' : World) : Prop :=
  w_fs w' = w_fs w
  /\ w_written w' = w_written w
  /\ changes (w_db w') = changes (w_db w)
  /\ tickets (w_db w') = tickets (w_db w)
  /\ projects (w_db w') = projects (w_db w).

(** The state after the request of the third step has been sent, and the
    state after its answer has been recorded *)
Definition asked_world (task api_context : string)
    (file_contents : list (string * string)) (w : World) : World :=
  set_calls (S (w_calls w))
    (set_conversation
       (req_messages (analysis_request task api_context file_contents w)) w).

Definition analysed_world (task api_context : string)
    (file_contents : list (string * string)) (response : string) (w : World)
  : World :=
  let w1 := asked_world task api_context file_contents w in
  let w2 := snd (history_append (mkMessage "assistant" response) w1) in
  let w3 :=
    snd (record_change None (map fst file_contents) "analyze" (take 200 task)
           (Some (take 1000 response)) None w2) in
  snd (save_ai_context response "finding"
         (Some ("Analysis: " +:+ take 50 task +:+ "..."))
         ["auto-generated"; "task-analysis"] w3).

(** A line of the shape "- path: text", and the block of lines that
    follows the marker *)
Definition directive_line (path text : string) : string :=
  "- " +:+ path +:+ ": " +:+ text.

Definition one_line (s : string) : Prop := has_char nl_char s = false.

Definition no_colon (s : string) : Prop := has_char ":" s = false.


(** *** More of [backend/agent.py], [backend/database.py] and
    [backend/routes.py] *)

(** [Path.iterdir()]: the entries of a directory, in the order the
    operating system lists them; [stat().st_mtime] of an entry. *)
Variable iterdir : Tree -> Path -> list Path.
Variable st_mtime : Tree -> Path -> Z.

(** [p.is_dir()] *)
Definition is_dir (t : Tree) (p : Path) : bool :=
  match locate cwd t p with
  | Found _ (Dir _) => true
  | _ => false
  end.

Record FileEntry := mkFileEntry {
  fe_name : string;
  fe_path : string;
  fe_size : Z;
  fe_modified : Z
}.

Inductive ListResult :=
| ListError (msg : string)
| ListOk (files : list FileEntry) (directory : string).

(** [str(e)] of the [ValueError] of [relative_to] *)
Definition relative_to_error (p base : Path) : string :=
  "'" +:+ to_str p +:+ "' is not in the subpath of '" +:+ to_str base +:+
  "' OR one path is relative and the other is absolute.".

(** The loop of [list_files] over the entries of the directory *)
Fixpoint list_items (t : Tree) (items : list Path) (files : list FileEntry)
  : string + list FileEntry :=
  match items with
  | [] => inr files
  | item :: rest =>
      if is_file cwd t item && mem (suffix item) ALLOWED_EXTENSIONS
      then
        match relative_to item TARGET_PROJECT_DIR with
        | None => inl (relative_to_error item TARGET_PROJECT_DIR)
        | Some rel =>
            list_items t rest
              (files ++
               [mkFileEntry (name item) (to_str rel) (st_size_of cwd t item)
                  (st_mtime t item)])
        end
      else list_items t rest files
  end.

(** [UIAgent.list_files] *)
Definition list_files (directory : string) (t : Tree) : ListResult :=
  let target_dir := div TARGET_PROJECT_DIR directory in
  if negb (exists_ cwd t target_dir) || negb (is_dir t target_dir)
  then ListError "Directory not found"
  else
    match list_items t (iterdir t target_dir) [] with
    | inr files => ListOk files directory
    | inl msg => ListError msg
    end.




(** [UIAgent.clear_history] *)
Definition clear_history : M unit :=
  modify (fun w => set_conversation [] w).

(** [result.get('error')] of the other results *)
Definition apply_error (r : ApplyResult) : option string :=
  match r with ApplyError msg => Some msg | Applied _ _ => None end.

Definition reject_error (r : RejectResult) : option string :=
  match r with RejectError msg => Some msg | RejectedOk _ => None end.

Definition propose_error (r : ProposeResult) : option string :=
  match r with ProposeError msg => Some msg | Proposed _ _ _ _ _ => None end.

(** [POST /api/proposed-changes/<id>/accept] and [.../reject]: the HTTP
    status and the body *)
Definition api_accept_proposed_change (change_id : Z) : M (Z * ApplyResult) :=
  result <- apply_proposed_change change_id;;
  if opt_truthy (apply_error result) then ret (400, result)
  else ret (200, result).

Definition api_reject_proposed_change (change_id : Z) : M (Z * RejectResult) :=
  result <- reject_proposed_change change_id;;
  if opt_truthy (reject_error result) then ret (400, result)
  else ret (200, result).

(** [POST /api/tickets/<id>/propose-change] *)
Definition api_propose_change (ticket_id : Z) (file_path instruction : string)
  : M (Z * ProposeResult) :=
  let file_path := strip file_path in
  let instruction := strip instruction in
  if is_empty file_path || is_empty instruction
  then ret (400, ProposeError "file_path and instruction required")
  else
    w <- get_world;;
    match get_ticket_by_id ticket_id w with
    | None => ret (404, ProposeError "Ticket not found")
    | Some _ =>
        result <- propose_file_change file_path instruction (Some ticket_id);;
        if opt_truthy (propose_error result) then ret (400, result)
        else ret (200, result)
    end.



(** [db.update_ticket_status] and [PUT /api/tickets/<id>/status] *)
Definition ticket_status_of (s : string) : option TicketStatus :=
  if String.eqb s "open" then Some Open
  else if String.eqb s "in_progress" then Some InProgress
  else if String.eqb s "resolved" then Some Resolved
  else if String.eqb s "closed" then Some Closed
  else None.

Definition update_ticket_status (ticket_id : Z) (status : TicketStatus)
  : M bool :=
  fun w =>
    update_tickets ticket_id
      (fun t =>
         mkTicket (t_id t) (t_title t) (t_description t) (t_category t)
           status (t_priority t) (t_project_id t) (t_ai_suggestion t)
           (t_ai_suggestion_status t) (t_ai_files_analyzed t) (w_now w))
      w.

Inductive StatusResponse :=
| StatusError (http_status : Z) (msg : string)
| StatusDone (found : bool).

Definition api_update_ticket_status (ticket_id : Z) (status : string)
  : M StatusResponse :=
  match ticket_status_of (strip status) with
  | None => ret (StatusError 400 "Invalid status")
  | Some st =>
      success <- update_ticket_status ticket_id st;;
      ret (StatusDone success)
  end.


(** The request with which [identify_relevant_files] asks for the files of
    a task, given the files it found *)
Definition identify_request (task : string) (all_files : list FileRef)
  : Request :=
  mkRequest 1024
    "You are a helpful assistant that identifies relevant files for a task. Return only valid JSON arrays."
    [mkMessage "user"
       (identify_prompt task (join nl (map file_list_line all_files)))].

(** The request with which [propose_file_change] asks for the new content *)
Definition propose_request (instruction original_content : string) : Request :=
  mkRequest 4096
    "You are a code assistant. Return only the modified file content, nothing else."
    [mkMessage "user" (propose_prompt instruction original_content)].

(** The order of [ORDER BY created_at DESC] *)
Definition newer_first (a b : ProposedChange) : Prop :=
  pc_created_at b <= pc_created_at a.

(** A path that the kernel follows as written: from [cur] on, no component
    of [rest] is [".."] and none names a symbolic link. *)
Fixpoint plain_from (t : Tree) (cur rest : list string) : bool :=
  match rest with
  | [] => true
  | name :: rest' =>
      negb (String.eqb name "..")
      && match t !! (cur ++ [name]) with
         | Some (Symlink _) => false
         | _ => true
         end
      && plain_from t (cur ++ [name]) rest'
  end.

Definition plain (t : Tree) (p : Path) : bool :=
  plain_from t [] (os_parts cwd p).

(** * Proofs *)

(** ** Facts about the file tree *)

Lemma walk_eq (links : nat) (t : Tree) (cur rest : list string) :
  walk links t cur rest =
  match rest with
  | [] =>
      match node_at t cur with
      | Some n => Found cur n
      | None => Broken 2
      end
  | name :: rest' =>
      match node_at t cur with
      | Some (Dir _) =>
          if String.eqb name ".." then walk links t (removelast cur) rest'
          else
            match t !! (cur ++ [name]) with
            | None =>
                match rest' with
                | [] => Absent (cur ++ [name])
                | _ :: _ => Broken 2
                end
            | Some (Symlink target) =>
                match links with
                | O => Broken 40
                | S l =>
                    walk l t (if startswith "/" target then [] else cur)
                      (components target ++ rest')
                end
            | Some _ => walk links t (cur ++ [name]) rest'
            end
      | _ => Broken 20
      end
  end.
Proof. destruct links, rest; reflexivity. Qed.

(** A node that a walk arrives at is the node stored there. *)
Lemma walk_found (links : nat) (t : Tree) :
  forall cur rest q n,
    walk links t cur rest = Found q n -> node_at t q = Some n.
Proof.
  induction links as [|l IHl]; intros cur rest; revert cur;
    induction rest as [|name rest' IHr]; intros cur q n; rewrite walk_eq.
  all: try (destruct (node_at t cur) as [[]|] eqn:E; try discriminate).
  all: try (intros [= <- <-]; assumption).
  all: destruct (String.eqb name ".."); [apply IHr|].
  all: destruct (t !! (cur ++ [name])) as [[]|]; try discriminate; try apply IHr.
  all: try (destruct rest'; discriminate).
  apply IHl.
Qed.


Lemma node_at_refill (t : Tree) (q : list string) (c0 s : string) (p : list string) :
  t !! q = Some (File c0) -> q <> [] ->
  node_at (<[q := File s]> t) p =
  if decide (p = q) then Some (File s) else node_at t p.
Proof.
  intros Hq Hne. unfold node_at. destruct p as [|x p'].
  - destruct (decide ([] = q)); [congruence|reflexivity].
  - destruct (decide (x :: p' = q)) as [->|Hd].
    + apply lookup_insert_eq.
    + apply lookup_insert_ne. congruence.
Qed.

Lemma walk_refill (t : Tree) (q : list string) (c0 s : string) :
  t !! q = Some (File c0) -> q <> [] ->
  forall links cur rest,
    walk links (<[q := File s]> t) cur rest = refill q s (walk links t cur rest).
Proof.
  intros Hq Hne.
  assert (Hlk : forall p, (<[q := File s]> t) !! p =
                          if decide (p = q) then Some (File s) else t !! p).
  { intros p. destruct (decide (p = q)) as [->|Hd].
    - apply lookup_insert_eq.
    - apply lookup_insert_ne. congruence. }
  assert (Hnq : node_at t q = Some (File c0)).
  { destruct q; [congruence|exact Hq]. }
  induction links as [|l IHl]; intros cur rest; revert cur;
    induction rest as [|name rest' IHr]; intros cur;
    rewrite (walk_eq _ (<[q := File s]> t)), (walk_eq _ t);
    rewrite (node_at_refill t q c0 s cur Hq Hne).
  1, 3: destruct (decide (cur = q)) as [->|Hd];
    [ rewrite Hnq; simpl; destruct (decide (q = q)); congruence
    | destruct (node_at t cur); simpl; [|reflexivity];
      destruct (decide (cur = q)); congruence ].
  all: destruct (decide (cur = q)) as [->|Hd]; [rewrite Hnq; reflexivity|].
  all: destruct (node_at t cur) as [[]|]; try reflexivity.
  all: destruct (String.eqb name ".."); [apply IHr|].
  all: rewrite Hlk; destruct (decide (cur ++ [name] = q)) as [->|Hd'];
    [rewrite Hq; apply IHr|].
  all: destruct (t !! (cur ++ [name])) as [[]|]; try apply IHr;
    try reflexivity.
  all: try (destruct rest'; reflexivity).
  apply IHl.
Qed.



Lemma write_text_read_back (t t' : Tree) (p : Path) (s : string) :
  exists_ cwd t p = true ->
  write_text cwd t p s = inr t' ->
  read_text cwd t' p = inr s.
Proof.
  unfold exists_, write_text, read_text, locate.
  destruct (walk max_links t [] (os_parts cwd p)) as [q n| |] eqn:E;
    try discriminate.
  intros _. destruct n as [c0| |]; try discriminate. intros [= <-].
  pose proof (walk_found _ _ _ _ _ _ E) as Hn.
  assert (q <> []) as Hne by (intros ->; discriminate).
  assert (t !! q = Some (File c0)) as Hq by (destruct q; [congruence|exact Hn]).
  rewrite (walk_refill t q c0 s Hq Hne), E. simpl.
  destruct (decide (q = q)); congruence.
Qed.

(** ** Facts about the tables *)

Lemma find_update_changes (id : Z) (f : ProposedChange -> ProposedChange)
    (l : list ProposedChange) :
  (forall c, pc_id (f c) = pc_id c) ->
  List.find (fun c => pc_id c =? id)
    (map (fun c => if pc_id c =? id then f c else c) l)
  = option_map f (List.find (fun c => pc_id c =? id) l).
Proof.
  intros Hf. induction l as [|c l IH]; [reflexivity|]. simpl.
  destruct (pc_id c =? id) eqn:E; simpl.
  - rewrite Hf, E. reflexivity.
  - rewrite E. exact IH.
Qed.

Lemma find_update_changes_other (id id' : Z)
    (f : ProposedChange -> ProposedChange) (l : list ProposedChange) :
  id' <> id ->
  (forall c, pc_id (f c) = pc_id c) ->
  List.find (fun c => pc_id c =? id')
    (map (fun c => if pc_id c =? id then f c else c) l)
  = List.find (fun c => pc_id c =? id') l.
Proof.
  intros Hne Hf. induction l as [|c l IH]; [reflexivity|]. simpl.
  destruct (pc_id c =? id) eqn:E; simpl.
  - rewrite Hf. apply Z.eqb_eq in E.
    destruct (pc_id c =? id') eqn:E'; [apply Z.eqb_eq in E'; lia|exact IH].
  - destruct (pc_id c =? id'); [reflexivity|exact IH].
Qed.

Lemma find_some_id (id : Z) (l : list ProposedChange) (c : ProposedChange) :
  List.find (fun c => pc_id c =? id) l = Some c -> pc_id c = id.
Proof.
  intros H. apply List.find_some in H as [_ H]. apply Z.eqb_eq. exact H.
Qed.

(** ** [apply_proposed_change] and [reject_proposed_change], case by case *)

Lemma apply_proposed_change_eq (change_id : Z) (w : World) :
  apply_proposed_change change_id w =
  match get_proposed_change change_id w with
  | None => (Ret (ApplyError "Proposed change not found"), w)
  | Some change =>
      if negb (is_pending (pc_status change))
      then (Ret (ApplyError ("Change already " +:+ status_str (pc_status change))), w)
      else if negb (validate_target_path (w_fs w) (target_of change))
      then (Ret (ApplyError "Safety check failed on write"), w)
      else
        match write_text cwd (w_fs w) (target_of change)
                (pc_proposed_content change) with
        | inl msg => (Ret (ApplyError msg), w)
        | inr t' =>
            (Ret (Applied change_id (pc_file_path change)),
             accepted_world change t' w)
        end
  end.
Proof.
  unfold apply_proposed_change, try_except, bind, get_world, ret.
  destruct (get_proposed_change change_id w) as [change|] eqn:G; [|reflexivity].
  destruct (negb (is_pending (pc_status change))); [reflexivity|].
  fold (target_of change).
  destruct (negb (validate_target_path (w_fs w) (target_of change)));
    [reflexivity|].
  unfold write_text_m, accepted_world.
  destruct (write_text cwd (w_fs w) (target_of change) (pc_proposed_content change));
    [reflexivity|].
  unfold get_proposed_change in G. apply find_some_id in G. subst change_id.
  reflexivity.
Qed.

Lemma reject_proposed_change_eq (change_id : Z) (w : World) :
  reject_proposed_change change_id w =
  match get_proposed_change change_id w with
  | None => (Ret (RejectError "Proposed change not found"), w)
  | Some change =>
      if negb (is_pending (pc_status change))
      then (Ret (RejectError ("Change already " +:+ status_str (pc_status change))), w)
      else (Ret (RejectedOk change_id),
            snd (update_proposed_change_status change_id Rejected w))
  end.
Proof.
  unfold reject_proposed_change, try_except, bind, get_world, ret.
  destruct (get_proposed_change change_id w) as [change|]; [|reflexivity].
  destruct (negb (is_pending (pc_status change))); reflexivity.
Qed.

Lemma get_accepted_world (change : ProposedChange) (t' : Tree) (w : World) :
  get_proposed_change (pc_id change) w = Some change ->
  get_proposed_change (pc_id change) (accepted_world change t' w)
  = Some (with_status Accepted (w_now w) change).
Proof.
  intros G. unfold get_proposed_change, accepted_world in *. simpl.
  rewrite find_update_changes by reflexivity. rewrite G. reflexivity.
Qed.


Lemma os_parts_absolute (p : Path) : os_parts cwd (absolute cwd p) = os_parts cwd p.
Proof.
  unfold os_parts, absolute. destruct (is_absolute p) eqn:E.
  - rewrite E. reflexivity.
  - reflexivity.
Qed.

Lemma exists_absolute (t : Tree) (p : Path) :
  exists_ cwd t (absolute cwd p) = exists_ cwd t p.
Proof. unfold exists_, locate. rewrite os_parts_absolute. reflexivity. Qed.

Lemma st_size_of_absolute (t : Tree) (p : Path) :
  st_size_of cwd t (absolute cwd p) = st_size_of cwd t p.
Proof. unfold st_size_of, locate. rewrite os_parts_absolute. reflexivity. Qed.

(** What the guard checks, condition by condition *)
Lemma validate_target_path_true (t : Tree) (p : Path) :
  validate_target_path t p = true <->
  (exists rel, relative_to (absolute cwd p) TARGET_PROJECT_DIR = Some rel)
  /\ exists_ cwd t p = true
  /\ mem (suffix (absolute cwd p)) ALLOWED_EXTENSIONS = true
  /\ st_size_of cwd t p <= MAX_FILE_SIZE.
Proof.
  unfold validate_target_path.
  rewrite exists_absolute, st_size_of_absolute.
  destruct (relative_to (absolute cwd p) TARGET_PROJECT_DIR) as [rel|].
  2: { split; [discriminate|]. intros [[rel H] _]. discriminate. }
  destruct (exists_ cwd t p); cbn [negb].
  2: { split; [discriminate|]. intros (_ & H & _). discriminate. }
  destruct (mem (suffix (absolute cwd p)) ALLOWED_EXTENSIONS); cbn [negb].
  2: { split; [discriminate|]. intros (_ & _ & H & _). discriminate. }
  destruct (Z.gtb_spec (st_size_of cwd t p) MAX_FILE_SIZE) as [Hgt|Hle].
  - split; [discriminate|]. intros (_ & _ & _ & H). lia.
  - split; [|reflexivity]. intros _. repeat split; eauto.
Qed.


Lemma next_id_above (ids : list Z) (x : Z) : In x ids -> x < next_id ids.
Proof.
  unfold next_id. induction ids as [|y ids IH]; [intros []|].
  simpl. intros [->|H]; [lia|]. specialize (IH H). lia.
Qed.

Lemma find_fresh (rows : list ProposedChange) (row : ProposedChange) :
  pc_id row = next_id (map pc_id rows) ->
  List.find (fun c => pc_id c =? pc_id row) (rows ++ [row]) = Some row.
Proof.
  intros Hid.
  assert (H : forall c, In c rows -> (pc_id c =? pc_id row) = false).
  { intros c Hc. apply Z.eqb_neq. rewrite Hid.
    pose proof (next_id_above (map pc_id rows) (pc_id c) (in_map _ _ _ Hc)). lia. }
  clear Hid. induction rows as [|c rows IH]; simpl.
  - rewrite Z.eqb_refl. reflexivity.
  - rewrite (H c (or_introl eq_refl)). apply IH. intros c' Hc'. apply H. right. exact Hc'.
Qed.

Lemma read_file_eq (file_path : string) (w : World) :
  read_file file_path w =
  (Ret
     (let target_file := div TARGET_PROJECT_DIR file_path in
      if negb (validate_target_path (w_fs w) target_file)
      then ReadError "File access denied - safety check failed"
      else if negb (exists_ cwd (w_fs w) target_file)
      then ReadError ("File not found: " +:+ file_path)
      else
        match read_text cwd (w_fs w) target_file with
        | inr content =>
            ReadOk file_path content (str_len content) (suffix target_file)
        | inl msg => ReadError msg
        end),
   w).
Proof.
  unfold read_file, try_except, bind, get_world, ret, read_text_m. cbv zeta.
  destruct (negb (validate_target_path _ _)); [reflexivity|].
  destruct (negb (exists_ _ _ _)); [reflexivity|].
  destruct (read_text _ _ _); reflexivity.
Qed.


(** C2. Resolving a pending proposed change as accepted (the guard lets
    the path through and the write does not raise) writes the proposed
    content, unchanged, to the file behind its path and turns the status of
    the row to accepted; a second call on the same row, to accept or to
    reject, returns the error naming the status it has and changes nothing:
    no further write, no change of any table. *)
Theorem accept_writes_once_then_conflicts
    (w : World) (change_id : Z) (change : ProposedChange) (t' : Tree) :
  get_proposed_change change_id w = Some change ->
  pc_status change = Pending ->
  validate_target_path (w_fs w) (target_of change) = true ->
  write_text cwd (w_fs w) (target_of change) (pc_proposed_content change)
    = inr t' ->
  forall r w1,
    apply_proposed_change change_id w = (r, w1) ->
    r = Ret (Applied change_id (pc_file_path change))
    /\ read_text cwd (w_fs w1) (target_of change)
       = inr (pc_proposed_content change)
    /\ w_written w1
       = w_written w ++ [(target_of change, pc_proposed_content change)]
    /\ (exists row,
          get_proposed_change change_id w1 = Some row
          /\ pc_status row = Accepted)
    /\ apply_proposed_change change_id w1
       = (Ret (ApplyError "Change already accepted"), w1)
    /\ reject_proposed_change change_id w1
       = (Ret (RejectError "Change already accepted"), w1).
Proof.
  intros G Hp Hv Hw r w1 Ha.
  rewrite apply_proposed_change_eq, G, Hp, Hv, Hw in Ha. simpl in Ha.
  injection Ha as <- <-.
  pose proof (find_some_id _ _ _ G) as Hid. subst change_id.
  pose proof (get_accepted_world change t' w G) as G1.
  split; [reflexivity|]. split.
  { apply (write_text_read_back (w_fs w)); [|exact Hw].
    apply validate_target_path_true in Hv. exact (proj1 (proj2 Hv)). }
  split; [reflexivity|]. split.
  { eexists. split; [exact G1|reflexivity]. }
  split.
  - rewrite apply_proposed_change_eq, G1. reflexivity.
  - rewrite reject_proposed_change_eq, G1. reflexivity.
Qed.

(** C3. When a pending proposed change is accepted, the guard is asked
    about the file tree as it is at that moment, and the write comes before
    the status is stored: when the guard refuses, or the write raises, the
    caller gets the error and nothing has changed (the row is still
    pending); only when both go through is the row accepted. *)
Theorem accept_guards_then_writes_then_commits
    (w : World) (change_id : Z) (change : ProposedChange) :
  get_proposed_change change_id w = Some change ->
  pc_status change = Pending ->
  forall r w1,
    apply_proposed_change change_id w = (r, w1) ->
    match validate_target_path (w_fs w) (target_of change),
          write_text cwd (w_fs w) (target_of change)
            (pc_proposed_content change) with
    | false, _ =>
        r = Ret (ApplyError "Safety check failed on write") /\ w1 = w
    | true, inl msg => r = Ret (ApplyError msg) /\ w1 = w
    | true, inr t' =>
        r = Ret (Applied change_id (pc_file_path change))
        /\ w_fs w1 = t'
        /\ exists row,
             get_proposed_change change_id w1 = Some row
             /\ pc_status row = Accepted
    end
    /\ ((exists msg, r = Ret (ApplyError msg)) ->
        get_proposed_change change_id w1 = Some change
        /\ pc_status change = Pending
        /\ w_fs w1 = w_fs w
        /\ w_written w1 = w_written w).
Proof.
  intros G Hp r w1 Ha.
  rewrite apply_proposed_change_eq, G, Hp in Ha. simpl in Ha.
  destruct (validate_target_path (w_fs w) (target_of change)); simpl in Ha.
  2: { injection Ha as <- <-. repeat split; auto. }
  destruct (write_text cwd (w_fs w) (target_of change) (pc_proposed_content change))
    as [msg|t'].
  - injection Ha as <- <-. repeat split; auto.
  - injection Ha as <- <-.
    pose proof (find_some_id _ _ _ G) as Hid. subst change_id.
    split.
    + split; [reflexivity|]. split; [reflexivity|].
      eexists. split; [apply get_accepted_world; exact G|reflexivity].
    + intros [msg [=]].
Qed.


Lemma create_proposed_change_eq (file_path original_content proposed_content
    change_description : string) (ticket_id : option Z) (w : World) :
  create_proposed_change file_path original_content proposed_content
    change_description ticket_id w =
  let change_id := next_id (map pc_id (changes (w_db w))) in
  let row := mkChange change_id ticket_id file_path original_content
               proposed_content change_description Pending (w_now w) None in
  (Ret change_id, set_db (set_changes (changes (w_db w) ++ [row]) (w_db w)) w).
Proof. reflexivity. Qed.

Lemma read_file_state (file_path : string) (w : World) :
  exists r, read_file file_path w = (Ret r, w).
Proof. rewrite read_file_eq. eexists. reflexivity. Qed.

(** [propose_file_change] reads, asks for the new content and stores one
    row; the file tree is the one it started with. *)
Lemma propose_file_change_files (file_path instruction : string)
    (ticket_id : option Z) (w : World) :
  exists r w1,
    propose_file_change file_path instruction ticket_id w = (Ret r, w1)
    /\ w_fs w1 = w_fs w /\ w_written w1 = w_written w.
Proof.
  unfold propose_file_change, try_except, bind.
  destruct (read_file_state file_path w) as [[msg|p c sz e] ->].
  { eexists _, _. split; [reflexivity|]. split; reflexivity. }
  unfold messages_create.
  destruct (claude (w_calls w) _) as [proposed|msg].
  - rewrite create_proposed_change_eq. cbv zeta. unfold ret.
    eexists _, _. split; [reflexivity|]. split; reflexivity.
  - unfold ret. eexists _, _. split; [reflexivity|]. split; reflexivity.
Qed.

(** C4. Of the operations on proposed changes, only accepting touches the
    files.  Creating a proposed change stores a pending row and leaves the
    file tree alone whatever the content is, and does not look at the tree
    either; the same holds for rejecting one.  Proposing a change through
    the agent reads the file and writes nothing. *)
Theorem create_and_reject_leave_files_alone :
  (forall (file_path original_content proposed_content change_description
             : string) (ticket_id : option Z) (w : World),
      exists change_id w1 row,
        create_proposed_change file_path original_content proposed_content
          change_description ticket_id w = (Ret change_id, w1)
        /\ w_fs w1 = w_fs w
        /\ w_written w1 = w_written w
        /\ get_proposed_change change_id w1 = Some row
        /\ pc_status row = Pending
        /\ pc_file_path row = file_path
        /\ pc_proposed_content row = proposed_content
        /\ forall t,
             create_proposed_change file_path original_content
               proposed_content change_description ticket_id (set_fs t w)
             = (Ret change_id, set_fs t w1))
  /\ (forall (change_id : Z) (w : World),
        exists r w1,
          reject_proposed_change change_id w = (Ret r, w1)
          /\ w_fs w1 = w_fs w
          /\ w_written w1 = w_written w
          /\ forall t,
               reject_proposed_change change_id (set_fs t w)
               = (Ret r, set_fs t w1))
  /\ (forall (file_path instruction : string) (ticket_id : option Z)
             (w : World),
        exists r w1,
          propose_file_change file_path instruction ticket_id w = (Ret r, w1)
          /\ w_fs w1 = w_fs w
          /\ w_written w1 = w_written w).
Proof.
  split; [|split].
  - intros. rewrite create_proposed_change_eq. cbv zeta.
    eexists _, _, _. split; [reflexivity|].
    split; [reflexivity|]. split; [reflexivity|]. split.
    { unfold get_proposed_change. simpl.
      match goal with |- List.find _ (_ ++ [?r]) = _ => apply (find_fresh _ r) end.
      reflexivity. }
    repeat split; reflexivity.
  - intros. rewrite reject_proposed_change_eq.
    destruct (get_proposed_change change_id w) as [change|] eqn:G.
    2: { eexists _, _. split; [reflexivity|]. repeat split.
         intros t. rewrite reject_proposed_change_eq.
         unfold get_proposed_change in *. simpl. rewrite G. reflexivity. }
    destruct (negb (is_pending (pc_status change))) eqn:P.
    + eexists _, _. split; [reflexivity|]. repeat split.
      intros t. rewrite reject_proposed_change_eq.
      unfold get_proposed_change in *. simpl. rewrite G, P. reflexivity.
    + eexists _, _. split; [reflexivity|]. repeat split.
      intros t. rewrite reject_proposed_change_eq.
      unfold get_proposed_change in *. simpl. rewrite G, P. reflexivity.
  - intros. apply propose_file_change_files.
Qed.


(** ** The loop of the accept action *)

Lemma accept_changes_cons (change : ProposedChange)
    (rest : list ProposedChange) (applied : list string) (w : World) :
  accept_changes (change :: rest) applied w =
  if is_pending (pc_status change)
  then
    match apply_proposed_change (pc_id change) w with
    | (Ret (Applied _ _), w') =>
        accept_changes rest (applied ++ [pc_file_path change]) w'
    | (Ret (ApplyError _), w') => accept_changes rest applied w'
    | (Raise msg, w') => (Raise msg, w')
    end
  else accept_changes rest applied w.
Proof.
  simpl. destruct (is_pending (pc_status change)); [|reflexivity].
  unfold bind. destruct (apply_proposed_change (pc_id change) w) as [[[]|] w'];
    reflexivity.
Qed.

Lemma accept_changes_skips (l : list ProposedChange) :
  forall applied w,
    accept_changes l applied w
    = accept_changes (List.filter (fun c => is_pending (pc_status c)) l) applied w.
Proof.
  induction l as [|c l IH]; intros applied w; [reflexivity|].
  cbn [List.filter]. destruct (is_pending (pc_status c)) eqn:P.
  - rewrite !accept_changes_cons, P.
    destruct (apply_proposed_change (pc_id c) w) as [[[]|] w']; auto.
  - rewrite accept_changes_cons, P. apply IH.
Qed.

(** One turn of the loop on a row that is pending in the table *)
Lemma apply_turn (c : ProposedChange) (w : World) :
  get_proposed_change (pc_id c) w = Some c ->
  is_pending (pc_status c) = true ->
  (apply_proposed_change (pc_id c) w
     = (Ret (Applied (pc_id c) (pc_file_path c)),
        accepted_world c
          (snd (apply_proposed_change (pc_id c) w)).(w_fs) w)
   /\ w_written (snd (apply_proposed_change (pc_id c) w))
      = w_written w ++ [write_of c])
  \/ (exists msg,
        apply_proposed_change (pc_id c) w = (Ret (ApplyError msg), w)).
Proof.
  intros G P. rewrite apply_proposed_change_eq, G, P. cbn [negb].
  destruct (negb (validate_target_path (w_fs w) (target_of c))).
  { right. eexists. reflexivity. }
  destruct (write_text cwd (w_fs w) (target_of c) (pc_proposed_content c))
    as [msg|t'].
  { right. eexists. reflexivity. }
  left. split; reflexivity.
Qed.

Lemma accepted_world_other (c : ProposedChange) (t' : Tree) (w : World) (id : Z) :
  id <> pc_id c ->
  get_proposed_change id (accepted_world c t' w) = get_proposed_change id w.
Proof.
  intros Hne. unfold get_proposed_change, accepted_world. simpl.
  apply find_update_changes_other; [exact Hne|reflexivity].
Qed.

Lemma accepted_world_tickets (c : ProposedChange) (t' : Tree) (w : World) :
  tickets (w_db (accepted_world c t' w)) = tickets (w_db w).
Proof. reflexivity. Qed.

Lemma accepted_in_accepted_world (c : ProposedChange) (t' : Tree) (w : World) :
  get_proposed_change (pc_id c) w = Some c ->
  accepted_in (accepted_world c t' w) (pc_id c) = true.
Proof.
  intros G. unfold accepted_in. rewrite (get_accepted_world c t' w G). reflexivity.
Qed.

Lemma pending_not_accepted_in (c : ProposedChange) (w : World) :
  get_proposed_change (pc_id c) w = Some c ->
  is_pending (pc_status c) = true ->
  accepted_in w (pc_id c) = false.
Proof.
  intros G P. unfold accepted_in. rewrite G.
  destruct (pc_status c); [reflexivity|discriminate|reflexivity].
Qed.

Lemma accepted_in_ext (w w' : World) (id : Z) :
  get_proposed_change id w' = get_proposed_change id w ->
  accepted_in w' id = accepted_in w id.
Proof. unfold accepted_in. intros ->. reflexivity. Qed.

(** The loop on rows that are pending in the table and have distinct ids:
    what it returns and what it leaves behind *)
Lemma accept_changes_spec (l : list ProposedChange) :
  forall (applied : list string) (w : World),
    List.NoDup (map pc_id l) ->
    (forall c, In c l -> get_proposed_change (pc_id c) w = Some c) ->
    (forall c, In c l -> is_pending (pc_status c) = true) ->
    exists w1,
      let done := List.filter (fun c => accepted_in w1 (pc_id c)) l in
      accept_changes l applied w = (Ret (applied ++ map pc_file_path done), w1)
      /\ w_written w1 = w_written w ++ map write_of done
      /\ (forall id, ~ In id (map pc_id l) ->
            get_proposed_change id w1 = get_proposed_change id w)
      /\ (forall c, In c l -> accepted_in w1 (pc_id c) = false ->
            get_proposed_change (pc_id c) w1 = Some c)
      /\ tickets (w_db w1) = tickets (w_db w).
Proof.
  induction l as [|c l IH]; intros applied w Hnd Hget Hpen.
  { exists w. cbn. rewrite !app_nil_r. repeat split; auto. }
  inversion Hnd as [|? ? Hnotin Hnd']; subst.
  assert (Gc : get_proposed_change (pc_id c) w = Some c)
    by (apply Hget; left; reflexivity).
  assert (Pc : is_pending (pc_status c) = true)
    by (apply Hpen; left; reflexivity).
  rewrite accept_changes_cons, Pc.
  destruct (apply_turn c w Gc Pc) as [[Ha Hwr]|[msg Ha]].
  - (* the row is applied *)
    rewrite Ha in Hwr |- *. cbn [snd] in Hwr.
    set (wa := accepted_world c _ w) in *.
    destruct (IH (applied ++ [pc_file_path c]) wa Hnd') as (w1 & H1 & H2 & H3 & H4 & H5).
    { intros c' Hc'. unfold wa. rewrite accepted_world_other.
      - apply Hget. right. exact Hc'.
      - intros E. apply Hnotin. rewrite <- E. apply in_map. exact Hc'. }
    { intros c' Hc'. apply Hpen. right. exact Hc'. }
    exists w1. cbv zeta in *.
    assert (Acc : accepted_in w1 (pc_id c) = true).
    { rewrite (accepted_in_ext wa w1) by (apply H3; exact Hnotin).
      apply accepted_in_accepted_world. exact Gc. }
    cbn [List.filter]. rewrite Acc. cbn [map].
    split; [rewrite H1, <- app_assoc; reflexivity|].
    split; [rewrite H2, Hwr, <- app_assoc; reflexivity|].
    split.
    { intros id Hid. rewrite H3.
      - unfold wa. apply accepted_world_other. intros E. apply Hid. left. auto.
      - intros Hin. apply Hid. right. exact Hin. }
    split.
    { intros c' [<-|Hc'] Hf; [congruence|]. apply H4; assumption. }
    rewrite H5. reflexivity.
  - (* the row is left as it is *)
    rewrite Ha.
    destruct (IH applied w Hnd') as (w1 & H1 & H2 & H3 & H4 & H5).
    { intros c' Hc'. apply Hget. right. exact Hc'. }
    { intros c' Hc'. apply Hpen. right. exact Hc'. }
    exists w1. cbv zeta in *.
    assert (Gc1 : get_proposed_change (pc_id c) w1 = Some c).
    { rewrite H3; [exact Gc|exact Hnotin]. }
    assert (Acc : accepted_in w1 (pc_id c) = false).
    { apply pending_not_accepted_in; assumption. }
    cbn [List.filter]. rewrite Acc.
    split; [exact H1|]. split; [exact H2|]. split.
    { intros id Hid. apply H3. intros Hin. apply Hid. right. exact Hin. }
    split.
    { intros c' [<-|Hc'] Hf; [exact Gc1|]. apply H4; assumption. }
    exact H5.
Qed.




(** ** The rows read at the start of a ticket action *)

Lemma in_insert_desc (c x : ProposedChange) (l : list ProposedChange) :
  In x (insert_desc c l) <-> x = c \/ In x l.
Proof.
  induction l as [|y l IH]; simpl.
  - intuition.
  - destruct (pc_created_at y <? pc_created_at c); simpl; [intuition|].
    rewrite IH. intuition.
Qed.

Lemma in_order_by_created_desc (x : ProposedChange) (l : list ProposedChange) :
  In x (order_by_created_desc l) <-> In x l.
Proof.
  induction l as [|c l IH]; simpl; [reflexivity|].
  unfold order_by_created_desc in *. simpl.
  rewrite in_insert_desc, IH. intuition.
Qed.

Lemma nodup_insert_desc (c : ProposedChange) (l : list ProposedChange) :
  List.NoDup (map pc_id l) -> ~ In (pc_id c) (map pc_id l) ->
  List.NoDup (map pc_id (insert_desc c l)).
Proof.
  induction l as [|y l IH]; simpl; intros Hnd Hc.
  - constructor; [intros []|constructor].
  - destruct (pc_created_at y <? pc_created_at c); simpl.
    + constructor; assumption.
    + inversion Hnd as [|? ? Hy Hnd']; subst. constructor.
      * intros Hin. apply in_map_iff in Hin as (x & Hx & Hin).
        apply in_insert_desc in Hin as [->|Hin].
        -- apply Hc. left. symmetry. exact Hx.
        -- apply Hy. rewrite <- Hx. apply in_map. exact Hin.
      * apply IH; [exact Hnd'|]. intros Hin. apply Hc. right. exact Hin.
Qed.

Lemma nodup_order_by_created_desc (l : list ProposedChange) :
  List.NoDup (map pc_id l) ->
  List.NoDup (map pc_id (order_by_created_desc l)).
Proof.
  induction l as [|c l IH]; simpl; intros Hnd; [constructor|].
  inversion Hnd as [|? ? Hc Hnd']; subst.
  apply nodup_insert_desc; [apply IH; exact Hnd'|].
  intros Hin. apply Hc. apply in_map_iff in Hin as (x & Hx & Hin).
  apply (proj1 (in_order_by_created_desc x l)) in Hin.
  rewrite <- Hx. apply in_map. exact Hin.
Qed.

Lemma nodup_filter_ids (f : ProposedChange -> bool) (l : list ProposedChange) :
  List.NoDup (map pc_id l) -> List.NoDup (map pc_id (List.filter f l)).
Proof.
  induction l as [|c l IH]; simpl; intros Hnd; [constructor|].
  inversion Hnd as [|? ? Hc Hnd']; subst.
  destruct (f c); simpl; [|apply IH; exact Hnd'].
  constructor; [|apply IH; exact Hnd'].
  intros Hin. apply Hc. apply in_map_iff in Hin as (x & Hx & Hin).
  apply List.filter_In in Hin as [Hin _]. rewrite <- Hx. apply in_map. exact Hin.
Qed.

Lemma find_by_id (l : list ProposedChange) (c : ProposedChange) :
  List.NoDup (map pc_id l) -> In c l ->
  List.find (fun x => pc_id x =? pc_id c) l = Some c.
Proof.
  induction l as [|y l IH]; simpl; intros Hnd Hin; [destruct Hin|].
  inversion Hnd as [|? ? Hy Hnd']; subst.
  destruct Hin as [->|Hin].
  - rewrite Z.eqb_refl. reflexivity.
  - destruct (pc_id y =? pc_id c) eqn:E; [|apply IH; assumption].
    apply Z.eqb_eq in E. exfalso. apply Hy. rewrite E. apply in_map. exact Hin.
Qed.


Lemma api_ticket_ai_action_accept_eq (ticket_id : Z) (message : string) (w : World) :
  api_ticket_ai_action ticket_id "accept" message w =
  match get_ticket_by_id ticket_id w with
  | None => (Ret (ActionError 404 "Ticket not found"), w)
  | Some _ =>
      (applied_changes <-
         accept_changes (get_proposed_changes_for_ticket ticket_id w) [];;
       update_ticket_ai_status ticket_id Accepted;;
       ret (ActionAccepted applied_changes)) w
  end.
Proof.
  unfold api_ticket_ai_action.
  change (strip "accept") with "accept".
  change (negb (mem "accept" ["accept"; "reject"; "probe"])) with false.
  cbv iota. unfold bind at 1. unfold get_world.
  destruct (get_ticket_by_id ticket_id w); reflexivity.
Qed.

Lemma find_update_tickets (id : Z) (f : Ticket -> Ticket) (l : list Ticket) :
  (forall t, t_id (f t) = t_id t) ->
  List.find (fun t => t_id t =? id)
    (map (fun t => if t_id t =? id then f t else t) l)
  = option_map f (List.find (fun t => t_id t =? id) l).
Proof.
  intros Hf. induction l as [|t l IH]; [reflexivity|]. simpl.
  destruct (t_id t =? id) eqn:E; simpl.
  - rewrite Hf, E. reflexivity.
  - rewrite E. exact IH.
Qed.



(** ** The two-step task *)

Lemma keeps_refl (w : World) : keeps_files_and_rows w w.
Proof. repeat split. Qed.

Lemma keeps_trans (w1 w2 w3 : World) :
  keeps_files_and_rows w1 w2 -> keeps_files_and_rows w2 w3 ->
  keeps_files_and_rows w1 w3.
Proof.
  unfold keeps_files_and_rows.
  intros (A1 & A2 & A3 & A4 & A5) (B1 & B2 & B3 & B4 & B5).
  repeat split; congruence.
Qed.

Lemma identify_relevant_files_state (task : string) (w : World) :
  exists selected w1,
    identify_relevant_files task w = (Ret selected, w1)
    /\ keeps_files_and_rows w w1
    /\ w_conversation w1 = w_conversation w.
Proof.
  unfold identify_relevant_files, try_except, bind, get_world, ret, raise,
    messages_create.
  destruct (get_all_files_recursive "." (w_fs w)) as [|f fs].
  { eexists _, _. split; [reflexivity|]. split; [apply keeps_refl|reflexivity]. }
  destruct (claude (w_calls w) _) as [response|msg].
  2: { eexists _, _. split; [reflexivity|]. split; repeat split. }
  destruct (search_array (strip response)) as [json_match|].
  2: { eexists _, _. split; [reflexivity|]. split; repeat split. }
  destruct (json_loads json_match) as [relevant|];
    eexists _, _; (split; [reflexivity|]); split; repeat split.
Qed.

Lemma readable_fs (w w' : World) (file_path : string) :
  w_fs w' = w_fs w -> readable w' file_path = readable w file_path.
Proof.
  intros E. unfold readable. rewrite !read_file_eq. cbn [fst]. rewrite E.
  reflexivity.
Qed.

Lemma map_fst_dict_set (k v : string) (d : list (string * string)) :
  map fst (dict_set k v d) = add_key k (map fst d).
Proof.
  unfold add_key. induction d as [|[k' v'] d IH]; [reflexivity|].
  cbn [dict_set map fst mem existsb].
  destruct (String.eqb k' k) eqn:E.
  - apply String.eqb_eq in E. subst k'. rewrite String.eqb_refl. reflexivity.
  - rewrite String.eqb_sym, E. cbn [orb map fst]. rewrite IH.
    fold (mem k (map fst d)). destruct (mem k (map fst d)); reflexivity.
Qed.

Lemma read_relevant_spec (relevant : list string) :
  forall (file_contents : list (string * string)) (total : Z) (w : World),
    exists file_contents' total',
      read_relevant relevant file_contents total w
      = (Ret (file_contents', total'), w)
      /\ map fst file_contents'
         = fold_left (fun ks k => add_key k ks)
             (List.filter (readable w) relevant) (map fst file_contents).
Proof.
  induction relevant as [|file_path rest IH]; intros fc total w.
  { eexists _, _. split; reflexivity. }
  cbn [read_relevant List.filter]. unfold bind, readable.
  destruct (read_file_state file_path w) as [r Hr]. rewrite Hr. cbn [fst].
  destruct r as [msg|p c sz e].
  - apply IH.
  - destruct (IH (dict_set file_path c fc) (total + str_len c) w)
      as (fc' & total' & H1 & H2).
    eexists _, _. split; [exact H1|].
    rewrite H2, map_fst_dict_set. reflexivity.
Qed.

Lemma process_task_two_step_eq (task : string) (project_id : option Z)
    (w : World) :
  process_task_two_step task project_id w =
  match target_api_context w project_id with
  | Raise msg => (Ret (TaskError msg), w)
  | Ret api_context =>
      match identify_relevant_files task w with
      | (Raise msg, w1) => (Ret (TaskError msg), w1)
      | (Ret [], w1) =>
          (Ret (TaskError "No relevant files found for this task"), w1)
      | (Ret (f :: fs), w1) =>
          match read_relevant (f :: fs) [] 0 w1 with
          | (Raise msg, w2) => (Ret (TaskError msg), w2)
          | (Ret ([], _), w2) =>
              (Ret (TaskError "Could not read any of the relevant files"), w2)
          | (Ret (kv :: kvs, total_size), w2) =>
              match claude (w_calls w2)
                      (analysis_request task api_context (kv :: kvs) w2) with
              | Raise msg =>
                  (Ret (TaskError msg),
                   asked_world task api_context (kv :: kvs) w2)
              | Ret response =>
                  (Ret (TaskSuccess (map fst (kv :: kvs))
                          (Z.of_nat (length (kv :: kvs))) total_size response),
                   analysed_world task api_context (kv :: kvs) response w2)
              end
          end
      end
  end.
Proof.
  unfold process_task_two_step, try_except, bind, get_target_api_context.
  destruct (target_api_context w project_id) as [api_context|msg];
    [|reflexivity].
  destruct (identify_relevant_files task w) as [[[|f fs]|msg] w1];
    try reflexivity.
  destruct (read_relevant (f :: fs) [] 0 w1) as [[[[|kv kvs] total]|msg] w2];
    try reflexivity.
  cbn [fst snd]. unfold history_append, modify, get_world, messages_create.
  cbn [w_conversation set_conversation w_calls].
  unfold analysis_request, analysed_world, asked_world.
  cbn [req_messages].
  destruct (claude _ _) as [response|msg]; reflexivity.
Qed.


(** ** ai-resolve *)


Lemma api_ticket_ai_resolve_eq (ticket_id : Z) (w : World) :
  api_ticket_ai_resolve ticket_id w =
  match get_ticket_by_id ticket_id w with
  | None => (Ret (ResolveError 404 "Ticket not found"), w)
  | Some ticket =>
      match process_task_two_step (ticket_task w ticket) (t_project_id ticket) w with
      | (Raise msg, w1) => (Raise msg, w1)
      | (Ret result, w1) =>
          if opt_truthy (result_error result)
          then (Ret (ResolveError 400 (py_str_opt (result_error result))), w1)
          else
            (update_ticket_ai_suggestion ticket_id (result_response result)
               (result_files_analyzed result);;
             proposed_changes <-
               (if contains MARKER (result_response result)
                then propose_lines ticket (result_files_analyzed result)
                       (directive_lines (result_response result)) []
                else ret []);;
             ret (ResolveOk (result_response result)
                    (result_files_analyzed result) proposed_changes)) w1
      end
  end.
Proof.
  unfold api_ticket_ai_resolve. unfold bind at 1. unfold get_world.
  destruct (get_ticket_by_id ticket_id w) as [ticket|]; [|reflexivity].
  cbv zeta. fold (ticket_task w ticket). unfold bind at 1.
  destruct (process_task_two_step _ _ w) as [[result|msg] w1]; [|reflexivity].
  destruct (opt_truthy (result_error result)); reflexivity.
Qed.



(** What [propose_file_change] does to [proposed_changes]: nothing, or one
    pending row more, for the path and the ticket it was called with. *)
Lemma propose_file_change_rows (file_path instruction : string)
    (ticket_id : option Z) (w : World) :
  exists r w1,
    propose_file_change file_path instruction ticket_id w = (Ret r, w1)
    /\ tickets (w_db w1) = tickets (w_db w)
    /\ w_fs w1 = w_fs w
    /\ match r with
       | ProposeError _ => changes (w_db w1) = changes (w_db w)
       | Proposed change_id _ _ _ _ =>
           exists row,
             changes (w_db w1) = changes (w_db w) ++ [row]
             /\ pc_id row = change_id
             /\ pc_file_path row = file_path
             /\ pc_ticket_id row = ticket_id
             /\ pc_change_description row = instruction
             /\ pc_status row = Pending
       end.
Proof.
  unfold propose_file_change, try_except, bind.
  destruct (read_file_state file_path w) as [[msg|p c sz e] ->].
  { eexists _, _. split; [reflexivity|]. repeat split. }
  unfold messages_create.
  destruct (claude (w_calls w) _) as [proposed|msg].
  - rewrite create_proposed_change_eq. cbv zeta. unfold ret.
    eexists _, _. split; [reflexivity|]. split; [reflexivity|].
    split; [reflexivity|]. eexists. split; [reflexivity|]. repeat split.
  - unfold ret. eexists _, _. split; [reflexivity|]. repeat split.
Qed.

Lemma in_directives_cons (title line : string) (rest : list string) (x : string) :
  In x (map fst (omap (directive_of_line title) rest)) ->
  In x (map fst (omap (directive_of_line title) (line :: rest))).
Proof.
  intros H. simpl. destruct (directive_of_line title line); [right|]; exact H.
Qed.

Lemma in_directives_head (title line : string) (rest : list string)
    (file_path instruction : string) :
  directive_of_line title line = Some (file_path, instruction) ->
  In file_path (map fst (omap (directive_of_line title) (line :: rest))).
Proof. intros H. simpl. rewrite H. left. reflexivity. Qed.

Lemma propose_lines_spec (ticket : Ticket) (files_analyzed : list string)
    (lines : list string) :
  forall (proposed : list (string * Z)) (w : World),
    exists new w1,
      propose_lines ticket files_analyzed lines proposed w
      = (Ret (proposed ++ map (fun c => (pc_file_path c, pc_id c)) new), w1)
      /\ changes (w_db w1) = changes (w_db w) ++ new
      /\ tickets (w_db w1) = tickets (w_db w)
      /\ w_fs w1 = w_fs w
      /\ Forall
           (fun c =>
              mem (pc_file_path c) files_analyzed = true
              /\ pc_ticket_id c = Some (t_id ticket)
              /\ pc_status c = Pending
              /\ In (pc_file_path c)
                   (map fst (omap (directive_of_line (t_title ticket)) lines)))
           new.
Proof.
  induction lines as [|line rest IH]; intros proposed w.
  { exists [], w. cbn. rewrite !app_nil_r. repeat split; auto. }
  assert (Hweak : forall new,
    Forall (fun c =>
              mem (pc_file_path c) files_analyzed = true
              /\ pc_ticket_id c = Some (t_id ticket)
              /\ pc_status c = Pending
              /\ In (pc_file_path c)
                   (map fst (omap (directive_of_line (t_title ticket)) rest)))
           new ->
    Forall (fun c =>
              mem (pc_file_path c) files_analyzed = true
              /\ pc_ticket_id c = Some (t_id ticket)
              /\ pc_status c = Pending
              /\ In (pc_file_path c)
                   (map fst
                      (omap (directive_of_line (t_title ticket)) (line :: rest))))
           new).
  { intros new H. eapply List.Forall_impl; [|exact H].
    intros c (A & B & C & D). repeat split; auto.
    apply in_directives_cons. exact D. }
  cbn [propose_lines].
  destruct (directive_of_line (t_title ticket) line)
    as [[file_path instruction]|] eqn:Hline.
  2: { destruct (IH proposed w) as (new & w1 & H1 & H2 & H3 & H4 & H5).
       exists new, w1. repeat split; auto. }
  destruct (mem file_path files_analyzed) eqn:Hmem.
  2: { destruct (IH proposed w) as (new & w1 & H1 & H2 & H3 & H4 & H5).
       exists new, w1. repeat split; auto. }
  unfold bind.
  destruct (propose_file_change_rows file_path
              (t_title ticket +:+ ": " +:+ instruction) (Some (t_id ticket)) w)
    as (r & wp & Hp & Htk & Hfs & Hrows).
  rewrite Hp. destruct r as [msg|change_id fp oc pc d].
  - destruct (IH proposed wp) as (new & w1 & H1 & H2 & H3 & H4 & H5).
    exists new, w1. rewrite H1, H2, H3, H4, Hrows, Htk, Hfs.
    repeat split; auto.
  - destruct Hrows as (row & Hrows & Hid & Hfp & Htid & _ & Hst).
    destruct (IH (proposed ++ [(file_path, change_id)]) wp)
      as (new & w1 & H1 & H2 & H3 & H4 & H5).
    exists (row :: new), w1. rewrite H1, H2, H3, H4, Hrows, Htk, Hfs.
    cbn [map]. rewrite Hid, Hfp, <- !app_assoc. cbn [app].
    repeat split; auto.
    constructor; [|apply Hweak; exact H5].
    rewrite Hfp. repeat split; auto.
    eapply in_directives_head. exact Hline.
Qed.


Lemma find_some_ticket_id (id : Z) (l : list Ticket) (t : Ticket) :
  List.find (fun t => t_id t =? id) l = Some t -> t_id t = id.
Proof.
  intros H. apply List.find_some in H as [_ H]. apply Z.eqb_eq. exact H.
Qed.

(** C9, as the code has it.  After the two-step task has succeeded for a
    ticket, the ticket holds the raw response as its suggestion, the
    suggestion is pending, and the files analysed are those of the selected
    files that [read_file] could read, each once, in the order of the
    selection (not the whole selection).  Every proposed change that
    ai-resolve adds is pending, belongs to the ticket, and is for the path of
    a directive of the response that is among the files analysed. *)
Theorem ai_resolve_stores_the_files_it_read
    (w : World) (ticket_id : Z) (ticket : Ticket)
    (files_analyzed : list string) (total_files total_chars : Z)
    (response : string) (w' : World) :
  get_ticket_by_id ticket_id w = Some ticket ->
  process_task_two_step (ticket_task w ticket) (t_project_id ticket) w
  = (Ret (TaskSuccess files_analyzed total_files total_chars response), w') ->
  exists selected w0 new w1,
    identify_relevant_files (ticket_task w ticket) w = (Ret selected, w0)
    /\ files_analyzed = keys_in_order (List.filter (readable w) selected)
    /\ api_ticket_ai_resolve ticket_id w
       = (Ret (ResolveOk response files_analyzed
                 (map (fun c => (pc_file_path c, pc_id c)) new)), w1)
    /\ (exists ticket',
          get_ticket_by_id ticket_id w1 = Some ticket'
          /\ t_ai_suggestion ticket' = Some response
          /\ t_ai_suggestion_status ticket' = Some Pending
          /\ t_ai_files_analyzed ticket' = Some files_analyzed)
    /\ changes (w_db w1) = changes (w_db w) ++ new
    /\ Forall
         (fun c =>
            mem (pc_file_path c) files_analyzed = true
            /\ pc_ticket_id c = Some ticket_id
            /\ pc_status c = Pending
            /\ In (pc_file_path c)
                 (map fst (extract_file_directives (t_title ticket) response)))
         new.
Proof.
  intros Ht Hproc. pose proof Hproc as Hproc0.
  pose proof (find_some_ticket_id _ _ _ Ht) as Hid.
  rewrite process_task_two_step_eq in Hproc.
  destruct (target_api_context w (t_project_id ticket)) as [ctx|];
    [|discriminate].
  destruct (identify_relevant_files_state (ticket_task w ticket) w)
    as (sel & w0 & Hsel & (Hfs & _ & Hch & Htk & _) & _).
  rewrite Hsel in Hproc. destruct sel as [|f fs]; [discriminate|].
  destruct (read_relevant_spec (f :: fs) [] 0 w0)
    as (fc & total & Hread & Hkeys).
  rewrite Hread in Hproc. destruct fc as [|kv kvs]; [discriminate|].
  destruct (claude _ _) as [resp|]; [|discriminate].
  assert (E1 : files_analyzed = map fst (kv :: kvs)) by congruence.
  assert (E2 : response = resp) by congruence.
  assert (E3 : w' = analysed_world (ticket_task w ticket) ctx (kv :: kvs) resp w0)
    by congruence.
  clear Hproc. subst response.
  assert (Hfa : files_analyzed
                = keys_in_order (List.filter (readable w) (f :: fs))).
  { rewrite E1, Hkeys. unfold keys_in_order. f_equal.
    apply List.filter_ext. intros a. apply readable_fs. exact Hfs. }
  assert (Hwa_ch : changes (w_db w') = changes (w_db w))
    by (rewrite E3; exact Hch).
  assert (Hwa_tk : tickets (w_db w') = tickets (w_db w))
    by (rewrite E3; exact Htk).
  clear E1 E3 Hkeys Hread.
  rewrite api_ticket_ai_resolve_eq, Ht, Hproc0.
  cbn [result_error opt_truthy result_response result_files_analyzed].
  unfold bind at 1.
  unfold update_ticket_ai_suggestion, update_tickets.
  set (wu := set_db _ w').
  assert (Hwu_ch : changes (w_db wu) = changes (w_db w)) by exact Hwa_ch.
  assert (Hwu_tk : exists ticket',
             List.find (fun t => t_id t =? ticket_id) (tickets (w_db wu))
             = Some ticket'
             /\ t_ai_suggestion ticket' = Some resp
             /\ t_ai_suggestion_status ticket' = Some Pending
             /\ t_ai_files_analyzed ticket' = Some files_analyzed).
  { unfold wu. cbn [w_db set_db tickets set_tickets].
    rewrite find_update_tickets by reflexivity.
    rewrite Hwa_tk. unfold get_ticket_by_id in Ht. rewrite Ht. cbn [option_map].
    eexists. split; [reflexivity|]. repeat split. }
  unfold bind, extract_file_directives.
  destruct (contains MARKER resp).
  - destruct (propose_lines_spec ticket files_analyzed
                (directive_lines resp) [] wu)
      as (new & w1 & H1 & H2 & H3 & _ & H5).
    rewrite H1. cbn [app]. unfold ret.
    exists (f :: fs), w0, new, w1.
    split; [exact Hsel|]. split; [exact Hfa|]. split; [reflexivity|].
    split; [unfold get_ticket_by_id; rewrite H3; exact Hwu_tk|].
    split; [rewrite H2, Hwu_ch; reflexivity|].
    rewrite <- Hid. exact H5.
  - unfold ret. exists (f :: fs), w0, [], wu.
    split; [exact Hsel|]. split; [exact Hfa|]. split; [reflexivity|].
    split; [exact Hwu_tk|].
    split; [rewrite Hwu_ch, app_nil_r; reflexivity|]. constructor.
Qed.


(** ** Facts about texts *)

Lemma str_app_assoc (a b c : string) : (a +:+ b) +:+ c = a +:+ b +:+ c.
Proof. induction a as [|x a IH]; simpl; [reflexivity|]. rewrite IH. reflexivity. Qed.

Lemma str_app_nil_r (a : string) : a +:+ "" = a.
Proof. induction a as [|x a IH]; simpl; [reflexivity|]. rewrite IH. reflexivity. Qed.

Lemma str_length_app (a b : string) :
  String.length (a +:+ b) = (String.length a + String.length b)%nat.
Proof. induction a as [|x a IH]; simpl; [reflexivity|]. rewrite IH. reflexivity. Qed.

Lemma prefix_app (p t : string) : String.prefix p (p +:+ t) = true.
Proof.
  induction p as [|x p IH]; simpl; [destruct t; reflexivity|].
  destruct (ascii_dec x x); [exact IH|congruence].
Qed.

Lemma prefix_inv (p s : string) :
  String.prefix p s = true -> exists r, s = p +:+ r.
Proof.
  revert s. induction p as [|x p IH]; intros s H.
  - exists s. reflexivity.
  - destruct s as [|y s]; [discriminate|]. simpl in H.
    destruct (ascii_dec x y) as [->|]; [|discriminate].
    destruct (IH s H) as [r ->]. exists r. reflexivity.
Qed.

(** When [m] starts [x +:+ y], either [m] starts [x], or [x] is the start
    of [m] and what is left of [m] starts [y]. *)
Lemma prefix_app_cases (m x y : string) :
  String.prefix m (x +:+ y) = true ->
  (exists x', x = m +:+ x')
  \/ (exists m2, m = x +:+ m2 /\ m2 <> "" /\ String.prefix m2 y = true).
Proof.
  revert x. induction m as [|a m IH]; intros x H.
  - left. exists x. reflexivity.
  - destruct x as [|b x].
    + right. exists (String a m). repeat split; [discriminate|exact H].
    + simpl in H. destruct (ascii_dec a b) as [->|]; [|discriminate].
      destruct (IH x H) as [[x' ->]|(m2 & -> & Hm2 & Hp)].
      * left. exists x'. reflexivity.
      * right. exists m2. repeat split; assumption.
Qed.

Lemma contains_prefix (m s : string) :
  String.prefix m s = true -> contains m s = true.
Proof. intros H. destruct s; cbn [contains]; rewrite H; reflexivity. Qed.

Lemma contains_here (m t : string) : contains m (m +:+ t) = true.
Proof. apply contains_prefix, prefix_app. Qed.

Lemma contains_app (pre m t : string) : contains m (pre +:+ m +:+ t) = true.
Proof.
  induction pre as [|c pre IH].
  - exact (contains_here m t).
  - cbn [String.append contains]. rewrite IH. apply orb_true_r.
Qed.

Lemma contains_cons_false (m : string) (c : ascii) (s : string) :
  contains m (String c s) = false ->
  String.prefix m (String c s) = false /\ contains m s = false.
Proof. simpl. intros H. apply orb_false_iff in H. exact H. Qed.

(** *** [split] *)

Lemma split_go_skip (sep x t : string) :
  split_go sep (String.length x) (x +:+ t) = split_go sep 0 t.
Proof. induction x as [|c x IH]; simpl; [destruct t; reflexivity|exact IH]. Qed.

Lemma split_go_none (sep s : string) :
  contains sep s = false -> split_go sep 0 s = [s].
Proof.
  induction s as [|c s IH]; intros H; [reflexivity|].
  destruct (contains_cons_false _ _ _ H) as [Hp Hc].
  cbn [split_go]. rewrite Hp, (IH Hc). reflexivity.
Qed.

Lemma split_go_match (sep : string) (a : ascii) (sep' t : string) :
  sep = String a sep' ->
  split_go sep 0 (sep +:+ t) = "" :: split_go sep 0 t.
Proof.
  intros ->. cbn [String.append split_go].
  change (String a (sep' +:+ t)) with (String a sep' +:+ t).
  rewrite prefix_app.
  replace (String.length (String a sep') - 1)%nat with (String.length sep')
    by (cbn [String.length]; lia).
  rewrite split_go_skip. reflexivity.
Qed.


(** No end of the marker is also a start of it: two occurrences never
    overlap. *)
Lemma marker_no_border (x m2 y : string) :
  MARKER = x +:+ m2 -> x <> "" -> m2 <> "" ->
  String.prefix m2 (MARKER +:+ y) = false.
Proof.
  intros E Hx Hm. unfold MARKER in *.
  destruct x as [|c x]; [congruence|]. clear Hx.
  cbn [String.append] in E. injection E as <- E.
  repeat (destruct x as [|c x]; cbn [String.append] in E;
          [subst m2; reflexivity|injection E as <- E]).
  destruct x; cbn [String.append] in E; [congruence|discriminate].
Qed.

(** The text after the last marker is the last piece of the split. *)
Lemma split_marker_pieces (tail : string) :
  contains MARKER tail = false ->
  forall n pre,
    (String.length pre <= n)%nat ->
    exists p ps, split_go MARKER 0 (pre +:+ MARKER +:+ tail) = p :: ps ++ [tail].
Proof.
  intros Ht.
  assert (Hbase : split_go MARKER 0 (MARKER +:+ tail) = "" :: [] ++ [tail]).
  { rewrite (split_go_match MARKER "F" "ILES_TO_MODIFY:" tail eq_refl).
    rewrite (split_go_none _ _ Ht). reflexivity. }
  induction n as [|n IH]; intros pre Hlen.
  { destruct pre; [|simpl in Hlen; lia]. eexists _, _. exact Hbase. }
  destruct pre as [|c pre']; [eexists _, _; exact Hbase|].
  destruct (String.prefix MARKER (String c pre' +:+ MARKER +:+ tail)) eqn:P.
  - apply prefix_app_cases in P as [[x' Hx]|(m2 & Hm & Hne & Hp)].
    + rewrite Hx, str_app_assoc.
      rewrite (split_go_match MARKER "F" "ILES_TO_MODIFY:" _ eq_refl).
      destruct (IH x') as (p & ps & ->).
      { rewrite Hx, str_length_app in Hlen. simpl in Hlen. lia. }
      exists "", (p :: ps). reflexivity.
    + exfalso.
      pose proof (marker_no_border (String c pre') m2 tail Hm) as Hb.
      rewrite Hb in Hp; [discriminate|discriminate|exact Hne].
  - cbn [String.append split_go]. cbn [String.append] in P. rewrite P.
    destruct (IH pre') as (p & ps & ->); [simpl in Hlen; lia|].
    exists (String c p), ps. reflexivity.
Qed.

Lemma last_piece_after_marker (pre tail : string) :
  contains MARKER tail = false ->
  last_piece (split MARKER (pre +:+ MARKER +:+ tail)) = tail.
Proof.
  intros Ht.
  destruct (split_marker_pieces tail Ht (String.length pre) pre (le_n _))
    as (p & ps & H).
  unfold last_piece, split. rewrite H.
  change (p :: ps ++ [tail]) with ((p :: ps) ++ [tail]).
  apply List.last_last.
Qed.


(** *** [strip] *)

Lemma is_empty_app (a b : string) :
  is_empty b = false -> is_empty (a +:+ b) = false.
Proof. intros H. destruct a; [exact H|reflexivity]. Qed.

Lemma rstrip_app_keep (x s : string) :
  is_empty (rstrip s) = false -> rstrip (x +:+ s) = x +:+ rstrip s.
Proof.
  intros H. induction x as [|c x IH]; [reflexivity|].
  cbn [String.append rstrip]. rewrite IH, (is_empty_app x _ H), andb_false_r.
  reflexivity.
Qed.

Lemma rstrip_cons_keep (c : ascii) (s : string) :
  is_space c = false -> rstrip (String c s) = String c (rstrip s).
Proof. intros H. cbn [rstrip]. rewrite H. reflexivity. Qed.

Lemma rstrip_idem (s : string) : rstrip (rstrip s) = rstrip s.
Proof.
  induction s as [|c s IH]; [reflexivity|]. cbn [rstrip].
  destruct (is_space c && is_empty (rstrip s)) eqn:E; [reflexivity|].
  cbn [rstrip]. rewrite IH, E. reflexivity.
Qed.

Lemma lstrip_rstrip (s : string) : lstrip (rstrip s) = rstrip (lstrip s).
Proof.
  induction s as [|c s IH]; [reflexivity|]. cbn [rstrip lstrip].
  destruct (is_space c) eqn:Hc; cbn [andb].
  - destruct (is_empty (rstrip s)) eqn:He.
    + rewrite <- IH. destruct (rstrip s); [reflexivity|discriminate].
    + cbn [lstrip]. rewrite Hc. exact IH.
  - cbn [lstrip rstrip]. rewrite Hc. reflexivity.
Qed.

Lemma strip_rstrip (s : string) : strip (rstrip s) = strip s.
Proof. unfold strip. rewrite lstrip_rstrip, rstrip_idem. reflexivity. Qed.

Lemma has_char_app (c : ascii) (a b : string) :
  has_char c (a +:+ b) = has_char c a || has_char c b.
Proof.
  induction a as [|x a IH]; [reflexivity|].
  cbn [String.append has_char]. rewrite IH, orb_assoc. reflexivity.
Qed.

Lemma has_char_rstrip (c : ascii) (s : string) :
  has_char c s = false -> has_char c (rstrip s) = false.
Proof.
  induction s as [|x s IH]; [reflexivity|]. cbn [has_char rstrip].
  intros H. apply orb_false_iff in H as [Hx Hs].
  destruct (is_space x && is_empty (rstrip s)); [reflexivity|].
  cbn [has_char]. rewrite Hx, (IH Hs). reflexivity.
Qed.

(** *** Lines *)

Lemma split_line (a b : string) :
  one_line a -> split_go nl 0 (a +:+ nl +:+ b) = a :: split_go nl 0 b.
Proof.
  unfold one_line. induction a as [|c a IH]; intros H.
  - exact (split_go_match nl nl_char "" b eq_refl).
  - cbn [has_char] in H. apply orb_false_iff in H as [Hc Ha].
    cbn [String.append split_go]. unfold nl at 1. cbn [String.prefix].
    destruct (ascii_dec nl_char c) as [E|_].
    { subst c. rewrite Ascii.eqb_refl in Hc. discriminate. }
    rewrite (IH Ha). reflexivity.
Qed.

Lemma split_one_line (a : string) : one_line a -> split_go nl 0 a = [a].
Proof.
  unfold one_line. induction a as [|c a IH]; intros H; [reflexivity|].
  cbn [has_char] in H. apply orb_false_iff in H as [Hc Ha].
  cbn [split_go]. unfold nl at 1. cbn [String.prefix].
  destruct (ascii_dec nl_char c) as [E|_].
  { subst c. rewrite Ascii.eqb_refl in Hc. discriminate. }
  rewrite (IH Ha). reflexivity.
Qed.

Lemma join_cons (sep x y : string) (rest : list string) :
  join sep (x :: y :: rest) = x +:+ sep +:+ join sep (y :: rest).
Proof. reflexivity. Qed.

Lemma split_join_lines (lines : list string) (l : string) :
  Forall one_line lines -> one_line l ->
  split_go nl 0 (join nl (lines ++ [l])) = lines ++ [l].
Proof.
  intros Hls Hl. induction Hls as [|x lines Hx Hls IH].
  - exact (split_one_line l Hl).
  - cbn [app]. destruct (lines ++ [l]) as [|y rest] eqn:E.
    { destruct lines; discriminate. }
    rewrite join_cons, (split_line _ _ Hx), IH. reflexivity.
Qed.

(** The last line of a block is the only one that stripping the end of the
    block can change. *)
Lemma rstrip_join_lines (lines : list string) (l : string) :
  is_empty (rstrip l) = false ->
  rstrip (join nl (lines ++ [l])) = join nl (lines ++ [rstrip l]).
Proof.
  intros H. induction lines as [|x lines IH]; [reflexivity|].
  cbn [app].
  destruct (lines ++ [l]) as [|y rest] eqn:E; [destruct lines; discriminate|].
  destruct (lines ++ [rstrip l]) as [|y' rest'] eqn:E';
    [destruct lines; discriminate|].
  rewrite !join_cons, <- IH.
  rewrite <- !str_app_assoc. apply rstrip_app_keep.
  rewrite IH, <- E'. clear -H.
  induction lines as [|z lines IH]; [exact H|].
  cbn [app]. destruct (lines ++ [rstrip l]) eqn:E; [destruct lines; discriminate|].
  rewrite join_cons. destruct z; [reflexivity|reflexivity].
Qed.


(** *** Directive lines *)

Lemma split1_colon (p z : string) :
  no_colon p -> split1 ":" (p +:+ ":" +:+ z) = [p; z].
Proof.
  unfold no_colon. induction p as [|c p IH]; intros H.
  - cbn [String.append split1 String.prefix].
    destruct (ascii_dec ":" ":"); [|congruence]. destruct z; reflexivity.
  - cbn [has_char] in H. apply orb_false_iff in H as [Hc Hp].
    change (String c p +:+ ":" +:+ z) with (String c (p +:+ ":" +:+ z)).
    cbn [split1 String.prefix].
    destruct (ascii_dec ":" c) as [E|_].
    { subst c. discriminate. }
    rewrite (IH Hp). reflexivity.
Qed.

Lemma strip_directive (p y : string) :
  strip ("- " +:+ p +:+ ":" +:+ y) = "- " +:+ p +:+ ":" +:+ rstrip y.
Proof.
  unfold strip.
  change (lstrip ("- " +:+ p +:+ ":" +:+ y)) with ("- " +:+ p +:+ ":" +:+ y).
  rewrite <- (str_app_assoc "- " p (":" +:+ y)).
  rewrite rstrip_app_keep; [|reflexivity].
  change (rstrip (":" +:+ y)) with (":" +:+ rstrip y).
  rewrite str_app_assoc. reflexivity.
Qed.

(** A line "- path:text" stands for the path and the text, both without
    the blanks around them. *)
Lemma directive_of_line_shape (title p y : string) :
  no_colon p ->
  directive_of_line title ("- " +:+ p +:+ ":" +:+ y) = Some (strip p, strip y).
Proof.
  intros Hp. unfold directive_of_line. rewrite strip_directive.
  unfold startswith. rewrite prefix_app.
  rewrite <- (str_app_assoc "- " p (":" +:+ rstrip y)).
  rewrite (contains_app ("- " +:+ p) ":" (rstrip y)).
  rewrite str_app_assoc.
  change (drop 2 ("- " +:+ p +:+ ":" +:+ rstrip y)) with (p +:+ ":" +:+ rstrip y).
  rewrite (split1_colon p (rstrip y) Hp).
  cbn [andb length Nat.ltb Nat.leb nth]. rewrite strip_rstrip. reflexivity.
Qed.

Lemma directive_of_directive_line (title p d : string) :
  no_colon p ->
  directive_of_line title (directive_line p d) = Some (strip p, strip d).
Proof.
  intros Hp. unfold directive_line.
  change ("- " +:+ p +:+ ": " +:+ d) with ("- " +:+ p +:+ ":" +:+ " " +:+ d).
  rewrite (directive_of_line_shape title p (" " +:+ d) Hp). reflexivity.
Qed.

Lemma directive_of_rstrip_line (title p d : string) :
  no_colon p ->
  directive_of_line title (rstrip (directive_line p d)) = Some (strip p, strip d).
Proof.
  intros Hp. unfold directive_line.
  change ("- " +:+ p +:+ ": " +:+ d) with ("- " +:+ p +:+ ":" +:+ " " +:+ d).
  rewrite <- (str_app_assoc "- " p (":" +:+ " " +:+ d)).
  rewrite rstrip_app_keep; [|reflexivity].
  change (rstrip (":" +:+ " " +:+ d)) with (":" +:+ rstrip (" " +:+ d)).
  rewrite str_app_assoc.
  rewrite (directive_of_line_shape title p (rstrip (" " +:+ d)) Hp).
  rewrite strip_rstrip. reflexivity.
Qed.

Lemma rstrip_directive_line_nonempty (p d : string) :
  is_empty (rstrip (directive_line p d)) = false.
Proof. reflexivity. Qed.

Lemma one_line_directive_line (p d : string) :
  one_line p -> one_line d -> one_line (directive_line p d).
Proof.
  unfold one_line, directive_line. intros Hp Hd.
  rewrite !has_char_app, Hp, Hd. reflexivity.
Qed.

Lemma omap_cons_some (title line : string) (rest : list string)
    (d : string * string) :
  directive_of_line title line = Some d ->
  omap (directive_of_line title) (line :: rest)
  = d :: omap (directive_of_line title) rest.
Proof. intros H. simpl. rewrite H. reflexivity. Qed.

Lemma omap_app_lines (title : string) (a b : list string) :
  omap (directive_of_line title) (a ++ b)
  = omap (directive_of_line title) a ++ omap (directive_of_line title) b.
Proof. apply omap_app. Qed.

(** The directives of a response that ends with a block of lines: a line
    of the right shape first, any lines next, a line of the right shape
    last. *)
Lemma extract_block (title pre p1 d1 p2 d2 : string) (mid : list string) :
  one_line p1 -> no_colon p1 -> one_line d1 ->
  one_line p2 -> no_colon p2 -> one_line d2 ->
  Forall one_line mid ->
  contains MARKER
    (join nl (directive_line p1 d1 :: mid ++ [directive_line p2 d2])) = false ->
  extract_file_directives title
    (pre +:+ MARKER +:+ nl +:+
     join nl (directive_line p1 d1 :: mid ++ [directive_line p2 d2]))
  = (strip p1, strip d1)
    :: omap (directive_of_line title) mid ++ [(strip p2, strip d2)].
Proof.
  intros Hp1 Hc1 Hd1 Hp2 Hc2 Hd2 Hmid Hm.
  set (block := join nl (directive_line p1 d1 :: mid ++ [directive_line p2 d2])) in *.
  assert (Htail : contains MARKER (nl +:+ block) = false).
  { unfold nl. cbn [String.append contains]. rewrite Hm.
    unfold MARKER. cbn [String.prefix].
    destruct (ascii_dec "F" nl_char); [discriminate|reflexivity]. }
  unfold extract_file_directives, directive_lines.
  rewrite contains_app, (last_piece_after_marker pre (nl +:+ block) Htail).
  assert (Hstrip : strip (nl +:+ block) = rstrip block).
  { unfold strip. f_equal. unfold block.
    destruct (mid ++ [directive_line p2 d2]) eqn:E; [destruct mid; discriminate|].
    rewrite join_cons. reflexivity. }
  rewrite Hstrip. unfold block.
  change (directive_line p1 d1 :: mid ++ [directive_line p2 d2])
    with ((directive_line p1 d1 :: mid) ++ [directive_line p2 d2]).
  rewrite rstrip_join_lines by apply rstrip_directive_line_nonempty.
  unfold split. rewrite split_join_lines.
  - cbn [app].
    rewrite (omap_cons_some title _ _ _
               (directive_of_directive_line title p1 d1 Hc1)).
    rewrite omap_app_lines.
    rewrite (omap_cons_some title _ [] _
               (directive_of_rstrip_line title p2 d2 Hc2)).
    reflexivity.
  - constructor; [apply one_line_directive_line; assumption|exact Hmid].
  - apply has_char_rstrip. apply one_line_directive_line; assumption.
Qed.


Lemma omap_all_none (title : string) (lines : list string) :
  Forall (fun line => one_line line /\ directive_of_line title line = None) lines ->
  omap (directive_of_line title) lines = [] /\ Forall one_line lines.
Proof.
  induction 1 as [|x lines [Hx Hn] _ [IH1 IH2]]; [split; [reflexivity|constructor]|].
  split; [simpl; rewrite Hn; exact IH1|constructor; assumption].
Qed.

Lemma process_task_two_step_keeps (task : string) (project_id : option Z)
    (w : World) :
  exists r w1,
    process_task_two_step task project_id w = (Ret r, w1)
    /\ keeps_files_and_rows w w1.
Proof.
  rewrite process_task_two_step_eq.
  destruct (target_api_context w project_id) as [ctx|msg].
  2: { eexists _, _. split; [reflexivity|apply keeps_refl]. }
  destruct (identify_relevant_files_state task w)
    as (sel & w0 & Hsel & Hkeep & _).
  rewrite Hsel. destruct sel as [|f fs].
  { eexists _, _. split; [reflexivity|exact Hkeep]. }
  destruct (read_relevant_spec (f :: fs) [] 0 w0) as (fc & total & Hread & _).
  rewrite Hread. destruct fc as [|kv kvs].
  { eexists _, _. split; [reflexivity|exact Hkeep]. }
  destruct (claude _ _) as [resp|msg];
    eexists _, _; (split; [reflexivity|]);
    (eapply keeps_trans; [exact Hkeep|repeat split]).
Qed.

(** Without the marker in the response, ai-resolve adds no proposed
    change. *)
Lemma ai_resolve_without_marker (w : World) (ticket_id : Z) (ticket : Ticket)
    (files_analyzed : list string) (total_files total_chars : Z)
    (response : string) (w' : World) :
  get_ticket_by_id ticket_id w = Some ticket ->
  process_task_two_step (ticket_task w ticket) (t_project_id ticket) w
  = (Ret (TaskSuccess files_analyzed total_files total_chars response), w') ->
  contains MARKER response = false ->
  exists w1,
    api_ticket_ai_resolve ticket_id w
    = (Ret (ResolveOk response files_analyzed []), w1)
    /\ changes (w_db w1) = changes (w_db w).
Proof.
  intros Ht Hproc Hm.
  destruct (process_task_two_step_keeps (ticket_task w ticket)
              (t_project_id ticket) w) as (r & w1 & Hp & (_ & _ & Hch & _)).
  rewrite Hproc in Hp. injection Hp as <- <-.
  rewrite api_ticket_ai_resolve_eq, Ht, Hproc.
  cbn [result_error opt_truthy result_response result_files_analyzed].
  rewrite Hm. eexists. split; [reflexivity|exact Hch].
Qed.

(** C7. A response in which the marker is followed by two lines of the
    shape "- path: text" gives exactly two directives, in the order of the
    lines, whatever lines of another shape stand between them: such lines
    are passed over.  A response without the marker gives no directive and
    no error, and ai-resolve then adds no proposed change. *)
Theorem extract_file_directives_two_lines
    (title pre p1 d1 p2 d2 : string) (others : list string) :
  one_line p1 -> no_colon p1 -> one_line d1 ->
  one_line p2 -> no_colon p2 -> one_line d2 ->
  Forall (fun line => one_line line /\ directive_of_line title line = None)
    others ->
  contains MARKER
    (join nl (directive_line p1 d1 :: others ++ [directive_line p2 d2]))
  = false ->
  extract_file_directives title
    (pre +:+ MARKER +:+ nl +:+
     join nl (directive_line p1 d1 :: others ++ [directive_line p2 d2]))
  = [(strip p1, strip d1); (strip p2, strip d2)]
  /\ (forall line,
        directive_of_line title line = None
        <-> startswith "- " (strip line) && contains ":" (strip line) = false)
  /\ (forall text,
        contains MARKER text = false -> extract_file_directives title text = [])
  /\ (forall w ticket_id ticket files_analyzed total_files total_chars
             response w',
        get_ticket_by_id ticket_id w = Some ticket ->
        process_task_two_step (ticket_task w ticket) (t_project_id ticket) w
        = (Ret (TaskSuccess files_analyzed total_files total_chars response), w') ->
        contains MARKER response = false ->
        exists w1,
          api_ticket_ai_resolve ticket_id w
          = (Ret (ResolveOk response files_analyzed []), w1)
          /\ changes (w_db w1) = changes (w_db w)).
Proof.
  intros Hp1 Hc1 Hd1 Hp2 Hc2 Hd2 Hothers Hm.
  destruct (omap_all_none title others Hothers) as [Hnone Hlines].
  split.
  { rewrite (extract_block title pre p1 d1 p2 d2 others); try assumption.
    rewrite Hnone. reflexivity. }
  split.
  { intros line. unfold directive_of_line.
    destruct (startswith "- " (strip line) && contains ":" (strip line));
      split; intros H; try reflexivity; discriminate. }
  split.
  { intros text H. unfold extract_file_directives. rewrite H. reflexivity. }
  intros. eapply ai_resolve_without_marker; eassumption.
Qed.


Lemma propose_file_change_succeeds (file_path instruction : string)
    (ticket_id : option Z) (w : World) :
  (forall n r, exists c, claude n r = Ret c) ->
  readable w file_path = true ->
  exists row w1 original proposed,
    propose_file_change file_path instruction ticket_id w
    = (Ret (Proposed (pc_id row) file_path original proposed instruction), w1)
    /\ changes (w_db w1) = changes (w_db w) ++ [row]
    /\ pc_id row = next_id (map pc_id (changes (w_db w)))
    /\ pc_file_path row = file_path
    /\ pc_change_description row = instruction
    /\ pc_ticket_id row = ticket_id
    /\ pc_status row = Pending
    /\ w_fs w1 = w_fs w.
Proof.
  intros Hc Hr. unfold readable in Hr.
  unfold propose_file_change, try_except, bind.
  destruct (read_file_state file_path w) as [r Hrf]. rewrite Hrf in Hr |- *.
  cbn [fst] in Hr. destruct r as [msg|p c sz e]; [discriminate|].
  unfold messages_create.
  destruct (Hc (w_calls w)
              (mkRequest 4096
                 "You are a code assistant. Return only the modified file content, nothing else."
                 [mkMessage "user" (propose_prompt instruction c)]))
    as [proposed Hp].
  rewrite Hp, create_proposed_change_eq. cbv zeta. unfold ret.
  eexists (mkChange _ _ _ _ _ _ _ _ _), _, _, _.
  split; [reflexivity|]. repeat split.
Qed.

(** C8, as the code has it.  When the same path stands in two lines of the
    block, both lines give a directive, in the order of the lines, each with
    its own instruction; and when the path is among the files analysed and
    the proposals go through, ai-resolve stores one pending change for each
    of the two, the earlier instruction included. *)
Theorem repeated_path_keeps_every_directive
    (title pre p d1 d2 : string) (others : list string)
    (ticket : Ticket) (files_analyzed : list string) (w : World) :
  one_line p -> no_colon p -> one_line d1 -> one_line d2 ->
  Forall one_line others ->
  contains MARKER
    (join nl (directive_line p d1 :: others ++ [directive_line p d2])) = false ->
  (forall n r, exists c, claude n r = Ret c) ->
  mem (strip p) files_analyzed = true ->
  readable w (strip p) = true ->
  extract_file_directives title
    (pre +:+ MARKER +:+ nl +:+
     join nl (directive_line p d1 :: others ++ [directive_line p d2]))
  = (strip p, strip d1)
    :: omap (directive_of_line title) others ++ [(strip p, strip d2)]
  /\ exists row1 row2 w1,
       propose_lines ticket files_analyzed
         [directive_line p d1; directive_line p d2] [] w
       = (Ret [(strip p, pc_id row1); (strip p, pc_id row2)], w1)
       /\ changes (w_db w1) = changes (w_db w) ++ [row1; row2]
       /\ pc_id row1 <> pc_id row2
       /\ pc_file_path row1 = strip p
       /\ pc_file_path row2 = strip p
       /\ pc_change_description row1 = t_title ticket +:+ ": " +:+ strip d1
       /\ pc_change_description row2 = t_title ticket +:+ ": " +:+ strip d2
       /\ pc_status row1 = Pending
       /\ pc_status row2 = Pending.
Proof.
  intros Hp Hc Hd1 Hd2 Hothers Hm Hgen Hmem Hread.
  split; [apply extract_block; assumption|].
  cbn [propose_lines].
  rewrite !(directive_of_directive_line (t_title ticket) p _ Hc), Hmem.
  unfold bind.
  destruct (propose_file_change_succeeds (strip p)
              (t_title ticket +:+ ": " +:+ strip d1) (Some (t_id ticket)) w
              Hgen Hread)
    as (row1 & wa & o1 & c1 & Ha & Hrows1 & Hid1 & Hfp1 & Hds1 & _ & Hst1 & Hfs1).
  rewrite Ha.
  destruct (propose_file_change_succeeds (strip p)
              (t_title ticket +:+ ": " +:+ strip d2) (Some (t_id ticket)) wa
              Hgen)
    as (row2 & wb & o2 & c2 & Hb & Hrows2 & Hid2 & Hfp2 & Hds2 & _ & Hst2 & _).
  { rewrite (readable_fs w wa _ Hfs1). exact Hread. }
  rewrite Hb. unfold ret. exists row1, row2, wb.
  split; [reflexivity|].
  split; [rewrite Hrows2, Hrows1, <- app_assoc; reflexivity|].
  split.
  { rewrite Hid2, Hrows1.
    pose proof (next_id_above (map pc_id (changes (w_db w) ++ [row1])) (pc_id row1))
      as Hlt.
    rewrite map_app in Hlt.
    assert (Hin : In (pc_id row1)
                    (map pc_id (changes (w_db w)) ++ map pc_id [row1])).
    { apply in_or_app. right. left. reflexivity. }
    specialize (Hlt Hin). rewrite map_app. lia. }
  repeat split; assumption.
Qed.


(** * Further properties of the code *)

(** ** The life of a proposed change *)

(** X1. A proposed change that has been accepted or rejected stays as it
    is: a call to accept it and a call to reject it both return the error
    that names its status, and nothing changes. *)
Theorem resolved_change_is_final
    (w : World) (change_id : Z) (change : ProposedChange) :
  get_proposed_change change_id w = Some change ->
  pc_status change <> Pending ->
  apply_proposed_change change_id w
  = (Ret (ApplyError ("Change already " +:+ status_str (pc_status change))), w)
  /\ reject_proposed_change change_id w
     = (Ret (RejectError ("Change already " +:+ status_str (pc_status change))), w).
Proof.
  intros G Hs.
  assert (P : negb (is_pending (pc_status change)) = true)
    by (destruct (pc_status change); [congruence|reflexivity|reflexivity]).
  rewrite apply_proposed_change_eq, reject_proposed_change_eq, G, P.
  split; reflexivity.
Qed.

(** X2. Rejecting a pending proposed change marks that row as rejected,
    with the time of the call as the time it was resolved, and changes
    nothing else: not its content, not another row, no ticket, no file. *)
Theorem reject_marks_only_its_row
    (w : World) (change_id : Z) (change : ProposedChange) :
  get_proposed_change change_id w = Some change ->
  pc_status change = Pending ->
  exists w1 row,
    reject_proposed_change change_id w = (Ret (RejectedOk change_id), w1)
    /\ get_proposed_change change_id w1 = Some row
    /\ pc_status row = Rejected
    /\ pc_resolved_at row = Some (w_now w)
    /\ pc_file_path row = pc_file_path change
    /\ pc_proposed_content row = pc_proposed_content change
    /\ pc_original_content row = pc_original_content change
    /\ (forall id, id <> change_id ->
          get_proposed_change id w1 = get_proposed_change id w)
    /\ tickets (w_db w1) = tickets (w_db w)
    /\ history (w_db w1) = history (w_db w)
    /\ w_fs w1 = w_fs w
    /\ w_written w1 = w_written w.
Proof.
  intros G Hp. rewrite reject_proposed_change_eq, G, Hp. cbn [is_pending negb].
  eexists _, (with_status Rejected (w_now w) change). split; [reflexivity|].
  split.
  { unfold get_proposed_change in *. cbn.
    rewrite find_update_changes by reflexivity. rewrite G. reflexivity. }
  repeat split.
  intros id Hne. unfold get_proposed_change. cbn.
  apply find_update_changes_other; [exact Hne|reflexivity].
Qed.

(** X3. The ids of the proposed changes stay distinct: a new row gets an
    id above every id in the table, and accepting or rejecting a row leaves
    the ids of all rows as they are. *)
Theorem change_ids_stay_distinct (w : World) :
  List.NoDup (map pc_id (changes (w_db w))) ->
  (forall file_path original_content proposed_content change_description
          ticket_id,
      exists change_id w1,
        create_proposed_change file_path original_content proposed_content
          change_description ticket_id w = (Ret change_id, w1)
        /\ (forall c, In c (changes (w_db w)) -> pc_id c < change_id)
        /\ List.NoDup (map pc_id (changes (w_db w1))))
  /\ (forall change_id r w1,
        apply_proposed_change change_id w = (r, w1) ->
        map pc_id (changes (w_db w1)) = map pc_id (changes (w_db w)))
  /\ (forall change_id r w1,
        reject_proposed_change change_id w = (r, w1) ->
        map pc_id (changes (w_db w1)) = map pc_id (changes (w_db w))).
Proof.
  intros Hnd.
  assert (Hmap : forall id st now (l : list ProposedChange),
            map pc_id
              (map (fun c => if pc_id c =? id then with_status st now c else c) l)
            = map pc_id l).
  { intros id st now l. rewrite map_map. apply map_ext.
    intros c. destruct (pc_id c =? id); reflexivity. }
  split; [|split].
  - intros. rewrite create_proposed_change_eq. cbv zeta.
    eexists _, _. split; [reflexivity|]. split.
    + intros c Hc. apply next_id_above. apply in_map. exact Hc.
    + cbn. rewrite map_app. cbn [map pc_id].
      apply List.NoDup_app; [exact Hnd|repeat constructor; intros []|].
      intros x Hx [<-|[]].
      pose proof (next_id_above _ _ Hx). lia.
  - intros change_id r w1. rewrite apply_proposed_change_eq.
    destruct (get_proposed_change change_id w) as [c|]; [|intros [= <- <-]; reflexivity].
    destruct (negb (is_pending (pc_status c))); [intros [= <- <-]; reflexivity|].
    destruct (negb (validate_target_path (w_fs w) (target_of c)));
      [intros [= <- <-]; reflexivity|].
    destruct (write_text cwd (w_fs w) (target_of c) (pc_proposed_content c));
      intros [= <- <-]; [reflexivity|].
    unfold accepted_world. cbn. apply Hmap.
  - intros change_id r w1. rewrite reject_proposed_change_eq.
    destruct (get_proposed_change change_id w) as [c|]; [|intros [= <- <-]; reflexivity].
    destruct (negb (is_pending (pc_status c))); intros [= <- <-]; [reflexivity|].
    cbn. apply Hmap.
Qed.


(** ** Proposing a change *)

(** X4. [propose_file_change] stores a row only when the file could be
    read and the generation call answered.  When the read fails, its error
    is returned and nothing has happened, not even a generation call; when
    the generation call raises, its message is returned and no row is
    stored; otherwise one pending row is added that keeps the content the
    file had at that moment as the original content. *)
Theorem propose_file_change_outcomes
    (file_path instruction : string) (ticket_id : option Z) (w : World) :
  (forall msg,
      fst (read_file file_path w) = Ret (ReadError msg) ->
      propose_file_change file_path instruction ticket_id w
      = (Ret (ProposeError msg), w))
  /\ (forall p content sz e msg,
        fst (read_file file_path w) = Ret (ReadOk p content sz e) ->
        claude (w_calls w) (propose_request instruction content) = Raise msg ->
        propose_file_change file_path instruction ticket_id w
        = (Ret (ProposeError msg), set_calls (S (w_calls w)) w))
  /\ (forall p content sz e proposed,
        fst (read_file file_path w) = Ret (ReadOk p content sz e) ->
        claude (w_calls w) (propose_request instruction content) = Ret proposed ->
        exists change_id w1,
          propose_file_change file_path instruction ticket_id w
          = (Ret (Proposed change_id file_path content proposed instruction), w1)
          /\ changes (w_db w1)
             = changes (w_db w) ++
               [mkChange change_id ticket_id file_path content proposed
                  instruction Pending (w_now w) None]
          /\ read_text cwd (w_fs w) (div TARGET_PROJECT_DIR file_path)
             = inr content
          /\ w_calls w1 = S (w_calls w)
          /\ w_fs w1 = w_fs w).
Proof.
  unfold propose_file_change, try_except, bind, propose_request, messages_create.
  destruct (read_file_state file_path w) as [r Hr]. rewrite Hr. cbn [fst].
  split; [|split].
  - intros msg [= ->]. reflexivity.
  - intros p content sz e msg [= ->] Hc. rewrite Hc. reflexivity.
  - intros p content sz e proposed [= ->] Hc. rewrite Hc.
    rewrite create_proposed_change_eq. cbv zeta. unfold ret.
    eexists _, _. split; [reflexivity|]. split; [reflexivity|].
    split; [|split; reflexivity].
    rewrite read_file_eq in Hr. cbv zeta in Hr. injection Hr as Hr.
    destruct (negb (validate_target_path _ _)); [discriminate|].
    destruct (negb (exists_ _ _ _)); [discriminate|].
    destruct (read_text cwd (w_fs w) (div TARGET_PROJECT_DIR file_path));
      [discriminate|]. congruence.
Qed.

(** ** The action on a ticket *)

(** X5. The action on a ticket answers with an error, and changes nothing,
    when the action is none of accept, reject and probe (whether or not the
    ticket exists), when the ticket does not exist, and when a probe comes
    without a message. *)
Theorem ticket_action_errors_change_nothing
    (w : World) (ticket_id : Z) (action message : string) :
  (mem (strip action) ["accept"; "reject"; "probe"] = false ->
   api_ticket_ai_action ticket_id action message w
   = (Ret (ActionError 400 "Invalid action. Use: accept, reject, or probe"), w))
  /\ (mem (strip action) ["accept"; "reject"; "probe"] = true ->
      get_ticket_by_id ticket_id w = None ->
      api_ticket_ai_action ticket_id action message w
      = (Ret (ActionError 404 "Ticket not found"), w))
  /\ (strip action = "probe" ->
      get_ticket_by_id ticket_id w <> None ->
      strip message = "" ->
      api_ticket_ai_action ticket_id action message w
      = (Ret (ActionError 400 "Message required for probe action"), w)).
Proof.
  unfold api_ticket_ai_action. split; [|split].
  - intros H. rewrite H. reflexivity.
  - intros H G. rewrite H. cbn [negb]. unfold bind, get_world. rewrite G.
    reflexivity.
  - intros H G Hm. rewrite H, Hm.
    change (negb (mem "probe" ["accept"; "reject"; "probe"])) with false.
    change (String.eqb "probe" "accept") with false.
    change (String.eqb "probe" "reject") with false.
    change (is_empty "") with true.
    cbv iota. unfold bind, get_world.
    destruct (get_ticket_by_id ticket_id w); [reflexivity|congruence].
Qed.


(** ** Selecting the files of a task *)

Lemma has_char_lstrip (c : ascii) (s : string) :
  has_char c s = false -> has_char c (lstrip s) = false.
Proof.
  induction s as [|x s IH]; [reflexivity|]. cbn [has_char lstrip].
  intros H. destruct (is_space x).
  - apply orb_false_iff in H as [_ Hs]. exact (IH Hs).
  - exact H.
Qed.

Lemma has_char_strip (c : ascii) (s : string) :
  has_char c s = false -> has_char c (strip s) = false.
Proof. intros H. apply has_char_rstrip, has_char_lstrip, H. Qed.

Lemma upto_close_none (s : string) :
  has_char "]" s = false -> upto_close s = None.
Proof.
  induction s as [|x s IH]; [reflexivity|]. cbn [has_char upto_close].
  intros H. apply orb_false_iff in H as [Hx Hs].
  rewrite Hx, (IH Hs). reflexivity.
Qed.

Lemma search_array_none (s : string) :
  has_char "[" s = false \/ has_char "]" s = false -> search_array s = None.
Proof.
  induction s as [|x s IH]; [reflexivity|]. cbn [has_char search_array].
  intros [H|H]; apply orb_false_iff in H as [Hx Hs].
  - rewrite Hx. apply IH. left. exact Hs.
  - destruct (Ascii.eqb x "[").
    + rewrite (upto_close_none s Hs). reflexivity.
    + apply IH. right. exact Hs.
Qed.

Lemma identify_relevant_files_frame (task : string) (w : World) :
  exists selected w1,
    identify_relevant_files task w = (Ret selected, w1)
    /\ (w1 = w \/ w1 = set_calls (S (w_calls w)) w).
Proof.
  unfold identify_relevant_files, try_except, bind, get_world, ret, raise,
    messages_create.
  destruct (get_all_files_recursive "." (w_fs w)) as [|f fs].
  { eexists _, _. split; [reflexivity|left; reflexivity]. }
  destruct (claude (w_calls w) _) as [response|msg];
    [|eexists _, _; split; [reflexivity|right; reflexivity]].
  destruct (search_array (strip response)) as [m|];
    [|eexists _, _; split; [reflexivity|right; reflexivity]].
  destruct (json_loads m); eexists _, _; (split; [reflexivity|right; reflexivity]).
Qed.

(** X6. [identify_relevant_files] never raises and touches neither files
    nor tables.  It gives the empty list without asking the generation
    service when no file is found; it gives the empty list when the call
    raises, and when the answer holds no opening or no closing bracket. *)
Theorem identify_relevant_files_gives_nothing
    (task : string) (w : World) :
  (exists selected w1,
      identify_relevant_files task w = (Ret selected, w1)
      /\ w_fs w1 = w_fs w /\ w_db w1 = w_db w
      /\ w_conversation w1 = w_conversation w)
  /\ (get_all_files_recursive "." (w_fs w) = [] ->
      identify_relevant_files task w = (Ret [], w))
  /\ (forall msg,
        get_all_files_recursive "." (w_fs w) <> [] ->
        claude (w_calls w)
          (identify_request task (get_all_files_recursive "." (w_fs w)))
        = Raise msg ->
        identify_relevant_files task w = (Ret [], set_calls (S (w_calls w)) w))
  /\ (forall response,
        get_all_files_recursive "." (w_fs w) <> [] ->
        claude (w_calls w)
          (identify_request task (get_all_files_recursive "." (w_fs w)))
        = Ret response ->
        has_char "[" response = false \/ has_char "]" response = false ->
        identify_relevant_files task w = (Ret [], set_calls (S (w_calls w)) w)).
Proof.
  unfold identify_relevant_files, try_except, bind, get_world, ret, raise,
    messages_create, identify_request.
  destruct (get_all_files_recursive "." (w_fs w)) as [|f fs] eqn:Hall.
  { split; [eexists _, _; repeat split|].
    split; [reflexivity|]. split; intros; congruence. }
  split.
  { destruct (claude (w_calls w) _) as [response|msg];
      [|eexists _, _; repeat split].
    destruct (search_array (strip response)) as [m|];
      [|eexists _, _; repeat split].
    destruct (json_loads m); eexists _, _; repeat split. }
  split; [discriminate|].
  split.
  - intros msg _ Hc. rewrite Hc. reflexivity.
  - intros response _ Hc Hb. rewrite Hc.
    rewrite search_array_none; [reflexivity|].
    destruct Hb as [Hb|Hb]; [left|right]; apply has_char_strip, Hb.
Qed.

(** ** What the two-step task leaves behind *)

Lemma mem_in (x : string) (xs : list string) : mem x xs = true <-> In x xs.
Proof.
  unfold mem. rewrite existsb_exists. split.
  - intros (y & Hy & E). apply String.eqb_eq in E. subst. exact Hy.
  - intros H. exists x. split; [exact H|apply String.eqb_refl].
Qed.

Lemma add_key_spec (k : string) (ks : list string) :
  List.NoDup ks ->
  List.NoDup (add_key k ks)
  /\ forall x, In x (add_key k ks) <-> In x ks \/ x = k.
Proof.
  intros Hnd. unfold add_key. destruct (mem k ks) eqn:E.
  - apply mem_in in E. split; [exact Hnd|].
    intros x. split; [auto|]. intros [H| ->]; assumption.
  - assert (Hk : ~ In k ks).
    { intros H. apply mem_in in H. congruence. }
    split.
    + apply List.NoDup_app; [exact Hnd|repeat constructor; intros []|].
      intros x Hx [<-|[]]. exact (Hk Hx).
    + intros x. rewrite in_app_iff. cbn. split.
      * intros [H|[H|[]]]; [left; exact H|right; symmetry; exact H].
      * intros [H|H]; [left; exact H|right; left; symmetry; exact H].
Qed.

Lemma keys_fold_spec (l : list string) :
  forall acc,
    List.NoDup acc ->
    List.NoDup (fold_left (fun ks k => add_key k ks) l acc)
    /\ forall x,
         In x (fold_left (fun ks k => add_key k ks) l acc) <-> In x acc \/ In x l.
Proof.
  induction l as [|k l IH]; intros acc Hnd.
  - split; [exact Hnd|]. intros x. cbn. split; [intros H; left; exact H|].
    intros [H|[]]. exact H.
  - destruct (add_key_spec k acc Hnd) as [Hnd' Hin].
    destruct (IH (add_key k acc) Hnd') as [H1 H2].
    split; [exact H1|]. intros x. cbn [fold_left]. rewrite H2, Hin. cbn.
    split.
    + intros [[H|H]|H]; [left; exact H|right; left; symmetry; exact H
                         |right; right; exact H].
    + intros [H|[H|H]]; [left; left; exact H|left; right; symmetry; exact H
                         |right; exact H].
Qed.

(** X7. The files analysed that a successful two-step task reports are
    never empty and hold no path twice; each of them was selected and could
    be read, and their number is the [total_files] reported. *)
Theorem files_analyzed_are_distinct_and_read
    (task : string) (project_id : option Z) (w w1 : World)
    (files_analyzed : list string) (total_files total_chars : Z)
    (response : string) :
  process_task_two_step task project_id w
  = (Ret (TaskSuccess files_analyzed total_files total_chars response), w1) ->
  files_analyzed <> []
  /\ List.NoDup files_analyzed
  /\ total_files = Z.of_nat (length files_analyzed)
  /\ exists selected w0,
       identify_relevant_files task w = (Ret selected, w0)
       /\ forall f, In f files_analyzed ->
                    In f selected /\ readable w f = true.
Proof.
  intros Hproc. rewrite process_task_two_step_eq in Hproc.
  destruct (target_api_context w project_id) as [ctx|]; [|discriminate].
  destruct (identify_relevant_files_state task w)
    as (sel & w0 & Hsel & (Hfs & _) & _).
  rewrite Hsel in Hproc. destruct sel as [|f fs]; [discriminate|].
  destruct (read_relevant_spec (f :: fs) [] 0 w0)
    as (fc & total & Hread & Hkeys).
  rewrite Hread in Hproc. destruct fc as [|kv kvs]; [discriminate|].
  destruct (claude _ _) as [resp|]; [|discriminate].
  assert (E1 : files_analyzed = map fst (kv :: kvs)) by congruence.
  assert (E2 : total_files = Z.of_nat (length (kv :: kvs))) by congruence.
  clear Hproc.
  destruct (keys_fold_spec (List.filter (readable w0) (f :: fs)) []
              (List.NoDup_nil _)) as [Hnd Hin].
  cbn [map] in Hkeys. rewrite <- Hkeys in Hnd, Hin.
  split; [rewrite E1; discriminate|].
  split; [rewrite E1; exact Hnd|].
  split; [rewrite E2, E1, length_map; reflexivity|].
  exists (f :: fs), w0. split; [exact Hsel|].
  intros x Hx. rewrite E1 in Hx. apply Hin in Hx as [[]|Hx].
  apply List.filter_In in Hx as [Hx Hr]. split; [exact Hx|].
  rewrite <- (readable_fs w w0 x Hfs). exact Hr.
Qed.

(** X8. A successful two-step task adds two messages to the conversation
    of the agent, the request and the answer, one record of type analyze
    with the files analysed to the history, and the answer as one finding
    to the saved context. *)
Theorem successful_task_is_recorded
    (task : string) (project_id : option Z) (w w1 : World)
    (files_analyzed : list string) (total_files total_chars : Z)
    (response : string) :
  process_task_two_step task project_id w
  = (Ret (TaskSuccess files_analyzed total_files total_chars response), w1) ->
  exists request,
    w_conversation w1
    = w_conversation w ++
      [mkMessage "user" request; mkMessage "assistant" response]
    /\ history (w_db w1)
       = history (w_db w) ++
         [mkRecord None None files_analyzed "analyze" (take 200 task)
            (Some (take 1000 response))]
    /\ context (w_db w1)
       = context (w_db w) ++
         [mkContext "finding" (Some ("Analysis: " +:+ take 50 task +:+ "..."))
            response ["auto-generated"; "task-analysis"]].
Proof.
  intros Hproc. rewrite process_task_two_step_eq in Hproc.
  destruct (target_api_context w project_id) as [ctx|]; [|discriminate].
  destruct (identify_relevant_files_frame task w) as (sel & w0 & Hsel & Hw0).
  rewrite Hsel in Hproc. destruct sel as [|f fs]; [discriminate|].
  destruct (read_relevant_spec (f :: fs) [] 0 w0)
    as (fc & total & Hread & _).
  rewrite Hread in Hproc. destruct fc as [|kv kvs]; [discriminate|].
  destruct (claude _ _) as [resp|]; [|discriminate].
  assert (E1 : files_analyzed = map fst (kv :: kvs)) by congruence.
  assert (E2 : response = resp) by congruence.
  assert (E3 : w1 = analysed_world task ctx (kv :: kvs) resp w0) by congruence.
  clear Hproc. subst response.
  assert (Hconv : w_conversation w0 = w_conversation w)
    by (destruct Hw0 as [-> | ->]; reflexivity).
  assert (Hdb : w_db w0 = w_db w) by (destruct Hw0 as [-> | ->]; reflexivity).
  eexists. rewrite E3, E1. unfold analysed_world, asked_world. cbn.
  rewrite Hconv, Hdb, <- app_assoc. repeat split.
Qed.


(** X9. When the generation call of the analysis raises, the two-step task
    returns the message as its error, and the request that failed stays in
    the conversation of the agent, where the next call will send it again;
    tables and files are as before. *)
Theorem failed_analysis_stays_in_conversation
    (task : string) (project_id : option Z) (w : World) (msg : string) :
  generation_fails task project_id w msg ->
  exists w1 request,
    process_task_two_step task project_id w = (Ret (TaskError msg), w1)
    /\ w_conversation w1 = w_conversation w ++ [mkMessage "user" request]
    /\ w_db w1 = w_db w
    /\ w_fs w1 = w_fs w.
Proof.
  intros (ctx & sel & w0 & fc & total & Hctx & Hsel & Hne & Hread & Hfc & Hgen).
  rewrite process_task_two_step_eq, Hctx, Hsel.
  destruct sel as [|f fs]; [congruence|]. rewrite Hread.
  destruct fc as [|kv kvs]; [congruence|]. rewrite Hgen.
  destruct (identify_relevant_files_frame task w) as (sel' & w0' & Hsel' & Hw0).
  rewrite Hsel in Hsel'. injection Hsel' as <- <-.
  eexists _, _. split; [reflexivity|].
  unfold asked_world, analysis_request. cbn.
  destruct Hw0 as [-> | ->]; repeat split.
Qed.

(** ** The guard and the files *)

Lemma rfind_dot_none (s : string) :
  has_char "." s = false -> rfind_dot s = None.
Proof.
  induction s as [|c s IH]; [reflexivity|]. cbn [has_char rfind_dot].
  intros H. apply orb_false_iff in H as [Hc Hs].
  rewrite (IH Hs), Hc. reflexivity.
Qed.

(** X10. The guard refuses every path whose last name has no dot after its
    first character: names without an extension, and names that are
    nothing but a dot and a word, such as [.env] or [.json]. *)
Theorem names_without_extension_are_refused (t : Tree) (p : Path) :
  has_char "." (drop 1 (name (absolute cwd p))) = false ->
  validate_target_path t p = false.
Proof.
  intros H.
  assert (Hs : suffix (absolute cwd p) = "").
  { unfold suffix. destruct (name (absolute cwd p)) as [|c s]; [reflexivity|].
    cbn [drop] in H. cbn [rfind_dot]. rewrite (rfind_dot_none s H).
    destruct (Ascii.eqb c "."); reflexivity. }
  unfold validate_target_path. rewrite Hs.
  destruct (relative_to _ _); [|reflexivity].
  destruct (negb (exists_ _ _ _)); reflexivity.
Qed.




(** ** The two actions on a ticket and the rows of the table *)

Lemma same_id_same_row (l : list ProposedChange) (c c' : ProposedChange) :
  List.NoDup (map pc_id l) -> In c l -> In c' l -> pc_id c = pc_id c' -> c = c'.
Proof.
  intros Hnd Hc Hc' E.
  pose proof (find_by_id l c Hnd Hc) as F.
  pose proof (find_by_id l c' Hnd Hc') as F'.
  rewrite E in F. congruence.
Qed.

Lemma in_for_ticket (ticket_id : Z) (w : World) (c : ProposedChange) :
  In c (get_proposed_changes_for_ticket ticket_id w)
  <-> In c (changes (w_db w)) /\ Z_opt_eqb (pc_ticket_id c) ticket_id = true.
Proof.
  unfold get_proposed_changes_for_ticket.
  rewrite in_order_by_created_desc. apply List.filter_In.
Qed.

Lemma reject_changes_cons (change : ProposedChange)
    (rest : list ProposedChange) (w : World) :
  reject_changes (change :: rest) w =
  if is_pending (pc_status change)
  then reject_changes rest (snd (reject_proposed_change (pc_id change) w))
  else reject_changes rest w.
Proof.
  simpl. destruct (is_pending (pc_status change)); [|reflexivity].
  unfold bind. rewrite reject_proposed_change_eq.
  destruct (get_proposed_change (pc_id change) w) as [c|]; [|reflexivity].
  destruct (negb (is_pending (pc_status c))); reflexivity.
Qed.

(** The loop of the reject action on rows of the table with distinct ids *)
Lemma reject_changes_spec (l : list ProposedChange) :
  forall w : World,
    List.NoDup (map pc_id l) ->
    (forall c, In c l -> get_proposed_change (pc_id c) w = Some c) ->
    exists w1,
      reject_changes l w = (Ret tt, w1)
      /\ (forall c, In c l ->
            get_proposed_change (pc_id c) w1
            = Some (if is_pending (pc_status c)
                    then with_status Rejected (w_now w) c else c))
      /\ (forall id, ~ In id (map pc_id l) ->
            get_proposed_change id w1 = get_proposed_change id w)
      /\ w_fs w1 = w_fs w
      /\ w_written w1 = w_written w
      /\ tickets (w_db w1) = tickets (w_db w)
      /\ history (w_db w1) = history (w_db w)
      /\ w_now w1 = w_now w.
Proof.
  induction l as [|c l IH]; intros w Hnd Hget.
  { exists w. repeat split; try reflexivity. intros c []. }
  inversion Hnd as [|? ? Hnotin Hnd']; subst.
  assert (Gc : get_proposed_change (pc_id c) w = Some c)
    by (apply Hget; left; reflexivity).
  rewrite reject_changes_cons.
  destruct (is_pending (pc_status c)) eqn:Pc.
  - rewrite reject_proposed_change_eq, Gc, Pc. cbn [negb snd].
    set (wr := snd (update_proposed_change_status (pc_id c) Rejected w)).
    assert (Hother : forall id, id <> pc_id c ->
              get_proposed_change id wr = get_proposed_change id w).
    { intros id Hne. unfold get_proposed_change, wr. simpl.
      apply find_update_changes_other; [exact Hne|reflexivity]. }
    assert (Hself : get_proposed_change (pc_id c) wr
                    = Some (with_status Rejected (w_now w) c)).
    { unfold get_proposed_change, wr in *. simpl.
      rewrite find_update_changes by reflexivity. rewrite Gc. reflexivity. }
    destruct (IH wr Hnd') as (w1 & H1 & H2 & H3 & H4 & H5 & H6 & H7 & H8).
    { intros c' Hc'. rewrite Hother; [apply Hget; right; exact Hc'|].
      intros E. apply Hnotin. rewrite <- E. apply in_map. exact Hc'. }
    exists w1. split; [exact H1|]. split.
    { intros c' [<-|Hc'].
      - rewrite Pc, (H3 _ Hnotin). exact Hself.
      - apply H2. exact Hc'. }
    split.
    { intros id Hid. rewrite H3.
      - apply Hother. intros E. apply Hid. left. symmetry. exact E.
      - intros Hin. apply Hid. right. exact Hin. }
    repeat split; assumption.
  - destruct (IH w Hnd') as (w1 & H1 & H2 & H3 & H4 & H5 & H6 & H7 & H8).
    { intros c' Hc'. apply Hget. right. exact Hc'. }
    exists w1. split; [exact H1|]. split.
    { intros c' [<-|Hc'].
      - rewrite Pc, (H3 _ Hnotin). exact Gc.
      - apply H2. exact Hc'. }
    split.
    { intros id Hid. apply H3. intros Hin. apply Hid. right. exact Hin. }
    repeat split; assumption.
Qed.

Lemma api_ticket_ai_action_reject_eq (ticket_id : Z) (message : string) (w : World) :
  api_ticket_ai_action ticket_id "reject" message w =
  match get_ticket_by_id ticket_id w with
  | None => (Ret (ActionError 404 "Ticket not found"), w)
  | Some _ =>
      (reject_changes (get_proposed_changes_for_ticket ticket_id w);;
       update_ticket_ai_status ticket_id Rejected;;
       ret ActionRejected) w
  end.
Proof.
  unfold api_ticket_ai_action.
  change (strip "reject") with "reject".
  change (negb (mem "reject" ["accept"; "reject"; "probe"])) with false.
  cbv iota. unfold bind at 1. unfold get_world.
  destruct (get_ticket_by_id ticket_id w); reflexivity.
Qed.

(** X12. The reject action on a ticket, in a table with distinct ids,
    succeeds and turns exactly the pending changes of that ticket to
    rejected, stamped with the time of the call; every other row, of
    another ticket or already resolved, is as before.  No file is touched
    and nothing is recorded in the history; the suggestion of the ticket is
    marked rejected and the status of the ticket stays what it was. *)
Theorem ticket_reject_marks_its_pending_rows
    (w : World) (ticket_id : Z) (message : string) (ticket : Ticket) :
  List.NoDup (map pc_id (changes (w_db w))) ->
  get_ticket_by_id ticket_id w = Some ticket ->
  exists w1,
    api_ticket_ai_action ticket_id "reject" message w = (Ret ActionRejected, w1)
    /\ (forall c, In c (changes (w_db w)) ->
          get_proposed_change (pc_id c) w1
          = Some (if Z_opt_eqb (pc_ticket_id c) ticket_id
                     && is_pending (pc_status c)
                  then with_status Rejected (w_now w) c else c))
    /\ w_fs w1 = w_fs w
    /\ w_written w1 = w_written w
    /\ history (w_db w1) = history (w_db w)
    /\ exists ticket',
         get_ticket_by_id ticket_id w1 = Some ticket'
         /\ t_ai_suggestion_status ticket' = Some Rejected
         /\ t_status ticket' = t_status ticket.
Proof.
  intros Hnd Ht.
  rewrite api_ticket_ai_action_reject_eq, Ht.
  set (l := get_proposed_changes_for_ticket ticket_id w).
  assert (Hnd' : List.NoDup (map pc_id l)).
  { apply nodup_order_by_created_desc, nodup_filter_ids, Hnd. }
  assert (Hget : forall c, In c l -> get_proposed_change (pc_id c) w = Some c).
  { intros c Hc. apply find_by_id; [exact Hnd|].
    apply (proj1 (in_for_ticket ticket_id w c)) in Hc. apply Hc. }
  destruct (reject_changes_spec l w Hnd' Hget)
    as (w2 & H1 & H2 & H3 & H4 & H5 & H6 & H7 & H8).
  unfold bind. rewrite H1.
  unfold update_ticket_ai_status, update_tickets, ret.
  eexists. split; [reflexivity|].
  match goal with |- context [set_db ?d w2] => set (w1 := set_db d w2) in * end.
  assert (Hsame : forall id, get_proposed_change id w1 = get_proposed_change id w2)
    by reflexivity.
  split.
  { intros c Hc. rewrite Hsame.
    destruct (Z_opt_eqb (pc_ticket_id c) ticket_id) eqn:E; cbn [andb].
    - apply H2. apply in_for_ticket. split; assumption.
    - rewrite H3; [apply find_by_id; assumption|].
      intros Hin. apply in_map_iff in Hin as (c' & Hid & Hc').
      apply (proj1 (in_for_ticket ticket_id w c')) in Hc'. destruct Hc' as [Hc' E'].
      assert (c' = c)
        by (apply (same_id_same_row (changes (w_db w))); assumption).
      subst c'. congruence. }
  split; [exact H4|]. split; [exact H5|]. split; [exact H7|].
  unfold get_ticket_by_id in *. unfold w1. cbn [w_db set_db tickets set_tickets].
  rewrite find_update_tickets by reflexivity. rewrite H6, Ht. cbn [option_map].
  eexists. split; [reflexivity|]. split; reflexivity.
Qed.

(** X13. The accept action on a ticket, in a table with distinct ids,
    leaves every row that is not a pending change of that ticket exactly as
    it was: the changes of other tickets, and the changes of this ticket
    that were resolved before.  The status of every other ticket is as
    before too. *)
Theorem ticket_accept_leaves_other_rows
    (w : World) (ticket_id : Z) (message : string) (ticket : Ticket) :
  List.NoDup (map pc_id (changes (w_db w))) ->
  get_ticket_by_id ticket_id w = Some ticket ->
  forall r w1,
    api_ticket_ai_action ticket_id "accept" message w = (r, w1) ->
    (forall c, In c (changes (w_db w)) ->
       Z_opt_eqb (pc_ticket_id c) ticket_id && is_pending (pc_status c) = false ->
       get_proposed_change (pc_id c) w1 = Some c)
    /\ (forall id, id <> ticket_id ->
          get_ticket_by_id id w1 = get_ticket_by_id id w).
Proof.
  intros Hnd Ht r w1 Hrun.
  rewrite api_ticket_ai_action_accept_eq, Ht in Hrun.
  unfold bind in Hrun. rewrite accept_changes_skips in Hrun.
  set (pending := List.filter (fun c => is_pending (pc_status c))
                    (get_proposed_changes_for_ticket ticket_id w)) in *.
  assert (Hin : forall c, In c pending ->
            In c (changes (w_db w))
            /\ Z_opt_eqb (pc_ticket_id c) ticket_id = true
            /\ is_pending (pc_status c) = true).
  { intros c Hc. apply List.filter_In in Hc as [Hc Hp].
    apply (proj1 (in_for_ticket ticket_id w c)) in Hc. destruct Hc.
    repeat split; assumption. }
  assert (Hnd' : List.NoDup (map pc_id pending)).
  { apply nodup_filter_ids, nodup_order_by_created_desc, nodup_filter_ids, Hnd. }
  assert (Hget : forall c, In c pending -> get_proposed_change (pc_id c) w = Some c).
  { intros c Hc. apply find_by_id; [exact Hnd|apply Hin; exact Hc]. }
  assert (Hpen : forall c, In c pending -> is_pending (pc_status c) = true).
  { intros c Hc. apply Hin. exact Hc. }
  destruct (accept_changes_spec pending [] w Hnd' Hget Hpen)
    as (w2 & H1 & H2 & H3 & H4 & H5).
  cbv zeta in H1. rewrite H1 in Hrun.
  unfold update_ticket_ai_status, update_tickets, ret in Hrun.
  injection Hrun as <- <-.
  match goal with |- context [set_db ?d w2] => set (w1 := set_db d w2) in * end.
  assert (Hsame : forall id, get_proposed_change id w1 = get_proposed_change id w2)
    by reflexivity.
  split.
  - intros c Hc Hout. rewrite Hsame, H3; [apply find_by_id; assumption|].
    intros Hi. apply in_map_iff in Hi as (c' & Hid & Hc').
    destruct (Hin c' Hc') as (Hc'' & E1 & E2).
    assert (c' = c)
        by (apply (same_id_same_row (changes (w_db w))); assumption).
    subst c'. rewrite E1, E2 in Hout. discriminate.
  - intros id Hne. unfold get_ticket_by_id, w1.
    cbn [w_db set_db tickets set_tickets]. rewrite H5.
    generalize (tickets (w_db w)). intros l.
    induction l as [|t l IH]; [reflexivity|]. cbn [map List.find].
    destruct (t_id t =? ticket_id) eqn:E.
    + cbn [t_id]. apply Z.eqb_eq in E.
      destruct (t_id t =? id) eqn:E'; [apply Z.eqb_eq in E'; lia|exact IH].
    + destruct (t_id t =? id); [reflexivity|exact IH].
Qed.

(** ** The order of the rows read from the table *)

Lemma insert_desc_perm (c : ProposedChange) (l : list ProposedChange) :
  Permutation (insert_desc c l) (c :: l).
Proof.
  induction l as [|x l IH]; simpl; [reflexivity|].
  destruct (pc_created_at x <? pc_created_at c); [reflexivity|].
  rewrite IH. apply perm_swap.
Qed.

Lemma insert_desc_sorted (c : ProposedChange) (l : list ProposedChange) :
  StronglySorted newer_first l -> StronglySorted newer_first (insert_desc c l).
Proof.
  induction l as [|x l IH]; simpl; intros Hs.
  - constructor; constructor.
  - apply StronglySorted_inv in Hs as [Hs Hx].
    destruct (Z.ltb_spec (pc_created_at x) (pc_created_at c)) as [Hlt|Hge].
    + constructor; [constructor; assumption|].
      constructor; [unfold newer_first; lia|].
      eapply List.Forall_impl; [|exact Hx]. unfold newer_first. intros a Ha. lia.
    + constructor; [apply IH; exact Hs|].
      rewrite (insert_desc_perm c l). constructor; [exact Hge|exact Hx].
Qed.

(** X14. The changes of a ticket and the pending changes are read newest
    first: each list is ordered by decreasing creation time and holds
    exactly the rows of the table that match, each as often as the table
    has it. *)
Theorem changes_are_read_newest_first (w : World) (ticket_id : Z) :
  StronglySorted newer_first (get_proposed_changes_for_ticket ticket_id w)
  /\ Permutation (get_proposed_changes_for_ticket ticket_id w)
       (List.filter (fun c => Z_opt_eqb (pc_ticket_id c) ticket_id)
          (changes (w_db w)))
  /\ StronglySorted newer_first (get_pending_proposed_changes w)
  /\ Permutation (get_pending_proposed_changes w)
       (List.filter (fun c => is_pending (pc_status c)) (changes (w_db w))).
Proof.
  assert (Hs : forall l, StronglySorted newer_first (order_by_created_desc l)).
  { induction l as [|c l IH]; [constructor|]. apply insert_desc_sorted, IH. }
  assert (Hp : forall l, Permutation (order_by_created_desc l) l).
  { induction l as [|c l IH]; [reflexivity|].
    unfold order_by_created_desc in *. simpl.
    rewrite insert_desc_perm, IH. reflexivity. }
  unfold get_proposed_changes_for_ticket, get_pending_proposed_changes.
  repeat split; auto.
Qed.


(** ** The array in the answer of the selection *)

Lemma upto_close_spec (s m : string) :
  upto_close s = Some m <->
  exists body post,
    s = body +:+ "]" +:+ post /\ has_char "]" body = false /\ m = body +:+ "]".
Proof.
  revert m. induction s as [|c s IH]; intros m; cbn [upto_close].
  - split; [discriminate|]. intros (body & post & E & _).
    destruct body; discriminate.
  - destruct (Ascii.eqb_spec c "]") as [->|Hc].
    + split.
      * intros [= <-]. exists "", s. repeat split.
      * intros (body & post & E & Hb & ->). destruct body as [|b body].
        -- reflexivity.
        -- injection E as <- _. discriminate.
    + split.
      * destruct (upto_close s) as [m'|] eqn:U; [|discriminate].
        intros [= <-]. destruct (proj1 (IH m') eq_refl) as (body & post & -> & Hb & ->).
        exists (String c body), post. repeat split.
        cbn [has_char]. rewrite Hb.
        destruct (Ascii.eqb_spec c "]"); [contradiction|reflexivity].
      * intros (body & post & E & Hb & ->). destruct body as [|b body].
        -- injection E as -> _. contradiction.
        -- injection E as <- ->. cbn [has_char] in Hb.
           apply orb_false_iff in Hb as [_ Hb].
           rewrite (proj2 (IH (body +:+ "]"))); [reflexivity|].
           exists body, post. repeat split. exact Hb.
Qed.

(** X15. What [identify_relevant_files] takes for the array in the answer
    is the text from the first opening bracket to the first closing bracket
    after it, and there is such a text exactly when a closing bracket
    follows the first opening one: an array that holds another array is
    cut at the end of the inner one. *)
Theorem search_array_first_brackets (s m : string) :
  search_array s = Some m <->
  exists pre body post,
    s = pre +:+ "[" +:+ body +:+ "]" +:+ post
    /\ has_char "[" pre = false
    /\ has_char "]" body = false
    /\ m = "[" +:+ body +:+ "]".
Proof.
  revert m. induction s as [|c s IH]; intros m; cbn [search_array].
  - split; [discriminate|]. intros (pre & body & post & E & _).
    destruct pre; discriminate.
  - destruct (Ascii.eqb_spec c "[") as [->|Hc].
    + split.
      * destruct (upto_close s) as [m'|] eqn:U; [|discriminate].
        intros [= <-].
        destruct (proj1 (upto_close_spec s m') U) as (body & post & -> & Hb & ->).
        exists "", body, post. repeat split. exact Hb.
      * intros (pre & body & post & E & Hp & Hb & ->). destruct pre as [|p pre].
        -- injection E as ->.
           rewrite (proj2 (upto_close_spec _ (body +:+ "]"))); [reflexivity|].
           exists body, post. repeat split. exact Hb.
        -- injection E as <- _. discriminate.
    + split.
      * intros H. destruct (proj1 (IH m) H) as (pre & body & post & -> & Hp & Hb & ->).
        exists (String c pre), body, post. repeat split; [|exact Hb].
        cbn [has_char]. rewrite Hp.
        destruct (Ascii.eqb_spec c "["); [contradiction|reflexivity].
      * intros (pre & body & post & E & Hp & Hb & ->). destruct pre as [|p pre].
        -- injection E as -> _. contradiction.
        -- injection E as <- ->. cbn [has_char] in Hp.
           apply orb_false_iff in Hp as [_ Hp].
           apply (proj2 (IH _)). exists pre, body, post. repeat split; assumption.
Qed.

(** ** The shape of a directive *)

Lemma contains_colon (s : string) :
  contains ":" s = true -> has_char ":" s = true.
Proof.
  induction s as [|c s IH]; [discriminate|].
  cbn [contains String.prefix has_char].
  destruct (ascii_dec ":" c) as [<-|Hc]; [reflexivity|].
  cbn [orb]. intros H. rewrite (IH H). apply orb_true_r.
Qed.

Lemma split1_first_colon (s : string) :
  has_char ":" s = true ->
  exists a b, s = a +:+ ":" +:+ b /\ no_colon a /\ split1 ":" s = [a; b].
Proof.
  unfold no_colon. induction s as [|c s IH]; [discriminate|].
  cbn [has_char split1 String.prefix].
  destruct (ascii_dec ":" c) as [<-|Hc].
  - intros _. exists "", s. repeat split. destruct s; reflexivity.
  - destruct (Ascii.eqb_spec c ":") as [->|_]; [contradiction|].
    cbn [orb]. intros H. destruct (IH H) as (a & b & -> & Ha & ->).
    exists (String c a), b. repeat split. cbn [has_char]. rewrite Ha.
    destruct (Ascii.eqb_spec c ":"); [congruence|reflexivity].
Qed.

(** X16. A line gives a directive only when, without the blanks around it,
    it is a dash, a blank, a text without colon, a colon and a rest: the
    path is that text and the instruction is that rest, both without the
    blanks around them.  The path so read never holds a colon, and the
    instruction never is the fallback made from the title of the ticket. *)
Theorem directive_is_cut_at_the_first_colon
    (title line file_path instruction : string) :
  directive_of_line title line = Some (file_path, instruction) ->
  exists a b,
    strip line = "- " +:+ a +:+ ":" +:+ b
    /\ no_colon a
    /\ file_path = strip a
    /\ instruction = strip b
    /\ no_colon file_path.
Proof.
  unfold directive_of_line, startswith.
  destruct (String.prefix "- " (strip line)) eqn:P; [|discriminate].
  destruct (contains ":" (strip line)) eqn:C; [|discriminate]. cbn [andb].
  destruct (prefix_inv _ _ P) as [rest E]. rewrite E in C |- *.
  change (drop 2 ("- " +:+ rest)) with rest.
  assert (Hc : has_char ":" rest = true).
  { apply contains_colon in C. exact C. }
  destruct (split1_first_colon rest Hc) as (a & b & -> & Ha & ->).
  cbn [length Nat.ltb Nat.leb nth]. intros [= <- <-].
  exists a, b. repeat split; [exact Ha|].
  apply has_char_strip. exact Ha.
Qed.

(** ** The files offered to the selection *)

Lemma scan_items_spec (t : Tree) (items : list Path) :
  forall files f,
    In f (scan_items t items files) ->
    In f files
    \/ exists item rel,
         In item items
         /\ is_file cwd t item = true
         /\ mem (suffix item) ALLOWED_EXTENSIONS = true
         /\ relative_to item TARGET_PROJECT_DIR = Some rel
         /\ hidden_or_skipped (to_str rel) = false
         /\ f = mkFileRef (to_str rel) (name item) (st_size_of cwd t item).
Proof.
  induction items as [|item rest IH]; intros files f; cbn [scan_items].
  { intros H. left. exact H. }
  assert (Hrest : In f (scan_items t rest files) ->
            In f files
            \/ exists item0 rel,
                 In item0 (item :: rest)
                 /\ is_file cwd t item0 = true
                 /\ mem (suffix item0) ALLOWED_EXTENSIONS = true
                 /\ relative_to item0 TARGET_PROJECT_DIR = Some rel
                 /\ hidden_or_skipped (to_str rel) = false
                 /\ f = mkFileRef (to_str rel) (name item0)
                          (st_size_of cwd t item0)).
  { intros H. destruct (IH files f H) as [Hf|(i & r & Hi & Hrest)];
      [left; exact Hf|].
    right. exists i, r. split; [right; exact Hi|exact Hrest]. }
  destruct (is_file cwd t item) eqn:F; cbn [andb]; [|exact Hrest].
  destruct (mem (suffix item) ALLOWED_EXTENSIONS) eqn:S; [|exact Hrest].
  destruct (relative_to item TARGET_PROJECT_DIR) as [rel|] eqn:R;
    [|intros H; left; exact H].
  cbv zeta. destruct (hidden_or_skipped (to_str rel)) eqn:Hd; [exact Hrest|].
  intros H. destruct (IH _ f H) as [Hf|(i & r & Hi & Hr)].
  - apply in_app_or in Hf as [Hf|[<-|[]]]; [left; exact Hf|].
    right. exists item, rel. repeat split; try assumption. left. reflexivity.
  - right. exists i, r. split; [right; exact Hi|exact Hr].
Qed.

(** X17. Every file that the scan of the target project offers to the
    selection is a regular file found by the scan, with a whitelisted
    extension, named by its path below the target directory as written.
    No component of that path starts with a dot, and none of the words
    [node_modules], [__pycache__], [venv], [.git] occurs anywhere in the
    path, not even in the middle of a name. *)
Theorem scanned_files_are_visible_sources
    (directory : string) (t : Tree) (f : FileRef) :
  In f (get_all_files_recursive directory t) ->
  (exists item rel,
     In item (rglob t (div TARGET_PROJECT_DIR directory))
     /\ is_file cwd t item = true
     /\ mem (suffix item) ALLOWED_EXTENSIONS = true
     /\ relative_to item TARGET_PROJECT_DIR = Some rel
     /\ f = mkFileRef (to_str rel) (name item) (st_size_of cwd t item))
  /\ (forall part, In part (split "/" (fr_path f)) -> startswith "." part = false)
  /\ (forall skip, In skip ["node_modules"; "__pycache__"; "venv"; ".git"] ->
        contains skip (fr_path f) = false).
Proof.
  unfold get_all_files_recursive. cbv zeta.
  destruct (negb (exists_ cwd t (div TARGET_PROJECT_DIR directory)));
    [intros []|].
  intros H. destruct (scan_items_spec _ _ _ _ H)
    as [[]|(item & rel & Hi & Hf & Hs & Hr & Hh & ->)].
  split; [exists item, rel; repeat split; assumption|].
  cbn [fr_path]. unfold hidden_or_skipped in Hh.
  apply orb_false_iff in Hh as [Hdot Hskip]. split.
  - intros part Hp.
    destruct (startswith "." part) eqn:E; [|reflexivity].
    assert (existsb (startswith ".") (split "/" (to_str rel)) = true).
    { apply List.existsb_exists. exists part. split; assumption. }
    congruence.
  - intros skip Hin.
    destruct (contains skip (to_str rel)) eqn:E; [|reflexivity].
    assert (existsb (fun skip => contains skip (to_str rel))
              ["node_modules"; "__pycache__"; "venv"; ".git"] = true).
    { apply List.existsb_exists. exists skip. split; assumption. }
    congruence.
Qed.


(** ** The guard on paths without [".."] and without links *)

Lemma walk_plain (links : nat) (t : Tree) :
  forall rest cur q n,
    plain_from t cur rest = true ->
    walk links t cur rest = Found q n -> q = cur ++ rest.
Proof.
  induction rest as [|name rest' IH]; intros cur q n; rewrite walk_eq.
  - intros _. destruct (node_at t cur); [|discriminate].
    intros [= <- _]. rewrite app_nil_r. reflexivity.
  - cbn [plain_from]. intros Hp.
    apply andb_true_iff in Hp as [Hp Hrest]. apply andb_true_iff in Hp as [Hd Hl].
    destruct (node_at t cur) as [[]|]; try discriminate.
    destruct (String.eqb name ".."); [discriminate|].
    destruct (t !! (cur ++ [name])) as [[]|]; try discriminate.
    + intros H. rewrite (IH _ _ _ Hrest H), <- app_assoc. reflexivity.
    + intros H. rewrite (IH _ _ _ Hrest H), <- app_assoc. reflexivity.
    + destruct rest'; discriminate.
Qed.

Lemma walk_plain_prefix (links : nat) (t : Tree) :
  forall a b cur q n,
    plain_from t cur (a ++ b) = true ->
    walk links t cur (a ++ b) = Found q n ->
    exists n', walk links t cur a = Found (cur ++ a) n'.
Proof.
  induction a as [|name a' IH]; intros b cur q n Hp Hw.
  - rewrite app_nil_r. rewrite walk_eq in Hw. rewrite walk_eq.
    destruct (node_at t cur) as [n0|].
    + exists n0. reflexivity.
    + destruct b; discriminate.
  - cbn [app] in Hp, Hw. cbn [plain_from] in Hp.
    apply andb_true_iff in Hp as [Hp Hrest]. apply andb_true_iff in Hp as [Hd Hl].
    rewrite walk_eq in Hw. rewrite walk_eq.
    destruct (node_at t cur) as [[]|]; try discriminate.
    destruct (String.eqb name ".."); [discriminate|].
    destruct (t !! (cur ++ [name])) as [[]|]; try discriminate.
    + destruct (IH _ _ _ _ Hrest Hw) as [n' E]. exists n'.
      rewrite E, <- app_assoc. reflexivity.
    + destruct (IH _ _ _ _ Hrest Hw) as [n' E]. exists n'.
      rewrite E, <- app_assoc. reflexivity.
    + destruct (a' ++ b); discriminate.
Qed.

Lemma is_prefix_app (xs ys : list string) :
  is_prefix xs ys = true -> exists r, ys = xs ++ r.
Proof.
  revert ys. induction xs as [|x xs IH]; intros ys H.
  - exists ys. reflexivity.
  - destruct ys as [|y ys]; [discriminate|]. cbn [is_prefix] in H.
    apply andb_true_iff in H as [Hx Hr]. apply String.eqb_eq in Hx. subst y.
    destruct (IH ys Hr) as [r ->]. exists r. reflexivity.
Qed.

Lemma parts_absolute (p : Path) : parts (absolute cwd p) = os_parts cwd p.
Proof. unfold absolute, os_parts. destruct (is_absolute p); reflexivity. Qed.

Lemma absolute_is_absolute (p : Path) : is_absolute (absolute cwd p) = true.
Proof.
  unfold absolute. destruct (is_absolute p) eqn:E; [exact E|reflexivity].
Qed.

(** X18. On a path that the kernel follows as written, with no [".."]
    among its components and no symbolic link on the way, the guard is
    sound: a path it lets through stands for a place strictly below the
    target directory, provided the name of the target directory itself
    carries no whitelisted extension. *)
Theorem guard_is_sound_on_plain_paths (t : Tree) (p : Path) :
  plain t p = true ->
  mem (suffix TARGET_PROJECT_DIR) ALLOWED_EXTENSIONS = false ->
  validate_target_path t p = true ->
  resolves_inside_target t p = true.
Proof.
  intros Hplain Htarget Hv.
  apply validate_target_path_true in Hv as ([rel Hrel] & Hex & Hsuf & _).
  unfold relative_to in Hrel.
  destruct (root_eqb (root (absolute cwd p)) (root TARGET_PROJECT_DIR)) eqn:Hroot;
    [|discriminate].
  destruct (is_prefix (parts TARGET_PROJECT_DIR) (parts (absolute cwd p))) eqn:Hpre;
    [|discriminate].
  clear Hrel. rewrite parts_absolute in Hpre.
  assert (Habs : is_absolute TARGET_PROJECT_DIR = true).
  { pose proof (absolute_is_absolute p) as Ha. unfold is_absolute in *.
    destruct (root (absolute cwd p)), (root TARGET_PROJECT_DIR);
      try discriminate; reflexivity. }
  destruct (is_prefix_app _ _ Hpre) as [r Hr].
  unfold plain in Hplain. unfold exists_, locate in Hex.
  destruct (walk max_links t [] (os_parts cwd p)) as [q n| |] eqn:Hw;
    try discriminate.
  pose proof (walk_plain _ _ _ _ _ _ Hplain Hw) as Hq. cbn [app] in Hq.
  rewrite Hr in Hplain, Hw.
  destruct (walk_plain_prefix _ _ _ _ _ _ _ Hplain Hw) as [n' Hbase].
  cbn [app] in Hbase. rewrite <- Hr in Hw.
  unfold resolves_inside_target, realpath, locate.
  rewrite os_parts_absolute, Hw.
  assert (Hos : os_parts cwd TARGET_PROJECT_DIR = parts TARGET_PROJECT_DIR).
  { unfold os_parts. rewrite Habs. reflexivity. }
  rewrite Hos, Hbase. unfold strict_descendant. subst q.
  rewrite Hpre. cbn [andb]. apply Nat.ltb_lt.
  rewrite Hr, length_app.
  destruct r as [|x r]; [|cbn [length]; lia].
  exfalso. rewrite app_nil_r in Hr.
  assert (Hs : suffix (absolute cwd p) = suffix TARGET_PROJECT_DIR).
  { unfold suffix, name. rewrite parts_absolute, Hr. reflexivity. }
  congruence.
Qed.


(** ** Modifying a file in one step *)





(** ** The routes of a single change, of a ticket and of the listing *)

Lemma os_error_nonempty (e : Z) (p : Path) : truthy (os_error e p) = true.
Proof.
  unfold os_error, strerror.
  destruct (e =? 2); [reflexivity|]. destruct (e =? 20); [reflexivity|].
  destruct (e =? 21); reflexivity.
Qed.

Lemma write_text_error (t : Tree) (p : Path) (s msg : string) :
  write_text cwd t p s = inl msg -> truthy msg = true.
Proof.
  unfold write_text.
  destruct (locate cwd t p) as [q [| |]| |]; try discriminate;
    intros [= <-]; apply os_error_nonempty.
Qed.

(** X20. The routes that accept and reject a single change answer 400
    exactly when the change was not resolved by the call, and then nothing
    has changed; they answer 200 with the id of the change when it was.
    Every error these two methods return has a message that is not empty,
    so that the test of the routes never takes an error for a success. *)
Theorem change_routes_answer_400_on_error (change_id : Z) (w : World) :
  ((exists msg,
      api_accept_proposed_change change_id w = (Ret (400, ApplyError msg), w)
      /\ msg <> "")
   \/ (exists path w1,
         api_accept_proposed_change change_id w
         = (Ret (200, Applied change_id path), w1)
         /\ accepted_in w1 change_id = true))
  /\ ((exists msg,
         api_reject_proposed_change change_id w = (Ret (400, RejectError msg), w)
         /\ msg <> "")
      \/ (exists w1,
            api_reject_proposed_change change_id w
            = (Ret (200, RejectedOk change_id), w1)
            /\ w_fs w1 = w_fs w)).
Proof.
  unfold api_accept_proposed_change, api_reject_proposed_change, bind.
  rewrite apply_proposed_change_eq, reject_proposed_change_eq.
  destruct (get_proposed_change change_id w) as [change|] eqn:G.
  2: { split; left; eexists; (split; [reflexivity|discriminate]). }
  destruct (is_pending (pc_status change)) eqn:P; cbn [negb].
  2: { split; left; eexists; (split; [reflexivity|discriminate]). }
  split.
  - destruct (negb (validate_target_path (w_fs w) (target_of change))).
    { left. eexists. split; [reflexivity|discriminate]. }
    destruct (write_text cwd (w_fs w) (target_of change)
                (pc_proposed_content change)) as [msg|t'] eqn:W.
    + left. exists msg. pose proof (write_text_error _ _ _ _ W) as Hm.
      cbn [apply_error opt_truthy]. rewrite Hm. split; [reflexivity|].
      intros ->. discriminate.
    + right. eexists _, _. split; [reflexivity|].
      pose proof (find_some_id _ _ _ G) as Hid. subst change_id.
      apply accepted_in_accepted_world. exact G.
  - right. eexists. split; reflexivity.
Qed.

Lemma update_absent_ticket (id : Z) (f : Ticket -> Ticket) (l : list Ticket) :
  List.find (fun t => t_id t =? id) l = None ->
  map (fun t => if t_id t =? id then f t else t) l = l
  /\ existsb (fun t => t_id t =? id) l = false.
Proof.
  induction l as [|t l IH]; [split; reflexivity|]. cbn [List.find map existsb].
  destruct (t_id t =? id); [discriminate|]. intros H.
  destruct (IH H) as [-> ->]. split; reflexivity.
Qed.

Lemma existsb_found_ticket (id : Z) (l : list Ticket) (t : Ticket) :
  List.find (fun t => t_id t =? id) l = Some t ->
  existsb (fun t => t_id t =? id) l = true.
Proof.
  intros H. apply List.find_some in H as [Hin Hid].
  apply List.existsb_exists. exists t. split; assumption.
Qed.

(** X21. The route that sets the status of a ticket refuses, with 400 and
    without a change, every word that is not one of the four statuses.
    With one of them it answers whether the ticket exists; an unknown
    ticket leaves the table as it is, a known one gets the status and the
    time of the call, and keeps all the rest: its suggestion and the state
    of the suggestion are not touched, nor is any proposed change or
    file. *)
Theorem ticket_status_route_sets_only_the_status
    (ticket_id : Z) (status : string) (w : World) :
  (ticket_status_of (strip status) = None ->
     api_update_ticket_status ticket_id status w
     = (Ret (StatusError 400 "Invalid status"), w))
  /\ (forall st,
        ticket_status_of (strip status) = Some st ->
        exists found w1,
          api_update_ticket_status ticket_id status w = (Ret (StatusDone found), w1)
          /\ changes (w_db w1) = changes (w_db w)
          /\ w_fs w1 = w_fs w
          /\ match get_ticket_by_id ticket_id w with
             | None => found = false /\ tickets (w_db w1) = tickets (w_db w)
             | Some t =>
                 found = true
                 /\ get_ticket_by_id ticket_id w1
                    = Some (mkTicket (t_id t) (t_title t) (t_description t)
                              (t_category t) st (t_priority t) (t_project_id t)
                              (t_ai_suggestion t) (t_ai_suggestion_status t)
                              (t_ai_files_analyzed t) (w_now w))
             end).
Proof.
  unfold api_update_ticket_status. split.
  { intros ->. reflexivity. }
  intros st ->. unfold bind, update_ticket_status, update_tickets, ret.
  eexists _, _. split; [reflexivity|]. split; [reflexivity|].
  split; [reflexivity|].
  unfold get_ticket_by_id. cbn [w_db set_db tickets set_tickets].
  destruct (List.find (fun t => t_id t =? ticket_id) (tickets (w_db w)))
    as [t|] eqn:F.
  - split; [exact (existsb_found_ticket _ _ _ F)|].
    rewrite find_update_tickets by reflexivity. rewrite F. reflexivity.
  - destruct (update_absent_ticket ticket_id
                (fun t => mkTicket (t_id t) (t_title t) (t_description t)
                            (t_category t) st (t_priority t) (t_project_id t)
                            (t_ai_suggestion t) (t_ai_suggestion_status t)
                            (t_ai_files_analyzed t) (w_now w))
                _ F) as [Hm He].
    split; [exact He|exact Hm].
Qed.

Lemma list_items_spec (t : Tree) (items : list Path) :
  forall files out,
    list_items t items files = inr out ->
    exists new,
      out = files ++ new
      /\ Forall2
           (fun item e =>
              exists rel,
                relative_to item TARGET_PROJECT_DIR = Some rel
                /\ e = mkFileEntry (name item) (to_str rel)
                         (st_size_of cwd t item) (st_mtime t item))
           (List.filter
              (fun item =>
                 is_file cwd t item && mem (suffix item) ALLOWED_EXTENSIONS)
              items)
           new.
Proof.
  induction items as [|item rest IH]; intros files out; cbn [list_items List.filter].
  { intros [= <-]. exists []. rewrite app_nil_r. split; [reflexivity|constructor]. }
  destruct (is_file cwd t item && mem (suffix item) ALLOWED_EXTENSIONS).
  - destruct (relative_to item TARGET_PROJECT_DIR) as [rel|] eqn:R; [|discriminate].
    intros H. destruct (IH _ _ H) as (new & -> & Hf).
    eexists (_ :: new). split; [rewrite <- app_assoc; reflexivity|].
    constructor; [|exact Hf]. exists rel. split; [exact R|reflexivity].
  - apply IH.
Qed.

(** X22. When [list_files] answers with a list, the directory exists and
    is a directory, and the list holds, in the order of the directory, one
    entry for each of its regular files with a whitelisted extension and
    nothing else; each entry is named by its path below the target
    directory as written.  Unlike the recursive scan, it does not leave
    out names that start with a dot. *)
Theorem list_files_lists_the_allowed_files
    (directory : string) (t : Tree) (files : list FileEntry) (d : string) :
  list_files directory t = ListOk files d ->
  d = directory
  /\ is_dir t (div TARGET_PROJECT_DIR directory) = true
  /\ Forall2
       (fun item e =>
          exists rel,
            relative_to item TARGET_PROJECT_DIR = Some rel
            /\ e = mkFileEntry (name item) (to_str rel)
                     (st_size_of cwd t item) (st_mtime t item))
       (List.filter
          (fun item =>
             is_file cwd t item && mem (suffix item) ALLOWED_EXTENSIONS)
          (iterdir t (div TARGET_PROJECT_DIR directory)))
       files.
Proof.
  unfold list_files. cbv zeta.
  destruct (exists_ cwd t (div TARGET_PROJECT_DIR directory)); cbn [negb orb];
    [|discriminate].
  destruct (is_dir t (div TARGET_PROJECT_DIR directory)); cbn [negb];
    [|discriminate].
  destruct (list_items t (iterdir t (div TARGET_PROJECT_DIR directory)) [])
    as [msg|out] eqn:L; [discriminate|].
  intros [= <- <-]. destruct (list_items_spec _ _ _ _ L) as (new & -> & Hf).
  repeat split. exact Hf.
Qed.


(** X23. The route that proposes a change for a ticket takes the path and
    the instruction without the blanks around them.  It answers 400 when
    one of them is blank and 404 when the ticket is unknown, and has done
    nothing then.  For a known ticket, a proposal that succeeds is answered
    with 200 and has stored one pending row that carries the ticket, the
    path and the instruction; a proposal that fails stores nothing.  In no
    case is a file changed. *)
Theorem propose_route_attaches_the_change
    (ticket_id : Z) (file_path instruction : string) (w : World) :
  (is_empty (strip file_path) || is_empty (strip instruction) = true ->
     api_propose_change ticket_id file_path instruction w
     = (Ret (400, ProposeError "file_path and instruction required"), w))
  /\ (is_empty (strip file_path) || is_empty (strip instruction) = false ->
      match get_ticket_by_id ticket_id w with
      | None =>
          api_propose_change ticket_id file_path instruction w
          = (Ret (404, ProposeError "Ticket not found"), w)
      | Some _ =>
          exists code r w1,
            api_propose_change ticket_id file_path instruction w
            = (Ret (code, r), w1)
            /\ w_fs w1 = w_fs w
            /\ match r with
               | Proposed change_id p original proposed d =>
                   code = 200
                   /\ changes (w_db w1)
                      = changes (w_db w) ++
                        [mkChange change_id (Some ticket_id) (strip file_path)
                           original proposed (strip instruction) Pending
                           (w_now w) None]
                   /\ get_proposed_change change_id w1
                      = Some (mkChange change_id (Some ticket_id)
                                (strip file_path) original proposed
                                (strip instruction) Pending (w_now w) None)
               | ProposeError msg =>
                   code = (if truthy msg then 400 else 200)
                   /\ changes (w_db w1) = changes (w_db w)
               end
      end).
Proof.
  unfold api_propose_change. split.
  { intros ->. reflexivity. }
  intros ->. cbv iota.
  destruct (get_ticket_by_id ticket_id w) as [ticket|] eqn:G;
    unfold bind at 1; unfold get_world; cbv beta iota; rewrite G;
    [|reflexivity].
  unfold bind, propose_file_change, try_except, bind.
  destruct (read_file_state (strip file_path) w) as [[msg|p c sz e] ->].
  { unfold propose_error, opt_truthy, ret. cbv beta iota.
    destruct (truthy msg) eqn:T; eexists _, _, _;
      (split; [reflexivity|]); (split; [reflexivity|]);
      rewrite T; split; reflexivity. }
  unfold messages_create.
  destruct (claude (w_calls w) _) as [proposed|msg].
  - rewrite create_proposed_change_eq. cbv zeta.
    unfold propose_error, opt_truthy, ret. cbv beta iota.
    eexists _, _, _. split; [reflexivity|]. split; [reflexivity|].
    split; [reflexivity|]. split; [reflexivity|].
    unfold get_proposed_change. cbn [w_db set_db changes set_changes].
    match goal with |- List.find _ (_ ++ [?row]) = _ =>
      exact (find_fresh (changes (w_db w)) row eq_refl) end.
  - unfold propose_error, opt_truthy, ret. cbv beta iota.
    destruct (truthy msg) eqn:T; eexists _, _, _;
      (split; [reflexivity|]); (split; [reflexivity|]);
      rewrite T; split; reflexivity.
Qed.



(** ** What ai-resolve never does *)

Lemma find_update_tickets_status (id id' : Z) (f : Ticket -> Ticket)
    (l : list Ticket) :
  (forall t, t_id (f t) = t_id t) ->
  (forall t, t_status (f t) = t_status t) ->
  option_map t_status
    (List.find (fun t => t_id t =? id')
       (map (fun t => if t_id t =? id then f t else t) l))
  = option_map t_status (List.find (fun t => t_id t =? id') l).
Proof.
  intros Hid Hst. induction l as [|t l IH]; [reflexivity|]. cbn [map List.find].
  destruct (t_id t =? id).
  - rewrite Hid. destruct (t_id t =? id'); [|exact IH].
    cbn [option_map]. rewrite Hst. reflexivity.
  - destruct (t_id t =? id'); [reflexivity|exact IH].
Qed.

(** X25. ai-resolve always answers, whatever the ticket, the files and the
    generation service do, and however it ends it has changed no file, has
    left every row of the proposed changes as it was, and has changed the
    status of no ticket.  All it may add are pending changes that belong to
    the ticket. *)
Theorem ai_resolve_only_adds_pending_rows (ticket_id : Z) (w : World) :
  exists r w1 new,
    api_ticket_ai_resolve ticket_id w = (Ret r, w1)
    /\ w_fs w1 = w_fs w
    /\ changes (w_db w1) = changes (w_db w) ++ new
    /\ Forall
         (fun c => pc_status c = Pending /\ pc_ticket_id c = Some ticket_id)
         new
    /\ forall id,
         option_map t_status (get_ticket_by_id id w1)
         = option_map t_status (get_ticket_by_id id w).
Proof.
  rewrite api_ticket_ai_resolve_eq.
  destruct (get_ticket_by_id ticket_id w) as [ticket|] eqn:Ht.
  2: { exists (ResolveError 404 "Ticket not found"), w, [].
       rewrite app_nil_r. repeat split. constructor. }
  pose proof (find_some_ticket_id _ _ _ Ht) as Hid.
  destruct (process_task_two_step_keeps (ticket_task w ticket)
              (t_project_id ticket) w)
    as (result & w0 & Hp & (Hfs & _ & Hch & Htk & _)).
  rewrite Hp.
  destruct (opt_truthy (result_error result)).
  { eexists _, w0, []. rewrite app_nil_r. split; [reflexivity|].
    split; [exact Hfs|]. split; [exact Hch|]. split; [constructor|].
    intros id. unfold get_ticket_by_id. rewrite Htk. reflexivity. }
  unfold bind at 1. unfold update_ticket_ai_suggestion, update_tickets.
  match goal with |- context [set_db ?d w0] => set (wu := set_db d w0) end.
  assert (Hst : forall id,
            option_map t_status (get_ticket_by_id id wu)
            = option_map t_status (get_ticket_by_id id w)).
  { intros id. unfold get_ticket_by_id, wu.
    cbn [w_db set_db tickets set_tickets].
    rewrite find_update_tickets_status by reflexivity.
    rewrite Htk. reflexivity. }
  unfold bind.
  destruct (contains MARKER (result_response result)).
  - destruct (propose_lines_spec ticket (result_files_analyzed result)
                (directive_lines (result_response result)) [] wu)
      as (new & w1 & Hrun & Hnew & Htk1 & Hfs1 & Hall).
    rewrite Hrun. unfold ret. eexists _, w1, new. split; [reflexivity|].
    split; [rewrite Hfs1; exact Hfs|].
    split; [rewrite Hnew; unfold wu; cbn [w_db set_db changes set_tickets];
            rewrite Hch; reflexivity|].
    split.
    { eapply List.Forall_impl; [|exact Hall].
      intros c (_ & H1 & H2 & _). rewrite <- Hid. split; assumption. }
    intros id. rewrite <- Hst. unfold get_ticket_by_id. rewrite Htk1. reflexivity.
  - unfold ret. eexists _, wu, []. rewrite app_nil_r. split; [reflexivity|].
    split; [exact Hfs|]. split; [exact Hch|]. split; [constructor|exact Hst].
Qed.


(** ** What [read_file] gives *)

Lemma div_is_absolute (base : Path) (s : string) :
  is_absolute base = true -> is_absolute (div base s) = true.
Proof.
  intros H. unfold div, joinpath.
  destruct (is_absolute (parse s)) eqn:E; [exact E|exact H].
Qed.

Lemma guarded_target_is_absolute (t : Tree) (p : Path) :
  validate_target_path t p = true -> is_absolute TARGET_PROJECT_DIR = true.
Proof.
  intros Hv. apply validate_target_path_true in Hv as ([rel Hrel] & _).
  unfold relative_to in Hrel.
  destruct (root_eqb (root (absolute cwd p)) (root TARGET_PROJECT_DIR)) eqn:Hroot;
    [|discriminate].
  pose proof (absolute_is_absolute p) as Ha. unfold is_absolute in *.
  destruct (root (absolute cwd p)), (root TARGET_PROJECT_DIR);
    try discriminate; reflexivity.
Qed.

(** X26. [read_file] never raises and never changes anything.  When it
    gives a content, that content is what the file behind the path holds,
    the size reported is its length, the extension reported is that of the
    path and is whitelisted, and the content is no larger than the limit of
    the guard.  Its error is never the one for a missing file: that test
    comes after the guard, which has refused such a path already. *)
Theorem read_file_gives_guarded_content (file_path : string) (w : World) :
  exists r,
    read_file file_path w = (Ret r, w)
    /\ match r with
       | ReadOk p content size extension =>
           p = file_path
           /\ read_text cwd (w_fs w) (div TARGET_PROJECT_DIR file_path)
              = inr content
           /\ size = str_len content
           /\ extension = suffix (div TARGET_PROJECT_DIR file_path)
           /\ mem extension ALLOWED_EXTENSIONS = true
           /\ utf8_size content <= MAX_FILE_SIZE
       | ReadError msg => msg <> "File not found: " +:+ file_path
       end.
Proof.
  rewrite read_file_eq. cbv zeta. eexists. split; [reflexivity|].
  set (target := div TARGET_PROJECT_DIR file_path).
  destruct (validate_target_path (w_fs w) target) eqn:Hv; cbn [negb].
  2: { intros E. discriminate E. }
  pose proof (guarded_target_is_absolute _ _ Hv) as Habs.
  apply validate_target_path_true in Hv as (_ & Hex & Hsuf & Hsize).
  rewrite Hex. cbn [negb].
  assert (Hsame : absolute cwd target = target).
  { unfold absolute. unfold target. rewrite (div_is_absolute _ _ Habs).
    reflexivity. }
  rewrite Hsame in Hsuf.
  unfold read_text, st_size_of in *.
  destruct (locate cwd (w_fs w) target) as [q [c| |]|q|e].
  - repeat split; assumption.
  - unfold os_error, strerror. cbn. intros E. discriminate E.
  - unfold os_error, strerror. cbn. intros E. discriminate E.
  - unfold os_error, strerror. cbn. intros E. discriminate E.
  - unfold os_error, strerror.
    destruct (e =? 2); [cbn; intros E; discriminate E|].
    destruct (e =? 20); [cbn; intros E; discriminate E|].
    destruct (e =? 21); cbn; intros E; discriminate E.
Qed.


(** ** Two changes to one file *)




End Agent.

(** * The code on concrete inputs *)

Import Text PurePath FS Database.

(** C1. The guard lets through paths that resolve outside the target
    directory: [/srv/shop/../keys/id.txt], which leaves it through [".."],
    and [/srv/shop/ln.txt], a link to a file outside. *)
Theorem validate_accepts_paths_resolving_outside :
  validate_target_path shop home tree0 (div shop "../keys/id.txt") = true
  /\ realpath home tree0 (div shop "../keys/id.txt")
     = Some ["srv"; "keys"; "id.txt"]
  /\ resolves_inside_target shop home tree0 (div shop "../keys/id.txt") = false
  /\ validate_target_path shop home tree0 (div shop "ln.txt") = true
  /\ realpath home tree0 (div shop "ln.txt") = Some ["srv"; "keys"; "id.txt"]
  /\ resolves_inside_target shop home tree0 (div shop "ln.txt") = false
  /\ realpath home tree0 shop = Some ["srv"; "shop"].
Proof. vm_compute. repeat split; reflexivity. Qed.

(** C10. [read_file] on [ghost.py], a relative path inside the target
    directory with a whitelisted extension that names no file, answers with
    the error of a refused path, not with "File not found". *)
Theorem read_file_of_missing_file_is_denied :
  exists_ home tree0 (div shop "ghost.py") = false
  /\ relative_to (absolute home (div shop "ghost.py")) shop
     = Some (mkPath NoRoot ["ghost.py"])
  /\ mem (suffix (div shop "ghost.py")) ALLOWED_EXTENSIONS = true
  /\ read_file shop home "ghost.py" world0
     = (Ret (ReadError "File access denied - safety check failed"), world0)
  /\ read_file shop home "ghost.py" world0
     <> (Ret (ReadError "File not found: ghost.py"), world0).
Proof.
  assert (H : read_file shop home "ghost.py" world0
     = (Ret (ReadError "File access denied - safety check failed"), world0)).
  { rewrite read_file_eq. vm_compute. reflexivity. }
  split; [vm_compute; reflexivity|].
  split; [vm_compute; reflexivity|].
  split; [vm_compute; reflexivity|].
  split; [exact H|]. rewrite H. intros [=].
Qed.

Lemma accept_writes_once_then_conflicts_witness :
  let w1 := snd (apply_proposed_change shop home 7 world1) in
  fst (apply_proposed_change shop home 7 world1) = Ret (Applied 7 "app.py")
  /\ read_text home (w_fs w1) (div shop "app.py") = inr "print(2)"
  /\ apply_proposed_change shop home 7 w1
     = (Ret (ApplyError "Change already accepted"), w1)
  /\ reject_proposed_change 7 w1
     = (Ret (RejectError "Change already accepted"), w1).
Proof.
  assert (Hv : validate_target_path shop home (w_fs world1)
                 (target_of shop change7) = true)
    by (vm_compute; reflexivity).
  assert (Hw : write_text home (w_fs world1) (target_of shop change7)
                 (pc_proposed_content change7)
               = inr (<[["srv"; "shop"; "app.py"] := File "print(2)"]> tree0))
    by (vm_compute; reflexivity).
  destruct (accept_writes_once_then_conflicts shop home world1 7 change7 _
              eq_refl eq_refl Hv Hw _ _
              (surjective_pairing (apply_proposed_change shop home 7 world1)))
    as (H1 & H2 & _ & _ & H5 & H6).
  cbv zeta. split; [exact H1|]. split; [exact H2|]. split; [exact H5|exact H6].
Defined.

Lemma accept_guards_then_writes_then_commits_witness :
  apply_proposed_change shop home 7 world1_gone
  = (Ret (ApplyError "Safety check failed on write"), world1_gone)
  /\ get_proposed_change 7 world1_gone = Some change7.
Proof.
  destruct (accept_guards_then_writes_then_commits shop home world1_gone 7
              change7 eq_refl eq_refl _ _
              (surjective_pairing
                 (apply_proposed_change shop home 7 world1_gone)))
    as [H1 H2].
  assert (Hv : validate_target_path shop home (w_fs world1_gone)
                 (target_of shop change7) = false)
    by (vm_compute; reflexivity).
  rewrite Hv in H1. destruct H1 as [Hr Hw].
  split.
  - rewrite (surjective_pairing (apply_proposed_change shop home 7 world1_gone)).
    rewrite Hr, Hw. reflexivity.
  - reflexivity.
Defined.



(** C9, as the specification words it, fails: of the two files selected,
    only the one that exists is stored as analysed. *)
Lemma ai_resolve_does_not_store_the_selection :
  let w1 :=
    snd (api_ticket_ai_resolve shop home claude0 json0 rglob0 context0 1 world0) in
  fst (identify_relevant_files shop home claude0 json0 rglob0
         (ticket_task world0 ticket0) world0)
  = Ret ["app.py"; "ghost.py"]
  /\ option_map t_ai_files_analyzed (get_ticket_by_id 1 w1)
     = Some (Some ["app.py"])
  /\ option_map t_ai_files_analyzed (get_ticket_by_id 1 w1)
     <> Some (Some ["app.py"; "ghost.py"]).
Proof.
  assert (H : option_map t_ai_files_analyzed
                (get_ticket_by_id 1
                   (snd (api_ticket_ai_resolve shop home claude0 json0 rglob0
                           context0 1 world0)))
              = Some (Some ["app.py"]))
    by (vm_compute; reflexivity).
  cbv zeta. split; [vm_compute; reflexivity|].
  split; [exact H|]. rewrite H. discriminate.
Qed.

Lemma ai_resolve_stores_the_files_it_read_witness :
  exists new w1,
    api_ticket_ai_resolve shop home claude0 json0 rglob0 context0 1 world0
    = (Ret (ResolveOk plan0 ["app.py"]
              (map (fun c => (pc_file_path c, pc_id c)) new)), w1)
    /\ changes (w_db w1) = changes (w_db world0) ++ new.
Proof.
  destruct (ai_resolve_stores_the_files_it_read shop home claude0 json0 rglob0
              context0 world0 1 ticket0 ["app.py"] 1 8 plan0
              (snd (process_task_two_step shop home claude0 json0 rglob0 context0
                      (ticket_task world0 ticket0) (t_project_id ticket0) world0))
              eq_refl)
    as (sel & w0 & new & w1 & _ & _ & H3 & _ & H5 & _).
  { vm_compute. reflexivity. }
  exists new, w1. split; [exact H3|exact H5].
Defined.

Lemma extract_file_directives_two_lines_witness :
  extract_file_directives "Fix login"
    ("The check is wrong." +:+ nl +:+ MARKER +:+ nl +:+
     join nl ["- app.py: compare the hash"; "(see the README)";
              "- README.md: describe the login"])
  = [("app.py", "compare the hash"); ("README.md", "describe the login")].
Proof.
  refine (proj1 (extract_file_directives_two_lines shop home claude0 json0
                   rglob0 context0 "Fix login" ("The check is wrong." +:+ nl)
                   "app.py" "compare the hash" "README.md" "describe the login"
                   ["(see the README)"] _ _ _ _ _ _ _ _)).
  1-6: reflexivity.
  - constructor; [split; reflexivity|constructor].
  - vm_compute. reflexivity.
Defined.

(** C8, as the specification words it, fails: the plan names [app.py]
    twice, and both instructions are kept, as directives and as proposed
    changes of the ticket. *)
Lemma later_directive_does_not_replace_earlier :
  extract_file_directives (t_title ticket0) plan0
  = [("app.py", "compare the password hash"); ("app.py", "log failed attempts")]
  /\ extract_file_directives (t_title ticket0) plan0
     <> [("app.py", "log failed attempts")]
  /\ map (fun c => (pc_file_path c, pc_change_description c))
       (changes
          (w_db
             (snd (api_ticket_ai_resolve shop home claude0 json0 rglob0
                     context0 1 world0))))
     = [("app.py", "Fix login: compare the password hash");
        ("app.py", "Fix login: log failed attempts")].
Proof.
  assert (H : extract_file_directives (t_title ticket0) plan0
              = [("app.py", "compare the password hash");
                 ("app.py", "log failed attempts")])
    by (vm_compute; reflexivity).
  split; [exact H|]. split; [rewrite H; discriminate|].
  vm_compute. reflexivity.
Qed.

Lemma repeated_path_keeps_every_directive_witness :
  extract_file_directives "Fix login"
    (MARKER +:+ nl +:+ join nl ["- app.py: first"; "- app.py: second"])
  = [("app.py", "first"); ("app.py", "second")]
  /\ exists row1 row2 w1,
       propose_lines shop home claude0 ticket0 ["app.py"]
         ["- app.py: first"; "- app.py: second"] [] world0
       = (Ret [("app.py", pc_id row1); ("app.py", pc_id row2)], w1)
       /\ pc_change_description row1 = "Fix login: first"
       /\ pc_change_description row2 = "Fix login: second".
Proof.
  assert (Hgen : forall n r, exists c, claude0 n r = Ret c).
  { intros [|[|n]] r; eexists; reflexivity. }
  destruct (repeated_path_keeps_every_directive shop home claude0 "Fix login" ""
              "app.py" "first" "second" [] ticket0 ["app.py"] world0)
    as [H1 (row1 & row2 & w1 & H2 & _ & _ & _ & _ & H7 & H8 & _)];
    try reflexivity; try assumption.
  { constructor. }
  split; [exact H1|]. exists row1, row2, w1.
  split; [exact H2|]. split; [exact H7|exact H8].
Defined.

(** What C6 leaves out: were the generation call to raise an exception
    whose message is empty, the route would take the result for a success
    and store an empty suggestion. *)
Lemma ai_resolve_with_empty_error_message :
  let run :=
    api_ticket_ai_resolve shop home (claude_fails_silently_after 1) json0
      rglob0 context0 1 world0 in
  fst run = Ret (ResolveOk "" [] [])
  /\ option_map t_ai_suggestion (get_ticket_by_id 1 (snd run)) = Some (Some "")
  /\ option_map t_ai_suggestion_status (get_ticket_by_id 1 (snd run))
     = Some (Some Pending).
Proof. vm_compute. repeat split; reflexivity. Qed.

(** ** Instances of the further properties *)

Lemma resolved_change_is_final_witness :
  apply_proposed_change shop home 7 world1_rejected
  = (Ret (ApplyError "Change already rejected"), world1_rejected)
  /\ reject_proposed_change 7 world1_rejected
     = (Ret (RejectError "Change already rejected"), world1_rejected).
Proof.
  assert (Hs : pc_status change7_rejected <> Pending) by (cbn; discriminate).
  exact (resolved_change_is_final shop home world1_rejected 7 change7_rejected
           eq_refl Hs).
Defined.

Lemma reject_marks_only_its_row_witness :
  exists w1 row,
    reject_proposed_change 7 world1 = (Ret (RejectedOk 7), w1)
    /\ get_proposed_change 7 w1 = Some row
    /\ pc_status row = Rejected
    /\ pc_resolved_at row = Some 100
    /\ w_fs w1 = tree0.
Proof.
  destruct (reject_marks_only_its_row world1 7 change7 eq_refl eq_refl)
    as (w1 & row & H1 & H2 & H3 & H4 & _ & _ & _ & _ & _ & _ & H11 & _).
  exists w1, row. repeat split; assumption.
Defined.

Lemma change_ids_stay_distinct_witness :
  exists change_id w1,
    create_proposed_change "README.md" "# Shop" "# The shop" "Fix login: title"
      (Some 1) world2 = (Ret change_id, w1)
    /\ (forall c, In c (changes (w_db world2)) -> pc_id c < change_id)
    /\ List.NoDup (map pc_id (changes (w_db w1))).
Proof.
  assert (Hnd : List.NoDup (map pc_id (changes (w_db world2)))).
  { repeat constructor; cbn; intuition discriminate. }
  exact (proj1 (change_ids_stay_distinct shop home world2 Hnd)
           "README.md" "# Shop" "# The shop" "Fix login: title" (Some 1)).
Defined.

Lemma propose_file_change_outcomes_witness :
  exists change_id w1,
    propose_file_change shop home claude0 "app.py" "greet" (Some 1) world0
    = (Ret (Proposed change_id "app.py" "print(1)" selection0 "greet"), w1)
    /\ w_fs w1 = tree0.
Proof.
  destruct (proj2 (proj2 (propose_file_change_outcomes shop home claude0
                            "app.py" "greet" (Some 1) world0))
              "app.py" "print(1)" 8 ".py" selection0)
    as (change_id & w1 & H1 & _ & _ & _ & H5).
  { vm_compute. reflexivity. }
  { reflexivity. }
  exists change_id, w1. split; [exact H1|exact H5].
Defined.

Lemma ticket_action_errors_change_nothing_witness :
  api_ticket_ai_action shop home chat0 1 " delete " "" world1
  = (Ret (ActionError 400 "Invalid action. Use: accept, reject, or probe"),
     world1)
  /\ api_ticket_ai_action shop home chat0 5 "accept" "" world1
     = (Ret (ActionError 404 "Ticket not found"), world1)
  /\ api_ticket_ai_action shop home chat0 1 "probe" "  " world1
     = (Ret (ActionError 400 "Message required for probe action"), world1).
Proof.
  split; [|split].
  - apply (proj1 (ticket_action_errors_change_nothing shop home chat0 world1 1
                    " delete " "")). vm_compute. reflexivity.
  - apply (proj1 (proj2 (ticket_action_errors_change_nothing shop home chat0
                           world1 5 "accept" ""))); vm_compute; reflexivity.
  - apply (proj2 (proj2 (ticket_action_errors_change_nothing shop home chat0
                           world1 1 "probe" "  "))).
    + vm_compute. reflexivity.
    + discriminate.
    + vm_compute. reflexivity.
Defined.

Lemma identify_relevant_files_gives_nothing_witness :
  identify_relevant_files shop home (claude_fails_after 0) json0 rglob0
    "Fix login" world0
  = (Ret [], set_calls 1 world0).
Proof.
  apply (proj1 (proj2 (proj2 (identify_relevant_files_gives_nothing shop home
                                (claude_fails_after 0) json0 rglob0
                                "Fix login" world0)))
           "Connection error.").
  - vm_compute. discriminate.
  - reflexivity.
Defined.

Lemma files_analyzed_are_distinct_and_read_witness :
  List.NoDup ["app.py"] /\ readable shop home world0 "app.py" = true.
Proof.
  destruct (files_analyzed_are_distinct_and_read shop home claude0 json0 rglob0
              context0 (ticket_task world0 ticket0) (t_project_id ticket0)
              world0
              (snd (process_task_two_step shop home claude0 json0 rglob0
                      context0 (ticket_task world0 ticket0)
                      (t_project_id ticket0) world0))
              ["app.py"] 1 8 plan0)
    as (_ & Hnd & _ & sel & w0 & _ & Hall).
  { vm_compute. reflexivity. }
  split; [exact Hnd|]. apply Hall. left. reflexivity.
Defined.

Lemma successful_task_is_recorded_witness :
  let w1 :=
    snd (process_task_two_step shop home claude0 json0 rglob0 context0
           (ticket_task world0 ticket0) (t_project_id ticket0) world0) in
  exists request,
    w_conversation w1
    = [mkMessage "user" request; mkMessage "assistant" plan0]
    /\ map cr_change_type (history (w_db w1)) = ["analyze"].
Proof.
  cbv zeta.
  destruct (successful_task_is_recorded shop home claude0 json0 rglob0
              context0 (ticket_task world0 ticket0) (t_project_id ticket0)
              world0
              (snd (process_task_two_step shop home claude0 json0 rglob0
                      context0 (ticket_task world0 ticket0)
                      (t_project_id ticket0) world0))
              ["app.py"] 1 8 plan0)
    as (request & H1 & H2 & _).
  { vm_compute. reflexivity. }
  exists request. split; [exact H1|]. rewrite H2. reflexivity.
Defined.

Lemma failed_analysis_stays_in_conversation_witness :
  exists w1 request,
    process_task_two_step shop home (claude_fails_after 1) json0 rglob0
      context0 (ticket_task world0 ticket0) (t_project_id ticket0) world0
    = (Ret (TaskError "Connection error."), w1)
    /\ w_conversation w1 = [mkMessage "user" request].
Proof.
  assert (Hfail : generation_fails shop home (claude_fails_after 1) json0 rglob0
                    context0 (ticket_task world0 ticket0)
                    (t_project_id ticket0) world0 "Connection error.").
  { exists "[Target API context unavailable: No project backend URL configured]",
      ["app.py"; "ghost.py"], (set_calls 1 world0),
      [("app.py", "print(1)")], 8.
    split; [reflexivity|]. split; [vm_compute; reflexivity|].
    split; [discriminate|]. split; [vm_compute; reflexivity|].
    split; [discriminate|]. reflexivity. }
  destruct (failed_analysis_stays_in_conversation shop home
              (claude_fails_after 1) json0 rglob0 context0
              (ticket_task world0 ticket0) (t_project_id ticket0) world0
              "Connection error." Hfail)
    as (w1 & request & H1 & H2 & _).
  exists w1, request. split; [exact H1|exact H2].
Defined.

Lemma names_without_extension_are_refused_witness :
  validate_target_path shop home tree0 (div shop ".env") = false
  /\ validate_target_path shop home tree0 (div shop "Makefile") = false.
Proof.
  split; apply names_without_extension_are_refused; vm_compute; reflexivity.
Defined.


Lemma ticket_reject_marks_its_pending_rows_witness :
  exists w1,
    api_ticket_ai_action shop home chat0 1 "reject" "" world3
    = (Ret ActionRejected, w1)
    /\ get_proposed_change 7 w1 = Some (with_status Rejected 100 change7)
    /\ get_proposed_change 9 w1 = Some change9
    /\ w_fs w1 = tree0.
Proof.
  assert (Hnd : List.NoDup (map pc_id (changes (w_db world3)))).
  { repeat constructor; cbn; intuition discriminate. }
  destruct (ticket_reject_marks_its_pending_rows shop home chat0 world3 1 ""
              ticket0 Hnd eq_refl)
    as (w1 & H1 & H2 & H3 & _).
  exists w1. split; [exact H1|].
  split; [exact (H2 change7 (or_introl eq_refl))|].
  split; [exact (H2 change9 (or_intror (or_introl eq_refl)))|exact H3].
Defined.

Lemma ticket_accept_leaves_other_rows_witness :
  get_proposed_change 9
    (snd (api_ticket_ai_action shop home chat0 1 "accept" "" world3))
  = Some change9.
Proof.
  assert (Hnd : List.NoDup (map pc_id (changes (w_db world3)))).
  { repeat constructor; cbn; intuition discriminate. }
  destruct (ticket_accept_leaves_other_rows shop home chat0 world3 1 "" ticket0
              Hnd eq_refl _ _
              (surjective_pairing
                 (api_ticket_ai_action shop home chat0 1 "accept" "" world3)))
    as [H _].
  exact (H change9 (or_intror (or_introl eq_refl)) eq_refl).
Defined.

Lemma search_array_first_brackets_witness :
  search_array "Files: [[a], b] and [c]" = Some "[[a]".
Proof.
  apply (proj2 (search_array_first_brackets "Files: [[a], b] and [c]" "[[a]")).
  exists "Files: ", "[a", ", b] and [c]". repeat split.
Defined.

Lemma directive_is_cut_at_the_first_colon_witness :
  exists a b,
    strip "  - src/a.py : fix it: now " = "- " +:+ a +:+ ":" +:+ b
    /\ "src/a.py" = strip a
    /\ "fix it: now" = strip b.
Proof.
  destruct (directive_is_cut_at_the_first_colon "Fix login"
              "  - src/a.py : fix it: now " "src/a.py" "fix it: now")
    as (a & b & H1 & _ & H3 & H4 & _).
  { vm_compute. reflexivity. }
  exists a, b. split; [exact H1|]. split; [exact H3|exact H4].
Defined.

Lemma scanned_files_are_visible_sources_witness :
  In (mkFileRef "README.md" "README.md" 6)
    (get_all_files_recursive shop home rglob0 "." tree0)
  /\ startswith "." "README.md" = false
  /\ contains ".git" "README.md" = false.
Proof.
  assert (Hin : In (mkFileRef "README.md" "README.md" 6)
                  (get_all_files_recursive shop home rglob0 "." tree0)).
  { vm_compute. right. left. reflexivity. }
  destruct (scanned_files_are_visible_sources shop home rglob0 "." tree0
              (mkFileRef "README.md" "README.md" 6) Hin)
    as (_ & Hdot & Hskip).
  split; [exact Hin|]. split.
  - apply Hdot. left. reflexivity.
  - apply Hskip. right. right. right. left. reflexivity.
Defined.

Lemma guard_is_sound_on_plain_paths_witness :
  resolves_inside_target shop home tree0 (div shop "app.py") = true.
Proof.
  apply guard_is_sound_on_plain_paths; vm_compute; reflexivity.
Defined.


Lemma ticket_status_route_sets_only_the_status_witness :
  exists w1,
    api_update_ticket_status 1 " closed " world1 = (Ret (StatusDone true), w1)
    /\ option_map t_status (get_ticket_by_id 1 w1) = Some Closed
    /\ changes (w_db w1) = [change7].
Proof.
  destruct (proj2 (ticket_status_route_sets_only_the_status 1 " closed " world1)
              Closed eq_refl)
    as (found & w1 & H1 & H2 & _ & Hf & H3).
  exists w1. subst found. split; [exact H1|].
  split; [rewrite H3; reflexivity|exact H2].
Defined.

Lemma list_files_lists_the_allowed_files_witness :
  is_dir home tree0 (div shop ".") = true
  /\ list_files shop home iterdir0 mtime0 "." tree0
     = ListOk
         [mkFileEntry "app.py" "app.py" 8 1700000000;
          mkFileEntry "README.md" "README.md" 6 1700000000] ".".
Proof.
  assert (H : list_files shop home iterdir0 mtime0 "." tree0
              = ListOk
                  [mkFileEntry "app.py" "app.py" 8 1700000000;
                   mkFileEntry "README.md" "README.md" 6 1700000000] ".")
    by (vm_compute; reflexivity).
  destruct (list_files_lists_the_allowed_files shop home iterdir0 mtime0 "."
              tree0 _ _ H) as (_ & Hd & _).
  split; [exact Hd|exact H].
Defined.

Lemma propose_route_attaches_the_change_witness :
  api_propose_change shop home claude0 1 "  " "greet" world0
  = (Ret (400, ProposeError "file_path and instruction required"), world0)
  /\ api_propose_change shop home claude0 5 "app.py" "greet" world0
     = (Ret (404, ProposeError "Ticket not found"), world0).
Proof.
  split.
  - apply (proj1 (propose_route_attaches_the_change shop home claude0 1 "  "
                    "greet" world0)). vm_compute. reflexivity.
  - apply (proj2 (propose_route_attaches_the_change shop home claude0 5
                    "app.py" "greet" world0)). vm_compute. reflexivity.
Defined.


